(** * mcp-client: the connection registry and the tool-calling orchestrator

    A shallow embedding of
      - [MCPClientManager]  (src/lib/mcp, the client manager), and
      - the chat route      (src/app/api/chat/route.ts),
    with the properties of the specification stated over it.

    JavaScript strings are modelled as [string], a character standing for
    a code unit; objects that the code mutates after creating them
    ([ServerConnectionState]) live in an explicit heap and are handled
    through references; a [Map] is an
    insertion-ordered association list, as [Map.prototype.entries]
    enumerates it; everything outside the process (protocol servers, the
    language model, the image store, the clock) is a [World] of oracles
    indexed by a tick that advances at every consultation. *)

From Stdlib Require Import String Ascii List Bool Arith Lia.
From Stdlib Require Import DecimalString.
Import ListNotations.
Open Scope string_scope.

Set Implicit Arguments.

(** ** JavaScript values *)

(** A thrown value: either an [Error] object (of which only [message] is
    ever read) or something that fails [instanceof Error]. *)
Inductive JsThrown : Type :=
| JsError (message : string)
| JsNonError.

(** [error instanceof Error ? error.message : fallback] *)
Definition message_or (fallback : string) (error : JsThrown) : string :=
  match error with
  | JsError message => message
  | JsNonError => fallback
  end.

(** Opaque JSON-like data ([unknown], [Record<string, unknown>]). *)
#[warnings="-register-all"]
Inductive Json : Type :=
| JNull
| JBool (b : bool)
| JNum (n : nat)
| JStr (s : string)
| JArr (items : list Json)
| JObj (fields : list (string * Json)).

(** Truthiness of a string and of an optional string. *)
Definition truthy (s : string) : bool :=
  match s with
  | EmptyString => false
  | String _ _ => true
  end.

Definition truthy_opt (o : option string) : bool :=
  match o with
  | Some s => truthy s
  | None => false
  end.

(** [s || fallback] on strings. *)
Definition or_else (s fallback : string) : string :=
  if truthy s then s else fallback.

Definition or_else_opt (o : option string) (fallback : string) : string :=
  match o with
  | Some s => or_else s fallback
  | None => fallback
  end.

(** The line feed of the template literals. *)
Definition LF : string := String (ascii_of_nat 10) EmptyString.

(** Number to string, as in a template literal. *)
Definition string_of_nat (n : nat) : string :=
  NilEmpty.string_of_uint (Nat.to_uint n).

(** ** Strings *)

(** [s.slice(n)] *)
Fixpoint drop (n : nat) (s : string) : string :=
  match n, s with
  | O, _ => s
  | S _, EmptyString => EmptyString
  | S n', String _ s' => drop n' s'
  end.

(** [s.replace(pat, rep)] for a string pattern: only the first
    occurrence is replaced. [rep] is taken literally, which is what
    JavaScript does when [rep] has no dollar sign. *)
Fixpoint String_replace (pat rep s : string) : string :=
  if prefix pat s then rep ++ drop (String.length pat) s
  else match s with
       | EmptyString => EmptyString
       | String c s' => String c (String_replace pat rep s')
       end.

(** [s.includes(pat)] *)
Fixpoint includes (pat s : string) : bool :=
  if prefix pat s then true
  else match s with
       | EmptyString => false
       | String _ s' => includes pat s'
       end.

(** [s.split(sep)] for a one-character separator. *)
Fixpoint split (sep : ascii) (s : string) : list string :=
  match s with
  | EmptyString => [EmptyString]
  | String c s' =>
      if Ascii.eqb c sep then EmptyString :: split sep s'
      else match split sep s' with
           | [] => [String c EmptyString]
           | piece :: rest => String c piece :: rest
           end
  end.

(** [xs.join(sep)] *)
Definition join (sep : string) (xs : list string) : string :=
  String.concat sep xs.

(** No character of [s] is [c]. *)
Fixpoint lacks (c : ascii) (s : string) : bool :=
  match s with
  | EmptyString => true
  | String c' s' => negb (Ascii.eqb c' c) && lacks c s'
  end.

(** ** Map *)

(** A JavaScript [Map] with string keys: an association list in insertion
    order. [set] on a present key keeps its position, [delete] leaves no
    binding of the key; from [empty] on, the keys stay distinct. *)
Module JSMap.

Definition t (V : Type) : Type := list (string * V).

Definition empty {V : Type} : t V := [].

Fixpoint get {V : Type} (k : string) (m : t V) : option V :=
  match m with
  | [] => None
  | (k', v) :: m' => if String.eqb k k' then Some v else get k m'
  end.

Fixpoint set {V : Type} (k : string) (v : V) (m : t V) : t V :=
  match m with
  | [] => [(k, v)]
  | (k', v') :: m' =>
      if String.eqb k k' then (k', v) :: m' else (k', v') :: set k v m'
  end.

Fixpoint delete {V : Type} (k : string) (m : t V) : t V :=
  match m with
  | [] => []
  | (k', v') :: m' =>
      if String.eqb k k' then delete k m' else (k', v') :: delete k m'
  end.

Definition entries {V : Type} (m : t V) : list (string * V) := m.

Definition keys {V : Type} (m : t V) : list string := map fst m.

End JSMap.

(** ** Completions and the effect monad *)

(** How a piece of code ends: normally, by throwing, or not within the
    fuel given to its loops. *)
Inductive Completion (A : Type) : Type :=
| Normal (a : A)
| Throw (e : JsThrown)
| Diverge.

Arguments Throw {A} e.
Arguments Diverge {A}.

(** What a promise of the outside world settles to. *)
Inductive Outcome (A : Type) : Type :=
| Resolved (a : A)
| Rejected (e : JsThrown).

Arguments Rejected {A} e.

(** State passing with completions: the state survives a throw, as the
    effects of JavaScript code do. *)
Definition M (S A : Type) : Type := S -> Completion A * S.

Definition ret {S A : Type} (a : A) : M S A := fun s => (Normal a, s).

Definition bind {S A B : Type} (m : M S A) (k : A -> M S B) : M S B :=
  fun s =>
    match m s with
    | (Normal a, s') => k a s'
    | (Throw e, s') => (Throw e, s')
    | (Diverge, s') => (Diverge, s')
    end.

Definition throw {S A : Type} (e : JsThrown) : M S A := fun s => (Throw e, s).

Definition diverge {S A : Type} : M S A := fun s => (Diverge, s).

Definition gets {S A : Type} (f : S -> A) : M S A := fun s => (Normal (f s), s).

Definition modify {S : Type} (f : S -> S) : M S unit := fun s => (Normal tt, f s).

(** [try { body } catch (error) { handler }] *)
Definition try_catch {S A : Type} (body : M S A) (handler : JsThrown -> M S A)
  : M S A :=
  fun s =>
    match body s with
    | (Throw e, s') => handler e s'
    | r => r
    end.

(** [try { body } finally { fin }] *)
Definition try_finally {S A : Type} (body : M S A) (fin : M S unit) : M S A :=
  fun s =>
    match body s with
    | (Diverge, s') => (Diverge, s')
    | (c, s') =>
        match fin s' with
        | (Normal _, s'') => (c, s'')
        | (Throw e, s'') => (Throw e, s'')
        | (Diverge, s'') => (Diverge, s'')
        end
    end.

(** Running a computation of a component on the whole state. *)
Definition lift {S T A : Type} (proj : T -> S) (inj : S -> T -> T) (m : M S A)
  : M T A :=
  fun t => let (c, s') := m (proj t) in (c, inj s' t).

Declare Scope js_scope.
Delimit Scope js_scope with js.
Notation "x <- m ;; k" := (bind m (fun x => k))
  (at level 61, m at next level, right associativity) : js_scope.
Notation "m ;;; k" := (bind m (fun _ => k))
  (at level 61, right associativity) : js_scope.
Open Scope js_scope.

(** [for (const x of xs) { body(x) }] *)
Fixpoint for_of {S A : Type} (xs : list A) (body : A -> M S unit) : M S unit :=
  match xs with
  | [] => ret tt
  | x :: xs' => body x ;;; for_of xs' body
  end.

(** ** Types of the client manager (src/lib/mcp/types.ts) *)

Record MCPServerConfig : Type := {
  id : string;
  name : string;
  transport : string;
  command : option string;
  args : option (list string);
  env : option (list (string * string));
  url : option string
}.

Module ConnectionStatus.
Inductive t : Type := disconnected | connecting | connected | error.

Definition eqb (a b : t) : bool :=
  match a, b with
  | disconnected, disconnected => true
  | connecting, connecting => true
  | connected, connected => true
  | error, error => true
  | _, _ => false
  end.
End ConnectionStatus.

Record ServerConnectionState : Type := {
  serverId : string;
  status : ConnectionStatus.t;
  error : option string;
  connectedAt : option nat
}.

Record MCPTool : Type := {
  tool_name : string;
  tool_description : option string;
  inputSchema : option Json
}.

Record MCPPrompt : Type := {
  prompt_name : string;
  prompt_description : option string;
  prompt_arguments : option Json
}.

Record MCPResource : Type := {
  uri : string;
  resource_name : option string;
  resource_description : option string;
  resource_mimeType : option string
}.

(** The transports of the protocol SDK, as the values they are built from. *)
Inductive Transport : Type :=
| StdioClientTransport (command : string) (args : list string)
    (env : option (list (string * string)))
| StreamableHTTPClientTransport (href : string)
| SSEClientTransport (href : string).

(** [new Client({ name, version })] *)
Record Client : Type := {
  client_name : string;
  client_version : string
}.

(** A content block of a [CallToolResult], in the shapes the SDK admits. *)
Inductive ContentItem : Type :=
| TextContent (text : string)
| ImageContent (data : string) (mimeType : string)
| AudioContent (data : string) (mimeType : string)
| ResourceLink (uri : string)
| EmbeddedResource (uri : string).

(** [item.type] *)
Definition item_type (item : ContentItem) : string :=
  match item with
  | TextContent _ => "text"
  | ImageContent _ _ => "image"
  | AudioContent _ _ => "audio"
  | ResourceLink _ => "resource_link"
  | EmbeddedResource _ => "resource"
  end.

(** [content] is [None] when the field is missing or not an array. *)
Record CallToolResult : Type := {
  content : option (list ContentItem);
  isError : option bool
}.

Record Image : Type := {
  image_data : string;
  image_mimeType : string
}.

(** What [callTool] of the manager returns. *)
Record ToolOutput : Type := {
  output_content : string;
  images : list Image;
  raw : CallToolResult
}.

(** A reference to a [ServerConnectionState] object. *)
Definition StateRef : Type := nat.

Record ClientInstance : Type := {
  client : Client;
  instance_transport : Transport;
  config : MCPServerConfig;
  state : StateRef
}.

(** ** The outside world *)

(** A request sent through a protocol client. *)
Inductive Request : Type :=
| ReqListTools
| ReqListPrompts
| ReqListResources
| ReqCallTool (toolName : string) (arguments : Json)
| ReqGetPrompt (promptName : string) (arguments : option (list (string * string)))
| ReqReadResource (uri : string).

(** What the process does to the outside world, in order. *)
Inductive Effect : Type :=
| EvNewTransport (t : Transport)
| EvClientConnect (c : Client) (t : Transport)
| EvClientClose (c : Client)
| EvRequest (c : Client) (r : Request)
| EvConsoleError (msg : string).

(** The answers of the outside world. The first argument is the tick at
    which the question is asked. *)
Record World : Type := {
  Date_now : nat -> nat;
  new_URL : string -> Outcome string;
  client_connect : nat -> Client -> Transport -> Outcome unit;
  client_close : nat -> Client -> Outcome unit;
  client_listTools : nat -> Client -> Outcome (list MCPTool);
  client_listPrompts : nat -> Client -> Outcome (list MCPPrompt);
  client_listResources : nat -> Client -> Outcome (list MCPResource);
  client_callTool : nat -> Client -> string -> Json -> Outcome CallToolResult;
  client_getPrompt :
    nat -> Client -> string -> option (list (string * string)) -> Outcome Json;
  client_readResource : nat -> Client -> string -> Outcome Json
}.

(** ** State of the client manager *)

Record Manager : Type := {
  clients : JSMap.t ClientInstance;
  cells : StateRef -> ServerConnectionState;
  next : StateRef;
  tick : nat;
  trace : list Effect
}.

Definition blank_state : ServerConnectionState :=
  {| serverId := ""; status := ConnectionStatus.disconnected;
     error := None; connectedAt := None |}.

(** [MCPClientManager.getInstance()] on first use. *)
Definition new_manager : Manager :=
  {| clients := JSMap.empty; cells := fun _ => blank_state; next := 0;
     tick := 0; trace := [] |}.

Definition set_clients (f : JSMap.t ClientInstance -> JSMap.t ClientInstance)
  (m : Manager) : Manager :=
  {| clients := f (clients m); cells := cells m; next := next m;
     tick := tick m; trace := trace m |}.

(** Allocation of a state object. *)
Definition alloc (v : ServerConnectionState) : M Manager StateRef :=
  fun m =>
    (Normal (next m),
     {| clients := clients m;
        cells := fun r => if Nat.eqb r (next m) then v else cells m r;
        next := S (next m); tick := tick m; trace := trace m |}).

Definition read (r : StateRef) : M Manager ServerConnectionState :=
  gets (fun m => cells m r).

(** Assignment to fields of the object behind [r]. *)
Definition update (r : StateRef)
  (f : ServerConnectionState -> ServerConnectionState) : M Manager unit :=
  modify (fun m =>
    {| clients := clients m;
       cells := fun r' => if Nat.eqb r' r then f (cells m r) else cells m r';
       next := next m; tick := tick m; trace := trace m |}).

Definition emit (e : Effect) : M Manager unit :=
  modify (fun m =>
    {| clients := clients m; cells := cells m; next := next m;
       tick := tick m; trace := trace m ++ [e] |}).

(** Consulting the world: the answer at the current tick, which advances. *)
Definition ask {A : Type} (q : nat -> A) : M Manager A :=
  fun m =>
    (Normal (q (tick m)),
     {| clients := clients m; cells := cells m; next := next m;
        tick := S (tick m); trace := trace m |}).

(** [await promise] *)
Definition await {A : Type} (q : nat -> Outcome A) : M Manager A :=
  o <- ask q ;;
  match o with
  | Resolved a => ret a
  | Rejected e => throw e
  end.

Definition console_error (msg : string) : M Manager unit :=
  emit (EvConsoleError msg).

(** ** MCPClientManager (src/lib/mcp, client manager) *)

Definition clients_get (serverId : string) : M Manager (option ClientInstance) :=
  gets (fun m => JSMap.get serverId (clients m)).

(** [createTransport(config)] *)
Definition createTransport (w : World) (config : MCPServerConfig)
  : M Manager Transport :=
  if String.eqb (transport config) "stdio" then
    if negb (truthy_opt (command config)) then
      throw (JsError "STDIO transport requires a command")
    else
      let t := StdioClientTransport
                 (or_else_opt (command config) "")
                 (match args config with Some a => a | None => [] end)
                 (env config) in
      emit (EvNewTransport t) ;;; ret t
  else if String.eqb (transport config) "streamable-http" then
    if negb (truthy_opt (url config)) then
      throw (JsError "Streamable HTTP transport requires a URL")
    else
      match new_URL w (or_else_opt (url config) "") with
      | Rejected e => throw e
      | Resolved href =>
          let t := StreamableHTTPClientTransport href in
          emit (EvNewTransport t) ;;; ret t
      end
  else if String.eqb (transport config) "sse" then
    if negb (truthy_opt (url config)) then
      throw (JsError "SSE transport requires a URL")
    else
      match new_URL w (or_else_opt (url config) "") with
      | Rejected e => throw e
      | Resolved href =>
          let t := SSEClientTransport href in
          emit (EvNewTransport t) ;;; ret t
      end
  else
    throw (JsError ("Unsupported transport type: " ++ transport config)).

(** [disconnect(serverId)] *)
Definition disconnect (w : World) (serverId : string) : M Manager unit :=
  instance <- clients_get serverId ;;
  match instance with
  | None => ret tt
  | Some instance =>
      try_finally
        (try_catch
           (emit (EvClientClose (client instance)) ;;;
            await (fun t => client_close w t (client instance)))
           (fun _ =>
              console_error ("Error closing client " ++ serverId ++ ":")))
        (modify (set_clients (JSMap.delete serverId)))
  end.

(** [connect(config)], from [const state = ...] on: a fresh state object,
    the transport, the handshake, and the entry in the map. *)
Definition establish (w : World) (config : MCPServerConfig)
  : M Manager StateRef :=
  state <- alloc {| serverId := id config;
                    status := ConnectionStatus.connecting;
                    error := None; connectedAt := None |} ;;
  try_catch
    (transport <- createTransport w config ;;
     let client := {| client_name := "mcp-client-" ++ id config;
                      client_version := "1.0.0" |} in
     emit (EvClientConnect client transport) ;;;
     await (fun t => client_connect w t client transport) ;;;
     update state (fun s =>
       {| serverId := serverId s; status := ConnectionStatus.connected;
          error := error s; connectedAt := connectedAt s |}) ;;;
     now <- ask (Date_now w) ;;
     update state (fun s =>
       {| serverId := serverId s; status := status s;
          error := error s; connectedAt := Some now |}) ;;;
     modify (set_clients (JSMap.set (id config)
       {| client := client; instance_transport := transport;
          config := config; state := state |})) ;;;
     ret state)
    (fun error_ =>
       update state (fun s =>
         {| serverId := serverId s; status := ConnectionStatus.error;
            error := error s; connectedAt := connectedAt s |}) ;;;
       update state (fun s =>
         {| serverId := serverId s; status := status s;
            error := Some (message_or "Connection failed" error_);
            connectedAt := connectedAt s |}) ;;;
       ret state).

(** [connect(config)] *)
Definition connect (w : World) (config : MCPServerConfig)
  : M Manager StateRef :=
  existingClient <- clients_get (id config) ;;
  match existingClient with
  | Some existing =>
      s <- read (state existing) ;;
      if ConnectionStatus.eqb (status s) ConnectionStatus.connected
      then ret (state existing)
      else disconnect w (id config) ;;; establish w config
  | None => establish w config
  end.

(** [getConnectionState(serverId)] *)
Definition getConnectionState (serverId_ : string) : M Manager StateRef :=
  instance <- clients_get serverId_ ;;
  match instance with
  | None => alloc {| serverId := serverId_;
                     status := ConnectionStatus.disconnected;
                     error := None; connectedAt := None |}
  | Some instance => ret (state instance)
  end.

(** [getClient(serverId)] *)
Definition getClient (serverId : string) : M Manager (option Client) :=
  instance <- clients_get serverId ;;
  match instance with
  | None => ret None
  | Some instance =>
      s <- read (state instance) ;;
      if negb (ConnectionStatus.eqb (status s) ConnectionStatus.connected)
      then ret None
      else ret (Some (client instance))
  end.

Definition not_connected (serverId : string) : JsThrown :=
  JsError ("Server " ++ serverId ++ " is not connected").

(** [listTools(serverId)] *)
Definition listTools (w : World) (serverId : string)
  : M Manager (list MCPTool) :=
  client <- getClient serverId ;;
  match client with
  | None => throw (not_connected serverId)
  | Some client =>
      emit (EvRequest client ReqListTools) ;;;
      tools <- await (fun t => client_listTools w t client) ;;
      ret (map (fun tool =>
                  {| tool_name := tool_name tool;
                     tool_description := tool_description tool;
                     inputSchema := inputSchema tool |}) tools)
  end.

(** [listPrompts(serverId)] *)
Definition listPrompts (w : World) (serverId : string)
  : M Manager (list MCPPrompt) :=
  client <- getClient serverId ;;
  match client with
  | None => throw (not_connected serverId)
  | Some client =>
      emit (EvRequest client ReqListPrompts) ;;;
      prompts <- await (fun t => client_listPrompts w t client) ;;
      ret (map (fun prompt =>
                  {| prompt_name := prompt_name prompt;
                     prompt_description := prompt_description prompt;
                     prompt_arguments := prompt_arguments prompt |}) prompts)
  end.

(** [listResources(serverId)] *)
Definition listResources (w : World) (serverId : string)
  : M Manager (list MCPResource) :=
  client <- getClient serverId ;;
  match client with
  | None => throw (not_connected serverId)
  | Some client =>
      emit (EvRequest client ReqListResources) ;;;
      resources <- await (fun t => client_listResources w t client) ;;
      ret (map (fun resource =>
                  {| uri := uri resource;
                     resource_name := resource_name resource;
                     resource_description := resource_description resource;
                     resource_mimeType := resource_mimeType resource |})
               resources)
  end.

(** The body of the loop over [result.content] in [callTool]: the text so
    far and the images so far, after one more item. *)
Definition extract_item (acc : string * list Image) (item : ContentItem)
  : string * list Image :=
  let (textContent, images) := acc in
  match item with
  | TextContent text =>
      (textContent ++ (if truthy textContent then LF else "") ++ text, images)
  | ImageContent data mimeType =>
      (textContent,
       (images ++ [{| image_data := data;
                      image_mimeType := or_else mimeType "image/png" |}])%list)
  | _ => (textContent, images)
  end.

(** What [callTool] makes of the result of the protocol call. *)
Definition extract (result : CallToolResult) : ToolOutput :=
  let (textContent, images) :=
    match content result with
    | Some items => fold_left extract_item items ("", [])
    | None => ("", [])
    end in
  {| output_content := textContent; images := images; raw := result |}.

(** Truthiness of a JSON value. *)
Definition Json_truthy (j : Json) : bool :=
  match j with
  | JNull => false
  | JBool b => b
  | JNum n => negb (Nat.eqb n 0)
  | JStr s => truthy s
  | JArr _ => true
  | JObj _ => true
  end.

(** [args || {}]: the empty object stands in for [undefined] and for
    every other value that is not truthy ([null], [false], [0], the empty
    string). *)
Definition args_or_empty (args : option Json) : Json :=
  match args with
  | Some a => if Json_truthy a then a else JObj []
  | None => JObj []
  end.

(** [callTool(serverId, toolName, args)] *)
Definition callTool (w : World) (serverId toolName : string)
  (args : option Json) : M Manager ToolOutput :=
  client <- getClient serverId ;;
  match client with
  | None => throw (not_connected serverId)
  | Some client =>
      let arguments := args_or_empty args in
      emit (EvRequest client (ReqCallTool toolName arguments)) ;;;
      result <- await (fun t => client_callTool w t client toolName arguments) ;;
      ret (extract result)
  end.

(** [getPrompt(serverId, promptName, args)] *)
Definition getPrompt (w : World) (serverId promptName : string)
  (args : option (list (string * string))) : M Manager Json :=
  client <- getClient serverId ;;
  match client with
  | None => throw (not_connected serverId)
  | Some client =>
      emit (EvRequest client (ReqGetPrompt promptName args)) ;;;
      await (fun t => client_getPrompt w t client promptName args)
  end.

(** [readResource(serverId, uri)] *)
Definition readResource (w : World) (serverId uri : string) : M Manager Json :=
  client <- getClient serverId ;;
  match client with
  | None => throw (not_connected serverId)
  | Some client =>
      emit (EvRequest client (ReqReadResource uri)) ;;;
      await (fun t => client_readResource w t client uri)
  end.

(** [getConnectedServerIds()] *)
Definition getConnectedServerIds : M Manager (list string) :=
  gets (fun m =>
    map fst
      (filter (fun entry =>
                 ConnectionStatus.eqb (status (cells m (state (snd entry))))
                   ConnectionStatus.connected)
         (JSMap.entries (clients m)))).

(** [disconnectAll()]: the disconnections are started in the order of the
    keys; here each one also finishes before the next starts. *)
Definition disconnectAll (w : World) : M Manager unit :=
  serverIds <- gets (fun m => JSMap.keys (clients m)) ;;
  for_of serverIds (disconnect w).

(** ** The chat route (src/app/api/chat/route.ts) *)

Record MessageImage : Type := {
  message_image_url : string;
  message_image_mimeType : string
}.

Record ChatMessage : Type := {
  role : string;
  message_content : string;
  message_images : option (list MessageImage)
}.

(** A part of a message to the model. *)
Inductive Part : Type :=
| TextPart (text : string)
| InlineData (mimeType : string) (data : string).

(** The argument of [chat.sendMessage]. *)
Inductive MessageParam : Type :=
| MessageText (text : string)
| MessageParts (parts : list Part).

Record FunctionCall : Type := {
  call_name : option string;
  call_args : option Json
}.

(** The reply of the model, as far as the route reads it. *)
Record GenerateContentResponse : Type := {
  functionCalls : option (list FunctionCall);
  response_text : option string
}.

Record ServerInfo : Type := {
  info_serverId : string;
  info_serverName : string
}.

Record ToolEntry : Type := {
  entry_serverId : string;
  entry_serverName : string;
  entry_tool : MCPTool
}.

Record UploadedImage : Type := {
  uploaded_url : string;
  uploaded_mimeType : string
}.

(** The payload of a frame. A field that is [None] is [undefined], which
    [JSON.stringify] leaves out. *)
Inductive SSEData : Type :=
| ToolCallStartEvent (id serverId serverName name : string) (arguments : Json)
| ToolCallResultEvent (id : string) (result : option CallToolResult)
    (error : option string) (images : option (list UploadedImage))
| TextEvent (content : string)
| ErrorEvent (message : string)
| DoneEvent.

(** One frame of the event stream: [event: <event>\ndata: <data>\n\n]. *)
Record SSEFrame : Type := {
  event : string;
  data : SSEData
}.

(** [response] of an entry of [functionResults]. *)
Inductive FunctionResponse : Type :=
| ResponseError (error : string)
| ResponseText (text : string)
| ResponseRaw (raw : CallToolResult).

Record FunctionResult : Type := {
  result_name : string;
  response : FunctionResponse
}.

(** An entry of [conversationParts]. *)
Inductive ConversationPart : Type :=
| ModelPart (calls : list FunctionCall)
| UserPart (results : list FunctionResult).

(** The answers of the model, of the image store and of the random number
    generator, by tick. The chat object keeps the messages that it was
    sent; its answer may depend on their number, the first argument of
    [chat_sendMessage]. *)
Record ChatWorld : Type := {
  world : World;
  chats_create : nat -> Outcome unit;
  chat_sendMessage :
    nat -> nat -> MessageParam -> Outcome GenerateContentResponse;
  Math_random36 : nat -> string;
  uploadAndSaveImage :
    nat -> string -> string -> string -> string -> string ->
    Outcome (option string)
}.

(** What [start(controller)] works on: the manager, the stream controller
    (its queue of frames and whether it is closed), the number of messages
    sent to the chat object, and the local [conversationParts]. *)
Record Turn : Type := {
  manager : Manager;
  queue : list SSEFrame;
  closed : bool;
  sent : nat;
  conversationParts : list ConversationPart
}.

Definition new_turn (m : Manager) : Turn :=
  {| manager := m; queue := []; closed := false; sent := 0;
     conversationParts := [] |}.

Definition on_manager {A : Type} (c : M Manager A) : M Turn A :=
  lift manager
    (fun m t => {| manager := m; queue := queue t; closed := closed t;
                   sent := sent t;
                   conversationParts := conversationParts t |})
    c.

Definition controller_closed_error : JsThrown :=
  JsError "Invalid state: Controller is already closed".

(** [controller.enqueue(chunk)] *)
Definition controller_enqueue (frame : SSEFrame) : M Turn unit :=
  fun t =>
    if closed t then (Throw controller_closed_error, t)
    else (Normal tt,
          {| manager := manager t; queue := queue t ++ [frame];
             closed := closed t; sent := sent t;
             conversationParts := conversationParts t |}).

(** [controller.close()] *)
Definition controller_close : M Turn unit :=
  fun t =>
    if closed t then (Throw controller_closed_error, t)
    else (Normal tt,
          {| manager := manager t; queue := queue t; closed := true;
             sent := sent t; conversationParts := conversationParts t |}).

(** [sendSSE(controller, event, data)] *)
Definition sendSSE (event : string) (data : SSEData) : M Turn unit :=
  controller_enqueue {| event := event; data := data |}.

Definition conversationParts_push (p : ConversationPart) : M Turn unit :=
  modify (fun t =>
    {| manager := manager t; queue := queue t; closed := closed t;
       sent := sent t; conversationParts := conversationParts t ++ [p] |}).

(** The separator between server id and tool name. *)
Definition separator : string := "__".

(** [`${serverId}__${tool.name}`] *)
Definition prefixedName (serverId toolName : string) : string :=
  serverId ++ separator ++ toolName.

(** [prefixedName.replace(`${serverInfo.serverId}__`, '')] *)
Definition actualToolName (serverInfo : ServerInfo) (prefixed : string)
  : string :=
  String_replace (info_serverId serverInfo ++ separator) "" prefixed.

(** How the loop over the function calls finds server and tool of a name
    the model uses: the entry of [toolServerMap], then the name without
    the prefix. *)
Definition unprefix (toolServerMap : JSMap.t ServerInfo) (prefixed : string)
  : option (string * string) :=
  match JSMap.get prefixed toolServerMap with
  | None => None
  | Some serverInfo =>
      Some (info_serverId serverInfo, actualToolName serverInfo prefixed)
  end.

(** The inner loop of the collection of tools: one tool of [serverId]. *)
Definition collect_tool (serverId serverName : string)
  (acc : list ToolEntry * JSMap.t ServerInfo) (tool : MCPTool)
  : list ToolEntry * JSMap.t ServerInfo :=
  let (allTools, toolServerMap) := acc in
  let prefixed := prefixedName serverId (tool_name tool) in
  ((allTools ++
      [{| entry_serverId := serverId; entry_serverName := serverId;
          entry_tool := {| tool_name := prefixed;
                           tool_description := tool_description tool;
                           inputSchema := inputSchema tool |} |}])%list,
   JSMap.set prefixed
     {| info_serverId := serverId; info_serverName := serverName |}
     toolServerMap).

(** The body of the loop over [connectedServerIds]. *)
Definition collect_server (w : World)
  (acc : list ToolEntry * JSMap.t ServerInfo) (serverId_ : string)
  : M Manager (list ToolEntry * JSMap.t ServerInfo) :=
  try_catch
    (tools <- listTools w serverId_ ;;
     stateRef <- getConnectionState serverId_ ;;
     state <- read stateRef ;;
     ret (fold_left (collect_tool serverId_ (serverId state)) tools acc))
    (fun _ =>
       console_error ("Failed to get tools from server " ++ serverId_ ++ ":") ;;;
       ret acc).

Fixpoint collect_servers (w : World) (serverIds : list string)
  (acc : list ToolEntry * JSMap.t ServerInfo)
  : M Manager (list ToolEntry * JSMap.t ServerInfo) :=
  match serverIds with
  | [] => ret acc
  | serverId :: rest =>
      acc' <- collect_server w acc serverId ;;
      collect_servers w rest acc'
  end.

(** The tools of the connected servers: [allTools] and [toolServerMap]. *)
Definition collectTools (w : World)
  : M Manager (list ToolEntry * JSMap.t ServerInfo) :=
  connectedServerIds <- getConnectedServerIds ;;
  collect_servers w connectedServerIds ([], JSMap.empty).

(** What [start] closes over. *)
Record StreamContext : Type := {
  toolServerMap : JSMap.t ServerInfo;
  lastMessage : ChatMessage;
  lastMessageParts : list Part;
  sessionId : option string;
  messageId : option string
}.

(** [`call_${Date.now()}_${Math.random().toString(36).substr(2, 9)}`] *)
Definition new_callId (cw : ChatWorld) : M Turn string :=
  now <- on_manager (ask (Date_now (world cw))) ;;
  rnd <- on_manager (ask (Math_random36 cw)) ;;
  ret ("call_" ++ string_of_nat now ++ "_" ++ rnd).

(** [img.mimeType.split('/')[1] || 'png'] *)
Definition extension (mimeType : string) : string :=
  match nth_error (split "/" mimeType) 1 with
  | Some ext => or_else ext "png"
  | None => "png"
  end.

(** The loop that uploads [result.images], from index [i] on. *)
Fixpoint upload_images (cw : ChatWorld) (toolName sessionId messageId : string)
  (i : nat) (imgs : list Image) (uploadedImages : list UploadedImage)
  : M Turn (list UploadedImage) :=
  match imgs with
  | [] => ret uploadedImages
  | img :: rest =>
      now <- on_manager (ask (Date_now (world cw))) ;;
      let filename :=
        "tool_" ++ toolName ++ "_" ++ string_of_nat i ++ "_" ++
        string_of_nat now ++ "." ++ extension (image_mimeType img) in
      uploadResult <-
        on_manager (await (fun t =>
          uploadAndSaveImage cw t (image_data img) sessionId messageId
            filename (image_mimeType img))) ;;
      upload_images cw toolName sessionId messageId (S i) rest
        (match uploadResult with
         | Some publicUrl =>
             (uploadedImages ++
                [{| uploaded_url := publicUrl;
                    uploaded_mimeType := image_mimeType img |}])%list
         | None => uploadedImages
         end)
  end.

Definition nonempty {A : Type} (xs : list A) : bool :=
  match xs with
  | [] => false
  | _ :: _ => true
  end.

(** The execution of a tool in the loop over [functionCalls]: the call
    through the manager, then the upload of the images of the result when
    there are any and session and message are known. *)
Definition invoke_tool (cw : ChatWorld) (ctx : StreamContext)
  (serverInfo : ServerInfo) (toolName : string) (call : FunctionCall)
  : M Turn (ToolOutput * list UploadedImage) :=
  result <- on_manager
    (callTool (world cw) (info_serverId serverInfo) toolName
       (call_args call)) ;;
  uploadedImages <-
    (if nonempty (images result) && truthy_opt (sessionId ctx)
        && truthy_opt (messageId ctx)
     then upload_images cw toolName
            (or_else_opt (sessionId ctx) "")
            (or_else_opt (messageId ctx) "") 0 (images result) []
     else ret []) ;;
  ret (result, uploadedImages).

(** The body of the loop over [functionCalls]: the frames of one call and
    its entry of [functionResults]. *)
Definition process_call (cw : ChatWorld) (ctx : StreamContext)
  (call : FunctionCall) : M Turn FunctionResult :=
  callId <- new_callId cw ;;
  let prefixed := or_else_opt (call_name call) "" in
  match JSMap.get prefixed (toolServerMap ctx) with
  | None =>
      sendSSE "tool_call_start"
        (ToolCallStartEvent callId "unknown" "Unknown" prefixed
           (args_or_empty (call_args call))) ;;;
      sendSSE "tool_call_result"
        (ToolCallResultEvent callId None (Some "Server not found for tool")
           None) ;;;
      ret {| result_name := prefixed;
             response := ResponseError "Server not found for tool" |}
  | Some serverInfo =>
      let toolName := actualToolName serverInfo prefixed in
      sendSSE "tool_call_start"
        (ToolCallStartEvent callId (info_serverId serverInfo)
           (info_serverName serverInfo) toolName
           (args_or_empty (call_args call))) ;;;
      try_catch
        (executed <- invoke_tool cw ctx serverInfo toolName call ;;
         let (result, uploadedImages) := executed in
         sendSSE "tool_call_result"
           (ToolCallResultEvent callId (Some (raw result)) None
              (if nonempty uploadedImages then Some uploadedImages
               else None)) ;;;
         let responseContent :=
           output_content result ++
           (if nonempty uploadedImages
            then LF ++ LF ++ "[Images generated: " ++
                 join ", " (map uploaded_url uploadedImages) ++ "]"
            else "") in
         ret {| result_name := prefixed;
                response := if truthy responseContent
                            then ResponseText responseContent
                            else ResponseRaw (raw result) |})
        (fun error_ =>
           let errorMessage := message_or "Tool execution failed" error_ in
           sendSSE "tool_call_result"
             (ToolCallResultEvent callId None (Some errorMessage) None) ;;;
           ret {| result_name := prefixed;
                  response := ResponseError errorMessage |})
  end.

(** [for (const call of functionCalls) { ... }], with [functionResults]. *)
Fixpoint process_calls (cw : ChatWorld) (ctx : StreamContext)
  (calls : list FunctionCall) (functionResults : list FunctionResult)
  : M Turn (list FunctionResult) :=
  match calls with
  | [] => ret functionResults
  | call :: rest =>
      r <- process_call cw ctx call ;;
      process_calls cw ctx rest (functionResults ++ [r])
  end.

(** [await chat.sendMessage({ message })] *)
Definition sendMessage (cw : ChatWorld) (message : MessageParam)
  : M Turn GenerateContentResponse :=
  round <- gets sent ;;
  modify (fun t =>
    {| manager := manager t; queue := queue t; closed := closed t;
       sent := S (sent t); conversationParts := conversationParts t |}) ;;;
  on_manager (await (fun t => chat_sendMessage cw round t message)).

(** [while (continueLoop) { ... }]: [fuel] bounds the number of rounds. *)
Fixpoint chat_loop (fuel : nat) (cw : ChatWorld) (ctx : StreamContext)
  (isFirstMessage : bool) (pendingFunctionResults : string) : M Turn unit :=
  match fuel with
  | O => diverge
  | S fuel' =>
      response <-
        (if isFirstMessage then
           match message_images (lastMessage ctx) with
           | Some (_ :: _) =>
               sendMessage cw (MessageParts (lastMessageParts ctx))
           | _ =>
               sendMessage cw
                 (MessageText (or_else (message_content (lastMessage ctx)) ""))
           end
         else sendMessage cw (MessageText (or_else pendingFunctionResults ""))) ;;
      match functionCalls response with
      | Some (call :: rest) =>
          functionResults <- process_calls cw ctx (call :: rest) [] ;;
          conversationParts_push (ModelPart (call :: rest)) ;;;
          conversationParts_push (UserPart functionResults) ;;;
          chat_loop fuel' cw ctx false ""
      | _ =>
          let text := or_else_opt (response_text response) "" in
          (if truthy text then sendSSE "text" (TextEvent text) else ret tt)
      end
  end.

(** [start(controller)] of the stream. *)
Definition start (fuel : nat) (cw : ChatWorld) (ctx : StreamContext)
  : M Turn unit :=
  try_catch
    (on_manager (await (chats_create cw)) ;;;
     chat_loop fuel cw ctx true "" ;;;
     sendSSE "done" DoneEvent ;;;
     controller_close)
    (fun error_ =>
       on_manager (console_error "Chat API error:") ;;;
       sendSSE "error"
         (ErrorEvent (message_or "Internal server error" error_)) ;;;
       controller_close).

(** * The stored list of servers (src/lib/mcp/storage.ts) *)

Definition STORAGE_KEY : string := "mcp_servers".
Definition CONFIG_VERSION : string := "1.0".

(** The double quote of the template literals. *)
Definition DQ : string := String (ascii_of_nat 34) EmptyString.

(** What [localStorage] holds under [STORAGE_KEY]: nothing; the empty
    text; a text that [JSON.parse] rejects; a text that is JSON of a
    value that is not an array ([null], a number, a string, a boolean,
    an object); or the text that [JSON.stringify] makes of an array of
    configurations, which [JSON.parse] reads back as the same array (an
    absent field and an [undefined] one are both [None]). A text that is
    JSON of an array with other elements has no place in this type. *)
Inductive Item : Type :=
| NoItem
| EmptyText
| Unparsable
| NotAnArray
| Stringified (servers : list MCPServerConfig).

(** The browser: whether there is a [window], whether [setItem] fails
    (the quota), the wording of the [TypeError] for a call of the named
    method on a value that has none, the clock and the random numbers,
    by tick. *)
Record Browser : Type := {
  window_defined : bool;
  setItem_throws : nat -> option JsThrown;
  TypeError_message : string -> string;
  toISOString_now : nat -> string;
  browser_Date_now : nat -> nat;
  browser_random36 : nat -> string
}.

(** The state of the page: the item, the tick, and the first argument of
    every [console.error]. *)
Record Page : Type := {
  stored : Item;
  page_tick : nat;
  page_errors : list string
}.

(** What [getServers] hands to its caller as [MCPServerConfig[]]: the
    cast checks nothing, so it is an array of configurations or a value
    that is not an array. *)
Inductive Parsed : Type :=
| Servers (servers : list MCPServerConfig)
| NonArray.

Definition localStorage_getItem : M Page Item :=
  gets stored.

(** [if (!data) return []; return JSON.parse(data) as MCPServerConfig[]] *)
Definition parse_servers (data : Item) : M Page Parsed :=
  match data with
  | NoItem => ret (Servers [])
  | EmptyText => ret (Servers [])
  | Unparsable => throw (JsError "Unexpected token in JSON")
  | NotAnArray => ret NonArray
  | Stringified servers => ret (Servers servers)
  end.

(** [localStorage.setItem(STORAGE_KEY, JSON.stringify(servers))] *)
Definition localStorage_setItem (b : Browser) (servers : list MCPServerConfig)
  : M Page unit :=
  fun p =>
    match setItem_throws b (page_tick p) with
    | Some e =>
        (Throw e,
         {| stored := stored p; page_tick := S (page_tick p);
            page_errors := page_errors p |})
    | None =>
        (Normal tt,
         {| stored := Stringified servers; page_tick := S (page_tick p);
            page_errors := page_errors p |})
    end.

Definition page_console_error (msg : string) : M Page unit :=
  modify (fun p =>
    {| stored := stored p; page_tick := page_tick p;
       page_errors := page_errors p ++ [msg] |}).

Definition page_ask {A : Type} (q : nat -> A) : M Page A :=
  fun p =>
    (Normal (q (page_tick p)),
     {| stored := stored p; page_tick := S (page_tick p);
        page_errors := page_errors p |}).

(** [getServers()] *)
Definition getServers (b : Browser) : M Page Parsed :=
  if negb (window_defined b) then ret (Servers [])
  else
    try_catch
      (data <- localStorage_getItem ;;
       parse_servers data)
      (fun _ =>
         page_console_error "Failed to load MCP servers from localStorage:" ;;;
         ret (Servers [])).

(** [saveServers(servers)] *)
Definition saveServers (b : Browser) (servers : list MCPServerConfig)
  : M Page unit :=
  if negb (window_defined b) then ret tt
  else
    try_catch
      (localStorage_setItem b servers)
      (fun _ =>
         page_console_error "Failed to save MCP servers to localStorage:").

(** The array on which [servers.method(...)] works: a value that is not
    an array has no such method, and the call throws a [TypeError]. *)
Definition array_for (b : Browser) (method : string) (servers : Parsed)
  : M Page (list MCPServerConfig) :=
  match servers with
  | Servers array => ret array
  | NonArray => throw (JsError (TypeError_message b method))
  end.

(** [s.id === server.id] *)
Definition same_id (server s : MCPServerConfig) : bool :=
  String.eqb (id s) (id server).

(** [addServer(server)] *)
Definition addServer (b : Browser) (server : MCPServerConfig)
  : M Page (list MCPServerConfig) :=
  servers <- getServers b ;;
  servers <- array_for b "some" servers ;;
  let exists_ := existsb (same_id server) servers in
  if exists_ then
    throw (JsError
      ("Server with id " ++ DQ ++ id server ++ DQ ++ " already exists"))
  else
    let updated := (servers ++ [server])%list in
    saveServers b updated ;;;
    ret updated.

(** [xs.findIndex(f)]; [None] is -1. *)
Fixpoint findIndex {A : Type} (f : A -> bool) (xs : list A) : option nat :=
  match xs with
  | [] => None
  | x :: rest =>
      if f x then Some 0
      else match findIndex f rest with
           | Some i => Some (S i)
           | None => None
           end
  end.

(** [xs[index] = x]. At [index = xs.length] the array grows by [x];
    beyond, JavaScript leaves holes, which a list cannot hold: the
    element is put at the end. [updateServer] stays below the length. *)
Fixpoint assign {A : Type} (index : nat) (x : A) (xs : list A) : list A :=
  match xs, index with
  | [], _ => [x]
  | _ :: rest, O => x :: rest
  | y :: rest, S i => y :: assign i x rest
  end.

(** [updateServer(server)] *)
Definition updateServer (b : Browser) (server : MCPServerConfig)
  : M Page (list MCPServerConfig) :=
  servers <- getServers b ;;
  servers <- array_for b "findIndex" servers ;;
  match findIndex (same_id server) servers with
  | None =>
      throw (JsError
        ("Server with id " ++ DQ ++ id server ++ DQ ++ " not found"))
  | Some index =>
      let servers := assign index server servers in
      saveServers b servers ;;;
      ret servers
  end.

(** [removeServer(serverId)] *)
Definition removeServer (b : Browser) (serverId_ : string)
  : M Page (list MCPServerConfig) :=
  servers <- getServers b ;;
  servers <- array_for b "filter" servers ;;
  let updated := filter (fun s => negb (String.eqb (id s) serverId_)) servers in
  saveServers b updated ;;;
  ret updated.

(** [getServerById(serverId)]; [None] is [undefined]. *)
Definition getServerById (b : Browser) (serverId_ : string)
  : M Page (option MCPServerConfig) :=
  servers <- getServers b ;;
  servers <- array_for b "find" servers ;;
  ret (find (fun s => String.eqb (id s) serverId_) servers).

(** A configuration file as [importConfig] receives it, read from a file
    of the user, and as [exportConfig] makes it: [version] may be
    missing, [servers] may be something else than an array ([None]). *)
Record ExportedConfig : Type := {
  config_version : option string;
  config_servers : option (list MCPServerConfig);
  exportedAt : string
}.

(** [exportConfig()] *)
Definition exportConfig (b : Browser) : M Page ExportedConfig :=
  servers <- getServers b ;;
  now <- page_ask (toISOString_now b) ;;
  ret {| config_version := Some CONFIG_VERSION;
         config_servers :=
           match servers with
           | Servers array => Some array
           | NonArray => None
           end;
         exportedAt := now |}.

(** [new Set(xs).has(x)] *)
Definition Set_has (xs : list string) (x : string) : bool :=
  existsb (String.eqb x) xs.

Definition invalid_config : JsThrown := JsError "Invalid config format".

(** [importConfig(config, merge)] *)
Definition importConfig (b : Browser) (config : ExportedConfig) (merge : bool)
  : M Page (list MCPServerConfig) :=
  if negb (truthy_opt (config_version config)) then throw invalid_config
  else
    match config_servers config with
    | None => throw invalid_config
    | Some importedServers =>
        if merge then
          existingServers <- getServers b ;;
          existingServers <- array_for b "map" existingServers ;;
          let existingIds := map id existingServers in
          let newServers :=
            filter (fun s => negb (Set_has existingIds (id s)))
              importedServers in
          let merged := (existingServers ++ newServers)%list in
          saveServers b merged ;;;
          ret merged
        else
          saveServers b importedServers ;;;
          ret importedServers
    end.

(** [`mcp-${Date.now()}-${Math.random().toString(36).substring(2, 9)}`];
    the oracle gives the text of [Math.random().toString(36)]. *)
Definition generateServerId (b : Browser) : M Page string :=
  now <- page_ask (browser_Date_now b) ;;
  rnd <- page_ask (browser_random36 b) ;;
  ret ("mcp-" ++ string_of_nat now ++ "-" ++ substring 2 7 rnd).

(** * The routes of the client manager (src/app/api/mcp) *)

(** [NextResponse.json(body, { status })]; a response without [status]
    has 200. *)
Record Reply (B : Type) : Type := {
  http_status : nat;
  reply_body : B
}.

Definition json {B : Type} (body : B) (status_ : nat) : Reply B :=
  {| http_status := status_; reply_body := body |}.

(** [await request.json()] and [await params]: the promise, and the
    destructuring of what it gives, which throws when that is not an
    object; a field that is missing is [None]. *)
Definition request_json {A : Type} (request : Outcome A) : M Manager A :=
  match request with
  | Resolved body => ret body
  | Rejected e => throw e
  end.

(** The frame that the routes share: [try { ... } catch (error)
    { console.error(label, error); return 500 }]. *)
Definition guarded {B : Type} (label : string) (failure : string -> B)
  (body : M Manager (Reply B)) : M Manager (Reply B) :=
  try_catch body
    (fun error_ =>
       console_error label ;;;
       ret (json (failure (message_or "Internal server error" error_)) 500)).

Record ConnectResponse : Type := {
  connect_success : bool;
  connect_serverId : string;
  connect_error : option string
}.

(** [POST /api/mcp/connect] *)
Definition connect_POST (w : World) (request : Outcome (option MCPServerConfig))
  : M Manager (Reply ConnectResponse) :=
  guarded "MCP connect error:"
    (fun msg => {| connect_success := false; connect_serverId := "";
                   connect_error := Some msg |})
    (config_ <- request_json request ;;
     let invalid :=
       ret (json {| connect_success := false; connect_serverId := "";
                    connect_error := Some "Invalid server configuration" |}
              400) in
     match config_ with
     | None => invalid
     | Some config_ =>
         if negb (truthy (id config_)) || negb (truthy (transport config_))
         then invalid
         else
           stateRef <- connect w config_ ;;
           state_ <- read stateRef ;;
           if ConnectionStatus.eqb (status state_) ConnectionStatus.connected
           then ret (json {| connect_success := true;
                             connect_serverId := id config_;
                             connect_error := None |} 200)
           else ret (json {| connect_success := false;
                             connect_serverId := id config_;
                             connect_error :=
                               Some (or_else_opt (error state_)
                                       "Connection failed") |} 500)
     end).

(** The body of the routes that list: the list, or [{ error }]. *)
Inductive Listing (A : Type) : Type :=
| Listed (items : A)
| ListingError (error_ : string).
Arguments ListingError {A} error_.

(** [GET /api/mcp/connections] *)
Definition connections_GET : M Manager (Reply (Listing (list string))) :=
  guarded "MCP connections error:" ListingError
    (connectedServerIds <- getConnectedServerIds ;;
     ret (json (Listed connectedServerIds) 200)).

Record DisconnectResponse : Type := {
  disconnect_success : bool;
  disconnect_error : option string
}.

(** [POST /api/mcp/disconnect] *)
Definition disconnect_POST (w : World) (request : Outcome (option string))
  : M Manager (Reply DisconnectResponse) :=
  guarded "MCP disconnect error:"
    (fun msg => {| disconnect_success := false; disconnect_error := Some msg |})
    (serverId_ <- request_json request ;;
     if negb (truthy_opt serverId_)
     then ret (json {| disconnect_success := false;
                       disconnect_error := Some "Server ID is required" |}
                 400)
     else
       disconnect w (or_else_opt serverId_ "") ;;;
       ret (json {| disconnect_success := true; disconnect_error := None |}
              200)).

(** The body of the routes that execute. *)
Record ExecuteResponse (R : Type) : Type := {
  execute_success : bool;
  execute_result : option R;
  execute_error : option string
}.

Definition execute_failure {R : Type} (msg : string) : ExecuteResponse R :=
  {| execute_success := false; execute_result := None;
     execute_error := Some msg |}.

Definition execute_done {R : Type} (result : R) : ExecuteResponse R :=
  {| execute_success := true; execute_result := Some result;
     execute_error := None |}.

Record ExecuteToolRequest : Type := {
  tool_request_serverId : option string;
  tool_request_toolName : option string;
  tool_request_arguments : option Json
}.

(** [POST /api/mcp/execute/tool] *)
Definition tool_POST (w : World) (request : Outcome ExecuteToolRequest)
  : M Manager (Reply (ExecuteResponse CallToolResult)) :=
  guarded "MCP execute tool error:" execute_failure
    (body <- request_json request ;;
     if negb (truthy_opt (tool_request_serverId body))
        || negb (truthy_opt (tool_request_toolName body))
     then ret (json (execute_failure "Server ID and tool name are required")
                 400)
     else
       result <- callTool w (or_else_opt (tool_request_serverId body) "")
                   (or_else_opt (tool_request_toolName body) "")
                   (tool_request_arguments body) ;;
       ret (json (execute_done (raw result)) 200)).

Record GetPromptRequest : Type := {
  prompt_request_serverId : option string;
  prompt_request_promptName : option string;
  prompt_request_arguments : option (list (string * string))
}.

(** [POST /api/mcp/execute/prompt] *)
Definition prompt_POST (w : World) (request : Outcome GetPromptRequest)
  : M Manager (Reply (ExecuteResponse Json)) :=
  guarded "MCP get prompt error:" execute_failure
    (body <- request_json request ;;
     if negb (truthy_opt (prompt_request_serverId body))
        || negb (truthy_opt (prompt_request_promptName body))
     then ret (json (execute_failure "Server ID and prompt name are required")
                 400)
     else
       result <- getPrompt w (or_else_opt (prompt_request_serverId body) "")
                   (or_else_opt (prompt_request_promptName body) "")
                   (prompt_request_arguments body) ;;
       ret (json (execute_done result) 200)).

Record ReadResourceRequest : Type := {
  resource_request_serverId : option string;
  resource_request_uri : option string
}.

(** [POST /api/mcp/execute/resource] *)
Definition resource_POST (w : World) (request : Outcome ReadResourceRequest)
  : M Manager (Reply (ExecuteResponse Json)) :=
  guarded "MCP read resource error:" execute_failure
    (body <- request_json request ;;
     if negb (truthy_opt (resource_request_serverId body))
        || negb (truthy_opt (resource_request_uri body))
     then ret (json (execute_failure "Server ID and resource URI are required")
                 400)
     else
       result <- readResource w
                   (or_else_opt (resource_request_serverId body) "")
                   (or_else_opt (resource_request_uri body) "") ;;
       ret (json (execute_done result) 200)).

(** The routes with the server id in the path: the test of the id, then
    [answer]. *)
Definition with_serverId {A : Type} (label : string)
  (params : Outcome string) (answer : string -> M Manager A)
  : M Manager (Reply (Listing A)) :=
  guarded label ListingError
    (serverId_ <- request_json params ;;
     if negb (truthy serverId_)
     then ret (json (ListingError "Server ID is required") 400)
     else
       items <- answer serverId_ ;;
       ret (json (Listed items) 200)).

(** [GET /api/mcp/status/[serverId]]: the four fields of the state. *)
Definition status_GET (params : Outcome string)
  : M Manager (Reply (Listing ServerConnectionState)) :=
  with_serverId "MCP status error:" params
    (fun serverId_ =>
       stateRef <- getConnectionState serverId_ ;;
       state_ <- read stateRef ;;
       ret {| serverId := serverId state_; status := status state_;
              error := error state_; connectedAt := connectedAt state_ |}).

(** [GET /api/mcp/tools/[serverId]] *)
Definition tools_GET (w : World) (params : Outcome string)
  : M Manager (Reply (Listing (list MCPTool))) :=
  with_serverId "MCP list tools error:" params (listTools w).

(** [GET /api/mcp/prompts/[serverId]] *)
Definition prompts_GET (w : World) (params : Outcome string)
  : M Manager (Reply (Listing (list MCPPrompt))) :=
  with_serverId "MCP list prompts error:" params (listPrompts w).

(** [GET /api/mcp/resources/[serverId]] *)
Definition resources_GET (w : World) (params : Outcome string)
  : M Manager (Reply (Listing (list MCPResource))) :=
  with_serverId "MCP list resources error:" params (listResources w).

(** * The chat route before the stream (src/app/api/chat/route.ts) *)

(** [j.key]; [None] is [undefined]. *)
Definition Json_field (key : string) (j : Json) : option Json :=
  match j with
  | JObj fields => JSMap.get key fields
  | _ => None
  end.

(** [j.key || fallback] *)
Definition Json_field_or (key : string) (j fallback : Json) : Json :=
  match Json_field key j with
  | Some v => if Json_truthy v then v else fallback
  | None => fallback
  end.

Record FunctionDeclaration : Type := {
  declaration_name : string;
  declaration_description : string;
  parametersJsonSchema : Json
}.

(** [convertMCPToolToGemini(tool)] *)
Definition convertMCPToolToGemini (tool : MCPTool) : FunctionDeclaration :=
  let schema := inputSchema tool in
  {| declaration_name := tool_name tool;
     declaration_description :=
       or_else_opt (tool_description tool) ("Tool: " ++ tool_name tool);
     parametersJsonSchema :=
       match schema with
       | Some schema =>
           if Json_truthy schema
           then JObj [("type", JStr "object");
                      ("properties",
                       Json_field_or "properties" schema (JObj []));
                      ("required", Json_field_or "required" schema (JArr []))]
           else JObj [("type", JStr "object"); ("properties", JObj [])]
       | None => JObj [("type", JStr "object"); ("properties", JObj [])]
       end |}.

(** The longest prefix of [s] without the character [c], and the rest. *)
Fixpoint span_not (c : ascii) (s : string) : string * string :=
  match s with
  | EmptyString => (EmptyString, EmptyString)
  | String a s' =>
      if Ascii.eqb a c then (EmptyString, s)
      else let (before, rest) := span_not c s' in (String a before, rest)
  end.

(** The carriage return. *)
Definition CR : ascii := ascii_of_nat 13.

(** What [.] of a regular expression matches: every character of [s]
    is one, when [s] has no line terminator. Of the four line terminators
    the one-byte characters have the line feed and the carriage return. *)
Definition no_line_terminator (s : string) : bool :=
  lacks (ascii_of_nat 10) s && lacks CR s.

(** [url.match(/^data:([^;]+);base64,(.+)$/)]: the two groups, or [None]
    for [null]. The first group cannot hold a semicolon, so it ends at
    the first one. *)
Definition match_data_url (url_ : string) : option (string * string) :=
  if prefix "data:" url_ then
    let (mimeType, rest) := span_not ";" (drop 5 url_) in
    if truthy mimeType && prefix ";base64," rest then
      let data_ := drop 8 rest in
      if truthy data_ && no_line_terminator data_
      then Some (mimeType, data_)
      else None
    else None
  else None.

(** The loop over the images of a message: the part of every image whose
    url is a data URL. *)
Fixpoint inline_parts (imgs : list MessageImage) : list Part :=
  match imgs with
  | [] => []
  | img :: rest =>
      match match_data_url (message_image_url img) with
      | Some (mimeType, data_) => InlineData mimeType data_ :: inline_parts rest
      | None => inline_parts rest
      end
  end.

(** The parts of a message: its text when it has one, then its images;
    the empty text when there is nothing. *)
Definition message_parts (msg : ChatMessage) : list Part :=
  let parts :=
    ((if truthy (message_content msg)
      then [TextPart (message_content msg)] else []) ++
     match message_images msg with
     | Some imgs => inline_parts imgs
     | None => []
     end)%list in
  if nonempty parts then parts else [TextPart ""].

(** An entry of [history]. *)
Record Content : Type := {
  content_role : string;
  content_parts : list Part
}.

Definition history_entry (msg : ChatMessage) : Content :=
  {| content_role := if String.eqb (role msg) "user" then "user" else "model";
     content_parts := message_parts msg |}.

Record ChatRequestBody : Type := {
  body_messages : option (list ChatMessage);
  body_sessionId : option string;
  body_messageId : option string
}.

(** How [POST] goes on after its first part: with a JSON response, or
    with the stream, for which it has the declarations of the functions,
    the history and what [start] closes over. *)
Inductive Prelude : Type :=
| Refused (status_ : nat) (error_ : string)
| Streaming (functionDeclarations : list FunctionDeclaration)
    (history : list Content) (ctx : StreamContext).

(** [POST(request)] up to [new ReadableStream]. [messages] is [None]
    when the field is missing or not an array; [apiKey] is
    [process.env.GEMINI_API_KEY]. *)
Definition POST_prelude (w : World) (apiKey : option string)
  (request : Outcome ChatRequestBody) : M Manager Prelude :=
  try_catch
    (body <- request_json request ;;
     match body_messages body with
     | None => ret (Refused 400 "Messages array is required")
     | Some [] => ret (Refused 400 "Messages array is required")
     | Some (first :: rest) =>
         let messages := first :: rest in
         if negb (truthy_opt apiKey)
         then ret (Refused 500 "GEMINI_API_KEY is not configured")
         else
           collected <- collectTools w ;;
           let functionDeclarations :=
             map (fun entry => convertMCPToolToGemini (entry_tool entry))
               (fst collected) in
           let history := map history_entry (removelast messages) in
           let lastMessage_ := last messages first in
           if negb (String.eqb (role lastMessage_) "user")
           then ret (Refused 400 "Last message must be from user")
           else
             ret (Streaming functionDeclarations history
                    {| toolServerMap := snd collected;
                       lastMessage := lastMessage_;
                       lastMessageParts := message_parts lastMessage_;
                       sessionId := body_sessionId body;
                       messageId := body_messageId body |})
     end)
    (fun error_ =>
       console_error "Chat API error:" ;;;
       ret (Refused 500 (message_or "Internal server error" error_))).

(** What the client of the route receives: a JSON response with its
    status and its [error], or the event stream, here with all the
    frames that [start] puts on it and whether it was closed. *)
Inductive ChatReply : Type :=
| JsonError (status_ : nat) (error_ : string)
| EventStream (frames : list SSEFrame) (closed_ : bool).

(** [POST(request)]. [None] when [start] does not come to an end within
    [fuel] rounds. *)
Definition POST (fuel : nat) (cw : ChatWorld) (apiKey : option string)
  (request : Outcome ChatRequestBody) : M Manager (option ChatReply) :=
  prelude <- POST_prelude (world cw) apiKey request ;;
  match prelude with
  | Refused status_ error_ => ret (Some (JsonError status_ error_))
  | Streaming _ _ ctx =>
      fun m =>
        let (completion, t) := start fuel cw ctx (new_turn m) in
        (Normal match completion with
                | Diverge => None
                | _ => Some (EventStream (queue t) (closed t))
                end,
         manager t)
  end.

(** * The image store (src/lib, image storage) *)

Definition BUCKET_NAME : string := "image_store".

(** A row of [message_images] as the insert returns it. *)
Record ImageMetadata : Type := {
  metadata_id : string;
  metadata_messageId : string;
  metadata_storagePath : string;
  metadata_originalFilename : option string;
  metadata_mimeType : string;
  metadata_sizeBytes : option nat;
  metadata_createdAt : string
}.

(** What is asked of the store, in order, and what is logged. *)
Inductive StoreEvent : Type :=
| StoreUpload (storagePath binaryData contentType : string)
| StoreInsert (messageId_ storagePath : string)
    (originalFilename : option string) (mimeType : string) (sizeBytes : nat)
| StoreSelect (messageId_ : string)
| StoreRemove (paths : list string)
| StoreConsoleError (label : string).

(** The answers of Supabase, by tick. An upload and a removal answer
    with their [error], if any; an insert and a selection with [error]
    ([inl]) or [data]. A promise that rejects stands also for a client
    that throws. *)
Record Supabase : Type := {
  storage_upload : nat -> string -> string -> string -> Outcome (option string);
  storage_getPublicUrl : string -> string;
  storage_remove : nat -> list string -> Outcome (option string);
  images_insert :
    nat -> string -> string -> option string -> string -> nat ->
    Outcome (string + ImageMetadata);
  images_select : nat -> string -> Outcome (string + list ImageMetadata);
  supabase_Date_now : nat -> nat
}.

Record Store : Type := {
  store_tick : nat;
  store_events : list StoreEvent
}.

Definition store_emit (e : StoreEvent) : M Store unit :=
  modify (fun s =>
    {| store_tick := store_tick s;
       store_events := store_events s ++ [e] |}).

Definition store_ask {A : Type} (q : nat -> A) : M Store A :=
  fun s =>
    (Normal (q (store_tick s)),
     {| store_tick := S (store_tick s); store_events := store_events s |}).

Definition store_await {A : Type} (q : nat -> Outcome A) : M Store A :=
  o <- store_ask q ;;
  match o with
  | Resolved a => ret a
  | Rejected e => throw e
  end.

(** A character that [\w] matches. *)
Definition is_word_char (a : ascii) : bool :=
  let n := nat_of_ascii a in
  (Nat.leb 48 n && Nat.leb n 57) || (Nat.leb 65 n && Nat.leb n 90)
  || (Nat.leb 97 n && Nat.leb n 122) || Nat.eqb n 95.

(** The longest prefix of [s] of such characters, and the rest. *)
Fixpoint span_word (s : string) : string * string :=
  match s with
  | EmptyString => (EmptyString, EmptyString)
  | String a s' =>
      if is_word_char a
      then let (before, rest) := span_word s' in (String a before, rest)
      else (EmptyString, s)
  end.

(** [base64Data.replace(/^data:image\/\w+;base64,/, '')]: the semicolon
    is no word character, so the word ends where its characters end. *)
Definition base64Clean (base64Data : string) : string :=
  if prefix "data:image/" base64Data then
    let (word, rest) := span_word (drop 11 base64Data) in
    if truthy word && prefix ";base64," rest then drop 8 rest
    else base64Data
  else base64Data.

Record UploadOptions : Type := {
  option_filename : option string;
  option_mimeType : option string
}.

Record UploadImageResult : Type := {
  upload_success : bool;
  upload_storagePath : option string;
  upload_publicUrl : option string;
  upload_error : option string
}.

(** [uploadImageToStorage(base64Data, sessionId, messageId, options)] *)
Definition uploadImageToStorage (sb : Supabase)
  (base64Data sessionId_ messageId_ : string) (options : UploadOptions)
  : M Store UploadImageResult :=
  try_catch
    (let mimeType := or_else_opt (option_mimeType options) "image/png" in
     let extension_ := extension mimeType in
     timestamp <- store_ask (supabase_Date_now sb) ;;
     let filename :=
       or_else_opt (option_filename options)
         ("image_" ++ string_of_nat timestamp ++ "." ++ extension_) in
     let storagePath := sessionId_ ++ "/" ++ messageId_ ++ "/" ++ filename in
     let binaryData := base64Clean base64Data in
     store_emit (StoreUpload storagePath binaryData mimeType) ;;;
     uploadError <-
       store_await (fun t =>
         storage_upload sb t storagePath binaryData mimeType) ;;
     match uploadError with
     | Some message =>
         store_emit (StoreConsoleError "Storage upload error:") ;;;
         ret {| upload_success := false; upload_storagePath := None;
                upload_publicUrl := None; upload_error := Some message |}
     | None =>
         ret {| upload_success := true;
                upload_storagePath := Some storagePath;
                upload_publicUrl :=
                  Some (storage_getPublicUrl sb storagePath);
                upload_error := None |}
     end)
    (fun error_ =>
       store_emit (StoreConsoleError "Upload image error:") ;;;
       ret {| upload_success := false; upload_storagePath := None;
              upload_publicUrl := None;
              upload_error :=
                Some (message_or "Failed to upload image" error_) |}).

(** [saveImageMetadata(messageId, storagePath, options)]; [None] is
    [null]. *)
Definition saveImageMetadata (sb : Supabase) (messageId_ storagePath : string)
  (originalFilename mimeType : option string) (sizeBytes : nat)
  : M Store (option ImageMetadata) :=
  try_catch
    (let mime := or_else_opt mimeType "image/png" in
     store_emit
       (StoreInsert messageId_ storagePath originalFilename mime sizeBytes) ;;;
     answer <-
       store_await (fun t =>
         images_insert sb t messageId_ storagePath originalFilename mime
           sizeBytes) ;;
     match answer with
     | inl _ =>
         store_emit (StoreConsoleError "Save image metadata error:") ;;;
         ret None
     | inr row => ret (Some row)
     end)
    (fun _ =>
       store_emit (StoreConsoleError "Save image metadata error:") ;;;
       ret None).

(** [Math.ceil((n * 3) / 4)] *)
Definition ceil_three_quarters (n : nat) : nat :=
  (n * 3 + 3) / 4.

(** [uploadAndSaveImage(base64Data, sessionId, messageId, options)] *)
Definition uploadAndSaveImage_impl (sb : Supabase)
  (base64Data sessionId_ messageId_ : string) (options : UploadOptions)
  : M Store (option (string * ImageMetadata)) :=
  uploadResult <-
    uploadImageToStorage sb base64Data sessionId_ messageId_ options ;;
  if negb (upload_success uploadResult)
     || negb (truthy_opt (upload_storagePath uploadResult))
  then
    store_emit (StoreConsoleError "Upload failed:") ;;;
    ret None
  else
    let sizeBytes :=
      ceil_three_quarters (String.length (base64Clean base64Data)) in
    metadata <-
      saveImageMetadata sb messageId_
        (or_else_opt (upload_storagePath uploadResult) "")
        (option_filename options)
        (Some (or_else_opt (option_mimeType options) "image/png"))
        sizeBytes ;;
    match metadata with
    | None =>
        store_emit (StoreConsoleError "Failed to save image metadata") ;;;
        ret None
    | Some metadata =>
        ret (Some (or_else_opt (upload_publicUrl uploadResult) "", metadata))
    end.

(** [getMessageImages(messageId)] *)
Definition getMessageImages (sb : Supabase) (messageId_ : string)
  : M Store (list ImageMetadata) :=
  try_catch
    (store_emit (StoreSelect messageId_) ;;;
     answer <- store_await (fun t => images_select sb t messageId_) ;;
     match answer with
     | inl _ =>
         store_emit (StoreConsoleError "Get message images error:") ;;;
         ret []
     | inr rows => ret rows
     end)
    (fun _ =>
       store_emit (StoreConsoleError "Get message images error:") ;;;
       ret []).

(** [deleteMessageImages(messageId)] *)
Definition deleteMessageImages (sb : Supabase) (messageId_ : string)
  : M Store unit :=
  try_catch
    (imgs <- getMessageImages sb messageId_ ;;
     match imgs with
     | [] => ret tt
     | _ :: _ =>
         let paths := map metadata_storagePath imgs in
         store_emit (StoreRemove paths) ;;;
         removeError <- store_await (fun t => storage_remove sb t paths) ;;
         match removeError with
         | Some _ => store_emit (StoreConsoleError "Delete storage files error:")
         | None => ret tt
         end
     end)
    (fun _ => store_emit (StoreConsoleError "Delete message images error:")).

(** ** Vocabulary of the properties *)

(** The server [s] has an instance whose state says connected. *)
Definition connected_instance (m : Manager) (s : string) (inst : ClientInstance)
  : Prop :=
  JSMap.get s (clients m) = Some inst /\
  status (cells m (state inst)) = ConnectionStatus.connected.

Definition has_connected (m : Manager) (s : string) : Prop :=
  exists inst, connected_instance m s inst.

(** The public operations of the manager. *)
Inductive Operation : Type :=
| OpConnect (config : MCPServerConfig)
| OpDisconnect (serverId : string)
| OpGetConnectionState (serverId : string)
| OpGetClient (serverId : string)
| OpListTools (serverId : string)
| OpListPrompts (serverId : string)
| OpListResources (serverId : string)
| OpCallTool (serverId toolName : string) (args : option Json)
| OpGetPrompt (serverId promptName : string)
    (args : option (list (string * string)))
| OpReadResource (serverId uri : string)
| OpGetConnectedServerIds
| OpDisconnectAll.

(** The manager after an operation, however the operation ends. *)
Definition perform (w : World) (op : Operation) (m : Manager) : Manager :=
  match op with
  | OpConnect config => snd (connect w config m)
  | OpDisconnect s => snd (disconnect w s m)
  | OpGetConnectionState s => snd (getConnectionState s m)
  | OpGetClient s => snd (getClient s m)
  | OpListTools s => snd (listTools w s m)
  | OpListPrompts s => snd (listPrompts w s m)
  | OpListResources s => snd (listResources w s m)
  | OpCallTool s toolName args => snd (callTool w s toolName args m)
  | OpGetPrompt s promptName args => snd (getPrompt w s promptName args m)
  | OpReadResource s uri => snd (readResource w s uri m)
  | OpGetConnectedServerIds => snd (getConnectedServerIds m)
  | OpDisconnectAll => snd (disconnectAll w m)
  end.

(** The managers that the operations produce from the initial one, in any
    world. *)
Inductive reachable : Manager -> Prop :=
| reachable_new : reachable new_manager
| reachable_perform (w : World) (op : Operation) (m : Manager) :
    reachable m -> reachable (perform w op m).

(** Every instance in the map has an allocated state object of its own
    server that says connected and carries the time of the connection. *)
Definition registry_ok (m : Manager) : Prop :=
  forall k inst, JSMap.get k (clients m) = Some inst ->
    state inst < next m /\
    status (cells m (state inst)) = ConnectionStatus.connected /\
    (exists t, connectedAt (cells m (state inst)) = Some t) /\
    serverId (cells m (state inst)) = k.

(** The message of [createTransport] about the missing parameter. *)
Definition missing_message (config : MCPServerConfig) : string :=
  if String.eqb (transport config) "stdio"
  then "STDIO transport requires a command"
  else if String.eqb (transport config) "streamable-http"
       then "Streamable HTTP transport requires a URL"
       else "SSE transport requires a URL".

(** The state object behind [r] reports a connection, with its time. *)
Definition reports_connected (m : Manager) (r : StateRef) : Prop :=
  status (cells m r) = ConnectionStatus.connected /\
  exists t, connectedAt (cells m r) = Some t.

(** The state object behind [r] reports the error [msg]. *)
Definition reports_error (m : Manager) (r : StateRef) (msg : string) : Prop :=
  status (cells m r) = ConnectionStatus.error /\
  error (cells m r) = Some msg.

(** The completion of awaiting a promise that settles to [o]. *)
Definition completion_of {A : Type} (o : Outcome A) : Completion A :=
  match o with
  | Resolved a => Normal a
  | Rejected e => Throw e
  end.

(** The handshake of the client of [config] succeeds at some tick. *)
Definition handshake_succeeded (w : World) (config : MCPServerConfig) : Prop :=
  exists tk tr,
    client_connect w tk
      {| client_name := "mcp-client-" ++ id config;
         client_version := "1.0.0" |} tr = Resolved tt.

(** [m'] has the state objects of [m], unchanged, and maybe more. *)
Definition extends (m m' : Manager) : Prop :=
  next m <= next m' /\
  forall r, r < next m -> cells m' r = cells m r.

(** The effects that [m'] has after those of [m]. *)
Definition new_effects (m m' : Manager) : list Effect :=
  skipn (List.length (trace m)) (trace m').

(** The three transports that [createTransport] knows. *)
Definition supported_transport (config : MCPServerConfig) : bool :=
  String.eqb (transport config) "stdio"
  || String.eqb (transport config) "streamable-http"
  || String.eqb (transport config) "sse".

(** The parameter that the transport of [config] needs is missing. *)
Definition missing_parameter (config : MCPServerConfig) : bool :=
  if String.eqb (transport config) "stdio"
  then negb (truthy_opt (command config))
  else supported_transport config && negb (truthy_opt (url config)).

(** The operations that only talk to a server leave map and heap alone. *)
Definition same_store (m m' : Manager) : Prop :=
  clients m' = clients m /\ cells m' = cells m /\ next m' = next m.

(** The texts of the text blocks, in order. *)
Fixpoint texts_of (items : list ContentItem) : list string :=
  match items with
  | [] => []
  | TextContent text :: rest => text :: texts_of rest
  | _ :: rest => texts_of rest
  end.

(** The image blocks, in order, each as its data and its mime type. *)
Fixpoint binaries_of (items : list ContentItem) : list Image :=
  match items with
  | [] => []
  | ImageContent data mimeType :: rest =>
      {| image_data := data; image_mimeType := mimeType |} :: binaries_of rest
  | _ :: rest => binaries_of rest
  end.

(** The rule of the specification for [textContent]: all text blocks, in
    order, separated by a newline. *)
Definition spec_textContent (items : list ContentItem) : string :=
  join LF (texts_of items).

(** The rule of the specification for [binaryItems]. *)
Definition spec_binaryItems (items : list ContentItem) : list Image :=
  binaries_of items.

(** A list of strings without the empty strings at its head. *)
Fixpoint drop_leading_empty (texts : list string) : list string :=
  match texts with
  | [] => []
  | text :: rest => if truthy text then texts else drop_leading_empty rest
  end.

(** [mimeType || 'image/png'] on an image. *)
Definition with_default_mimeType (img : Image) : Image :=
  {| image_data := image_data img;
     image_mimeType := or_else (image_mimeType img) "image/png" |}.

(** [t'] differs from [t] in the manager only. *)
Definition same_stream (t t' : Turn) : Prop :=
  queue t' = queue t /\ closed t' = closed t /\ sent t' = sent t /\
  conversationParts t' = conversationParts t.

Definition tool_call_start_frame (id serverId serverName name : string)
  (arguments : Json) : SSEFrame :=
  {| event := "tool_call_start";
     data := ToolCallStartEvent id serverId serverName name arguments |}.

Definition tool_call_result_frame (id : string)
  (result : option CallToolResult) (error : option string)
  (images : option (list UploadedImage)) : SSEFrame :=
  {| event := "tool_call_result";
     data := ToolCallResultEvent id result error images |}.

Definition text_frame (content : string) : SSEFrame :=
  {| event := "text"; data := TextEvent content |}.

Definition error_frame (message : string) : SSEFrame :=
  {| event := "error"; data := ErrorEvent message |}.

Definition done_frame : SSEFrame :=
  {| event := "done"; data := DoneEvent |}.

(** Frames of tool calls: for each call, its start and right after it its
    result, with the same id. *)
Inductive tool_frames : list SSEFrame -> Prop :=
| tool_frames_nil : tool_frames []
| tool_frames_call (id serverId serverName name : string) (arguments : Json)
    (result : option CallToolResult) (error : option string)
    (images : option (list UploadedImage)) (rest : list SSEFrame) :
    tool_frames rest ->
    tool_frames
      (tool_call_start_frame id serverId serverName name arguments
       :: tool_call_result_frame id result error images :: rest).

(** The frame of the final text, which is sent only if it is not empty. *)
Definition text_frames (text : string) : list SSEFrame :=
  if truthy text then [text_frame text] else [].

(** A computation that touches the manager only, and ends. *)
Definition quiet {A : Type} (c : M Turn A) : Prop :=
  forall t, same_stream t (snd (c t)) /\ fst (c t) <> Diverge.

(** [t] with one more frame in the queue. *)
Definition enqueued (frame : SSEFrame) (t : Turn) : Turn :=
  {| manager := manager t; queue := queue t ++ [frame]; closed := closed t;
     sent := sent t; conversationParts := conversationParts t |}.

(** [response] of the entry of [functionResults] after a tool has run. *)
Definition response_of (result : ToolOutput) (uploadedImages : list UploadedImage)
  : FunctionResponse :=
  let responseContent :=
    output_content result ++
    (if nonempty uploadedImages
     then LF ++ LF ++ "[Images generated: " ++
          join ", " (map uploaded_url uploadedImages) ++ "]"
     else "") in
  if truthy responseContent then ResponseText responseContent
  else ResponseRaw (raw result).

(** In the queue [q], every result of a tool call comes after a start with
    the same id. *)
Definition starts_before_results (q : list SSEFrame) : Prop :=
  forall i id result error images,
    nth_error q i = Some (tool_call_result_frame id result error images) ->
    exists j serverId serverName name arguments,
      j < i /\
      nth_error q j =
        Some (tool_call_start_frame id serverId serverName name arguments).

(** The chat object can be created. *)
Definition chat_created (cw : ChatWorld) : Prop :=
  forall tk, chats_create cw tk = Resolved tt.

(** The model answers message number [round] with the function calls
    [calls]. *)
Definition model_requests (cw : ChatWorld) (round : nat)
  (calls : list FunctionCall) : Prop :=
  forall tk message, exists text,
    chat_sendMessage cw round tk message =
      Resolved {| functionCalls := Some calls; response_text := text |}.

(** The model answers message number [round] with the text [text] and no
    function call. *)
Definition model_replies_text (cw : ChatWorld) (round : nat) (text : string)
  : Prop :=
  forall tk message, exists resp,
    chat_sendMessage cw round tk message = Resolved resp /\
    (functionCalls resp = None \/ functionCalls resp = Some []) /\
    or_else_opt (response_text resp) "" = text.

(** The call of the model for message number [round] throws [e]. *)
Definition model_throws (cw : ChatWorld) (round : nat) (e : JsThrown) : Prop :=
  forall tk message, chat_sendMessage cw round tk message = Rejected e.

(** Some call of the model throws [e]. *)
Definition model_rejected (cw : ChatWorld) (e : JsThrown) : Prop :=
  (exists tk, chats_create cw tk = Rejected e) \/
  (exists round tk message,
     chat_sendMessage cw round tk message = Rejected e).

(** The message that a round of the loop sends to the model. *)
Definition next_message (ctx : StreamContext) (isFirstMessage : bool)
  (pendingFunctionResults : string) : MessageParam :=
  if isFirstMessage then
    match message_images (lastMessage ctx) with
    | Some (_ :: _) => MessageParts (lastMessageParts ctx)
    | _ => MessageText (or_else (message_content (lastMessage ctx)) "")
    end
  else MessageText (or_else pendingFunctionResults "").

(** [t] after one consultation of the world. *)
Definition ticked (t : Turn) : Turn :=
  {| manager :=
       {| clients := clients (manager t); cells := cells (manager t);
          next := next (manager t); tick := S (tick (manager t));
          trace := trace (manager t) |};
     queue := queue t; closed := closed t; sent := sent t;
     conversationParts := conversationParts t |}.

(** The number of frames of the event [ev] in the queue [q]. *)
Definition count_event (ev : string) (q : list SSEFrame) : nat :=
  List.length (filter (fun f => String.eqb (event f) ev) q).

(** In rounds [0] to [k - 1] the model asks for tools. *)
Definition tool_rounds (cw : ChatWorld) (k : nat) : Prop :=
  forall round, round < k ->
    exists call rest, model_requests cw round (call :: rest).

(** Every name in the map of the tools is the id of its server, the
    separator and a tool name; every tool offered to the model has such a
    name, and the name is in the map. *)
Definition names_sound (acc : list ToolEntry * JSMap.t ServerInfo) : Prop :=
  (forall key info, JSMap.get key (snd acc) = Some info ->
     exists toolName, key = prefixedName (info_serverId info) toolName) /\
  (forall entry, In entry (fst acc) ->
     exists toolName,
       tool_name (entry_tool entry) =
         prefixedName (entry_serverId entry) toolName /\
       JSMap.get (tool_name (entry_tool entry)) (snd acc) <> None).

(** ** Concrete worlds and configurations, for the examples *)

Module Sample.

(** A world in which every promise resolves with nothing in it. *)
Definition quiet : World :=
  {| Date_now := fun t => 1000 + t;
     new_URL := fun s => Resolved s;
     client_connect := fun _ _ _ => Resolved tt;
     client_close := fun _ _ => Resolved tt;
     client_listTools := fun _ _ => Resolved [];
     client_listPrompts := fun _ _ => Resolved [];
     client_listResources := fun _ _ => Resolved [];
     client_callTool := fun _ _ _ _ =>
       Resolved {| content := Some []; isError := None |};
     client_getPrompt := fun _ _ _ _ => Resolved JNull;
     client_readResource := fun _ _ _ => Resolved JNull |}.

Definition stdio_config (i : string) : MCPServerConfig :=
  {| id := i; name := "server"; transport := "stdio";
     command := Some "node"; args := None; env := None; url := None |}.

(** The same world, with every tool call rejected with [e]. *)
Definition failing (e : JsThrown) : World :=
  {| Date_now := Date_now quiet;
     new_URL := new_URL quiet;
     client_connect := client_connect quiet;
     client_close := client_close quiet;
     client_listTools := client_listTools quiet;
     client_listPrompts := client_listPrompts quiet;
     client_listResources := client_listResources quiet;
     client_callTool := fun _ _ _ _ => Rejected e;
     client_getPrompt := client_getPrompt quiet;
     client_readResource := client_readResource quiet |}.

(** A model that gives the answer [replies round] to message number
    [round], over the world [w]. *)
Definition chat (w : World)
  (replies : nat -> Outcome GenerateContentResponse) : ChatWorld :=
  {| world := w;
     chats_create := fun _ => Resolved tt;
     chat_sendMessage := fun round _ _ => replies round;
     Math_random36 := fun _ => "k3j9x2m1q";
     uploadAndSaveImage := fun _ _ _ _ _ _ => Resolved None |}.

Definition echo_call : FunctionCall :=
  {| call_name := Some "a__echo"; call_args := None |}.

Definition asks_echo : GenerateContentResponse :=
  {| functionCalls := Some [echo_call]; response_text := None |}.

Definition says (text : string) : GenerateContentResponse :=
  {| functionCalls := None; response_text := Some text |}.

(** One tool call in the first round, then [text]. *)
Definition one_call_then (text : string) (round : nat)
  : Outcome GenerateContentResponse :=
  match round with
  | 0 => Resolved asks_echo
  | _ => Resolved (says text)
  end.

(** One tool call in the first round, then the exception [e]. *)
Definition one_call_then_throw (e : JsThrown) (round : nat)
  : Outcome GenerateContentResponse :=
  match round with
  | 0 => Resolved asks_echo
  | _ => Rejected e
  end.

(** The manager after the server [a] has been connected. *)
Definition manager_a : Manager :=
  snd (connect quiet (stdio_config "a") new_manager).

(** The instance of [a] in that manager. *)
Definition instance_a : ClientInstance :=
  {| client := {| client_name := "mcp-client-a";
                  client_version := "1.0.0" |};
     instance_transport := StdioClientTransport "node" [] None;
     config := stdio_config "a";
     state := 0 |}.

(** The context of a turn in which the tool [echo] of [a] is known. *)
Definition context : StreamContext :=
  {| toolServerMap :=
       JSMap.set "a__echo"
         {| info_serverId := "a"; info_serverName := "a" |} JSMap.empty;
     lastMessage := {| role := "user"; message_content := "hello";
                       message_images := None |};
     lastMessageParts := [TextPart "hello"];
     sessionId := None;
     messageId := None |}.

Definition tool (n : string) : MCPTool :=
  {| tool_name := n; tool_description := None; inputSchema := None |}.

(** A world with the servers [a], which has the tool [_c], and [a_],
    which has the tool [c]. *)
Definition twins : World :=
  {| Date_now := Date_now quiet;
     new_URL := new_URL quiet;
     client_connect := client_connect quiet;
     client_close := client_close quiet;
     client_listTools := fun _ c =>
       if String.eqb (client_name c) "mcp-client-a"
       then Resolved [tool "_c"]
       else Resolved [tool "c"];
     client_listPrompts := client_listPrompts quiet;
     client_listResources := client_listResources quiet;
     client_callTool := client_callTool quiet;
     client_getPrompt := client_getPrompt quiet;
     client_readResource := client_readResource quiet |}.

(** The manager after [a], then [a_], have been connected. *)
Definition manager_twins : Manager :=
  snd (connect twins (stdio_config "a_")
         (snd (connect twins (stdio_config "a") new_manager))).

End Sample.


(** ** Vocabulary of the further properties *)

(** The clients that the effects [l] close, in order. *)
Fixpoint closes (l : list Effect) : list Client :=
  match l with
  | [] => []
  | EvClientClose c :: rest => c :: closes rest
  | _ :: rest => closes rest
  end.

(** The configuration can be turned into a transport: the transport is
    one of the three, its parameter is there, and the URL, if it needs
    one, is accepted. *)
Definition usable (w : World) (config : MCPServerConfig) : bool :=
  supported_transport config && negb (missing_parameter config) &&
  (String.eqb (transport config) "stdio" ||
   match new_URL w (or_else_opt (url config) "") with
   | Resolved _ => true
   | Rejected _ => false
   end).

(** The kind of a transport, as [config.transport] names it. *)
Definition transport_kind (t : Transport) : string :=
  match t with
  | StdioClientTransport _ _ _ => "stdio"
  | StreamableHTTPClientTransport _ => "streamable-http"
  | SSEClientTransport _ => "sse"
  end.

(** A computation of a turn that leaves map and state objects of the
    manager alone. *)
Definition keeps_registry {A : Type} (c : M Turn A) : Prop :=
  forall t, same_store (manager t) (manager (snd (c t))).

(** [xs] is [ys] without some of its elements, in the same order. *)
Inductive subsequence {A : Type} : list A -> list A -> Prop :=
| subsequence_nil : subsequence [] []
| subsequence_skip (y : A) (xs ys : list A) :
    subsequence xs ys -> subsequence xs (y :: ys)
| subsequence_keep (x : A) (xs ys : list A) :
    subsequence xs ys -> subsequence (x :: xs) (x :: ys).

(** Every tool collected so far, and every name in the map, belongs to a
    server that has a connected instance in [m]. *)
Definition from_connected (m : Manager)
  (acc : list ToolEntry * JSMap.t ServerInfo) : Prop :=
  (forall entry, In entry (fst acc) -> has_connected m (entry_serverId entry))
  /\
  (forall key info, JSMap.get key (snd acc) = Some info ->
     has_connected m (info_serverId info)).

(** ** Vocabulary of the stored list of servers *)

(** The list that the page holds, as [getServers] reads it in a browser. *)
Definition stored_servers (p : Page) : list MCPServerConfig :=
  match stored p with
  | Stringified servers => servers
  | _ => []
  end.

(** The ids of a list of configurations. *)
Definition ids (servers : list MCPServerConfig) : list string :=
  map id servers.

(** The write at the tick of [p] goes through. *)
Definition writable (b : Browser) (p : Page) : Prop :=
  window_defined b = true /\ setItem_throws b (page_tick p) = None.

(** A page left as it was, but for the clock. *)
Definition same_page (p p' : Page) : Prop :=
  stored p' = stored p /\ page_errors p' = page_errors p.

(** [getServers] gives an array: there is no [window], or the item is
    not JSON of a value that is not an array. *)
Definition readable (b : Browser) (p : Page) : Prop :=
  window_defined b = false \/ stored p <> NotAnArray.

(** The array that [getServers] then gives: the stored list in a
    browser, the empty one elsewhere. *)
Definition known (b : Browser) (p : Page) : list MCPServerConfig :=
  if window_defined b then stored_servers p else [].

(** The functions that edit the stored list. *)
Inductive Edit : Type :=
| Add (server : MCPServerConfig)
| Update (server : MCPServerConfig)
| Remove (serverId_ : string).

Definition edit (b : Browser) (e : Edit) : M Page (list MCPServerConfig) :=
  match e with
  | Add server => addServer b server
  | Update server => updateServer b server
  | Remove serverId_ => removeServer b serverId_
  end.

(** The page after the edits [es], one after the other, whether they
    return or throw. *)
Fixpoint edits (b : Browser) (es : list Edit) (p : Page) : Page :=
  match es with
  | [] => p
  | e :: rest => edits b rest (snd (edit b e p))
  end.

Definition already_exists (server : MCPServerConfig) : JsThrown :=
  JsError ("Server with id " ++ DQ ++ id server ++ DQ ++ " already exists").

Definition not_found (server : MCPServerConfig) : JsThrown :=
  JsError ("Server with id " ++ DQ ++ id server ++ DQ ++ " not found").

(** Browsers and pages for the examples. *)
Module Desk.

Definition browser : Browser :=
  {| window_defined := true;
     setItem_throws := fun _ => None;
     TypeError_message :=
       fun method => "servers." ++ method ++ " is not a function";
     toISOString_now := fun _ => "2025-01-01T00:00:00.000Z";
     browser_Date_now := fun t => 1000 + t;
     browser_random36 := fun _ => "0.4fzyo82mvyr" |}.


(** The rendering on the server: no [window]. *)
Definition server_side : Browser :=
  {| window_defined := false;
     setItem_throws := setItem_throws browser;
     TypeError_message := TypeError_message browser;
     toISOString_now := toISOString_now browser;
     browser_Date_now := browser_Date_now browser;
     browser_random36 := browser_random36 browser |}.

Definition page_with (l : list MCPServerConfig) : Page :=
  {| stored := Stringified l; page_tick := 0; page_errors := [] |}.

Definition blank : Page :=
  {| stored := NoItem; page_tick := 0; page_errors := [] |}.

(** A page whose item is the text [null]. *)
Definition page_null : Page :=
  {| stored := NotAnArray; page_tick := 0; page_errors := [] |}.

End Desk.

(** ** Vocabulary of the routes *)

(** The manager after one [console.error(label, ...)]. *)
Definition logged (label : string) (m : Manager) : Manager :=
  {| clients := clients m; cells := cells m; next := next m;
     tick := tick m; trace := trace m ++ [EvConsoleError label] |}.

(** The route answers 500 with the message that the server [s] is not
    connected, and does nothing but log. *)
Definition refuses {B : Type} (failure : string -> B) (label s : string)
  (route : M Manager (Reply B)) (m : Manager) : Prop :=
  route m =
    (Normal (json (failure ("Server " ++ s ++ " is not connected")) 500),
     logged label m).

(** ** Vocabulary of the names of the tools *)

(** The last character of [s] is [c]. *)
Fixpoint ends_with (c : ascii) (s : string) : bool :=
  match s with
  | EmptyString => false
  | String a EmptyString => Ascii.eqb a c
  | String _ rest => ends_with c rest
  end.

(** A server id after which the separator can be found again: it does not
    contain the separator and does not end with an underscore. *)
Definition plain_id (serverId_ : string) : bool :=
  negb (includes separator serverId_) && negb (ends_with "_" serverId_).

(** ** Vocabulary of the collection of the tools *)

(** The entry of [allTools] for the tool [tool] of the server [s]. *)
Definition entry_of (s : string) (tool : MCPTool) : ToolEntry :=
  {| entry_serverId := s; entry_serverName := s;
     entry_tool := {| tool_name := prefixedName s (tool_name tool);
                      tool_description := tool_description tool;
                      inputSchema := inputSchema tool |} |}.

(** What the servers [ids] answer when they are asked for their tools
    one after the other, the first at the tick [t]: for each server with
    a connected instance the tools that it lists, none when its listing
    is rejected; a server without connected instance is not asked. *)
Fixpoint answers (w : World) (m : Manager) (t : nat) (ids : list string)
  : list (string * list MCPTool) :=
  match ids with
  | [] => []
  | s :: rest =>
      match JSMap.get s (clients m) with
      | Some inst =>
          if ConnectionStatus.eqb (status (cells m (state inst)))
               ConnectionStatus.connected
          then (s, match client_listTools w t (client inst) with
                   | Resolved tools => tools
                   | Rejected _ => []
                   end) :: answers w m (S t) rest
          else answers w m t rest
      | None => answers w m t rest
      end
  end.

(** The entries of [allTools] for those answers, in order. *)
Definition offered (listed : list (string * list MCPTool)) : list ToolEntry :=
  flat_map (fun answer => map (entry_of (fst answer)) (snd answer)) listed.

(** The map of the tools has exactly the names of the tools collected,
    each with the id of a server that has a tool of that name. *)
Definition map_matches (acc : list ToolEntry * JSMap.t ServerInfo) : Prop :=
  (forall key, JSMap.get key (snd acc) <> None <->
     exists entry, In entry (fst acc) /\ tool_name (entry_tool entry) = key) /\
  (forall key info, JSMap.get key (snd acc) = Some info ->
     exists entry, In entry (fst acc) /\
       tool_name (entry_tool entry) = key /\
       entry_serverId entry = info_serverId info).

(** * Properties *)



(** ** Maps *)

Lemma status_eqb_eq (a b : ConnectionStatus.t) :
  ConnectionStatus.eqb a b = true <-> a = b.
Proof. destruct a, b; simpl; split; intro H; congruence. Qed.

Section MapFacts.
Variable V : Type.
Implicit Types (m : JSMap.t V) (k : string) (v : V).

Lemma get_set_same m k v : JSMap.get k (JSMap.set k v m) = Some v.
Proof.
  induction m as [|[k' v'] m IH]; simpl.
  - now rewrite String.eqb_refl.
  - destruct (String.eqb k k') eqn:E; simpl; rewrite E; auto.
Qed.

Lemma get_set_other m k k' v :
  k' <> k -> JSMap.get k' (JSMap.set k v m) = JSMap.get k' m.
Proof.
  intro D. induction m as [|[k0 v0] m IH]; simpl.
  - apply String.eqb_neq in D. now rewrite D.
  - destruct (String.eqb k k0) eqn:E; simpl.
    + apply String.eqb_eq in E. subst k0.
      apply String.eqb_neq in D. now rewrite D.
    + now rewrite IH.
Qed.

Lemma get_delete_same m k : JSMap.get k (JSMap.delete k m) = None.
Proof.
  induction m as [|[k' v'] m IH]; simpl; auto.
  destruct (String.eqb k k') eqn:E; simpl; auto. now rewrite E.
Qed.

Lemma get_delete_other m k k' :
  k' <> k -> JSMap.get k' (JSMap.delete k m) = JSMap.get k' m.
Proof.
  intro D. induction m as [|[k0 v0] m IH]; simpl; auto.
  destruct (String.eqb k k0) eqn:E; simpl.
  - apply String.eqb_eq in E. subst k0.
    apply String.eqb_neq in D. now rewrite D.
  - now rewrite IH.
Qed.

Lemma get_delete_some m k k' v :
  JSMap.get k' (JSMap.delete k m) = Some v ->
  k' <> k /\ JSMap.get k' m = Some v.
Proof.
  intro H. destruct (string_dec k' k) as [->|D].
  - now rewrite get_delete_same in H.
  - split; auto. now rewrite get_delete_other in H.
Qed.

Lemma delete_absent m k : JSMap.get k m = None -> JSMap.delete k m = m.
Proof.
  induction m as [|[k' v'] m IH]; simpl; auto.
  destruct (String.eqb k k') eqn:E; [discriminate|].
  intro H. now rewrite IH.
Qed.
End MapFacts.

(** ** The client manager *)

(** Unfolding of the monad. *)
Ltac unmonad :=
  unfold clients_get, read, update, emit, ask, await, console_error,
    alloc, bind, ret, throw, gets, modify, try_catch, try_finally in *.

Lemma connect_connected_is_noop_aux (w : World) (config : MCPServerConfig)
  (m : Manager) (inst : ClientInstance) :
  connected_instance m (id config) inst ->
  connect w config m = (Normal (state inst), m).
Proof.
  intros [Hget Hst]. unfold connect. unmonad. rewrite Hget, Hst. reflexivity.
Qed.

Lemma disconnect_spec (w : World) (s : string) (m : Manager) :
  exists m', disconnect w s m = (Normal tt, m') /\
    clients m' = JSMap.delete s (clients m) /\
    cells m' = cells m /\ next m' = next m /\
    (JSMap.get s (clients m) = None -> m' = m).
Proof.
  unfold disconnect. unmonad.
  destruct (JSMap.get s (clients m)) as [inst|] eqn:G.
  - simpl. destruct (client_close w (tick m) (client inst)) as [[]|e]; simpl;
      eexists; (split; [reflexivity|]); simpl; repeat split; discriminate.
  - exists m. repeat split; auto. symmetry. now apply delete_absent.
Qed.


Lemma createTransport_cases (w : World) (config : MCPServerConfig) (m : Manager) :
  (exists t m', createTransport w config m = (Normal t, m') /\
     same_store m m' /\ tick m' = tick m /\
     trace m' = (trace m ++ [EvNewTransport t])%list) \/
  (exists e, createTransport w config m = (Throw e, m) /\
     forall m0, createTransport w config m0 = (Throw e, m0)).
Proof.
  unfold createTransport, same_store.
  repeat match goal with
         | |- context [if ?b then _ else _] => destruct b
         | |- context [match new_URL ?w ?u with _ => _ end] =>
             destruct (new_URL w u)
         end; unmonad; simpl;
    solve [ left; do 2 eexists; split; [reflexivity|]; simpl; auto
          | right; eexists; split; [reflexivity|]; intro; reflexivity ].
Qed.

(** What the fresh attempt of [connect] does: it returns the new state
    object, which ends up connected and stored, or in error and not stored. *)
Lemma establish_spec (w : World) (config : MCPServerConfig) (m : Manager) :
  let c := {| client_name := "mcp-client-" ++ id config;
              client_version := "1.0.0" |} in
  exists m', establish w config m = (Normal (next m), m') /\
    next m' = S (next m) /\
    (forall r, r <> next m -> cells m' r = cells m r) /\
    ((exists tr m0 m1 tk t,
        createTransport w config m0 = (Normal tr, m1) /\
        client_connect w tk c tr = Resolved tt /\
        clients m' =
          JSMap.set (id config)
            {| client := c; instance_transport := tr; config := config;
               state := next m |} (clients m) /\
        cells m' (next m) =
          {| serverId := id config; status := ConnectionStatus.connected;
             error := None; connectedAt := Some t |}) \/
     (exists e,
        clients m' = clients m /\
        cells m' (next m) =
          {| serverId := id config; status := ConnectionStatus.error;
             error := Some (message_or "Connection failed" e);
             connectedAt := None |} /\
        ((forall m0, createTransport w config m0 = (Throw e, m0)) \/
         (exists tr m0 m1 tk,
            createTransport w config m0 = (Normal tr, m1) /\
            client_connect w tk c tr = Rejected e)))).
Proof.
  intro c. unfold establish. cbv zeta. fold c.
  unfold bind at 1. unfold alloc at 1.
  set (m0 := {| clients := clients m; cells := _; next := S (next m);
                tick := tick m; trace := trace m |}).
  unfold try_catch. unfold bind at 1.
  destruct (createTransport_cases w config m0)
    as [(t & m1 & E & (Hc & Hh & Hn) & Ht & _)|(e & E & Eall)]; rewrite E.
  - unmonad. simpl.
    destruct (client_connect w (tick m1) c t) as [[]|e] eqn:Hs; simpl.
    + eexists. split; [reflexivity|]. simpl. rewrite Hn, Hh, Hc. simpl.
      split; [reflexivity|]. split.
      * intros r D. apply Nat.eqb_neq in D. now rewrite D.
      * left. exists t, m0, m1, (tick m1). eexists.
        repeat split; auto. now rewrite Nat.eqb_refl.
    + eexists. split; [reflexivity|]. simpl. rewrite Hn, Hh, Hc. simpl.
      split; [reflexivity|]. split.
      * intros r D. apply Nat.eqb_neq in D. now rewrite D.
      * right. exists e. split; [reflexivity|]. split.
        -- now rewrite Nat.eqb_refl.
        -- right. exists t, m0, m1, (tick m1). auto.
  - unmonad. simpl. eexists. split; [reflexivity|]. simpl.
    split; [reflexivity|]. split.
    + intros r D. apply Nat.eqb_neq in D. now rewrite D.
    + right. exists e. split; [reflexivity|]. split.
      * now rewrite Nat.eqb_refl.
      * now left.
Qed.

Lemma createTransport_unsupported (w : World) (config : MCPServerConfig)
  (m : Manager) :
  supported_transport config = false ->
  createTransport w config m =
    (Throw (JsError ("Unsupported transport type: " ++ transport config)), m).
Proof.
  unfold supported_transport, createTransport. intro H.
  apply orb_false_elim in H. destruct H as [H H3].
  apply orb_false_elim in H. destruct H as [H1 H2].
  now rewrite H1, H2, H3.
Qed.

Lemma createTransport_missing (w : World) (config : MCPServerConfig)
  (m : Manager) :
  missing_parameter config = true ->
  createTransport w config m = (Throw (JsError (missing_message config)), m).
Proof.
  unfold missing_parameter, missing_message, supported_transport,
    createTransport. intro H.
  destruct (String.eqb (transport config) "stdio").
  - now rewrite H.
  - apply andb_true_iff in H. destruct H as [H1 H2]. rewrite H2.
    destruct (String.eqb (transport config) "streamable-http"); auto.
    simpl in H1. now rewrite H1.
Qed.

Lemma getClient_connected (m : Manager) (s : string) (inst : ClientInstance) :
  connected_instance m s inst ->
  getClient s m = (Normal (Some (client inst)), m).
Proof.
  intros [G St]. unfold getClient. unmonad. now rewrite G, St.
Qed.

Lemma getClient_not_connected (m : Manager) (s : string) :
  ~ has_connected m s -> getClient s m = (Normal None, m).
Proof.
  intro N. unfold getClient. unmonad.
  destruct (JSMap.get s (clients m)) as [inst|] eqn:G; [|reflexivity].
  destruct (ConnectionStatus.eqb (status (cells m (state inst)))
              ConnectionStatus.connected) eqn:E; [|reflexivity].
  exfalso. apply N. exists inst. split; auto. now apply status_eqb_eq.
Qed.

Lemma has_connected_dec (m : Manager) (s : string) :
  has_connected m s \/ ~ has_connected m s.
Proof.
  destruct (JSMap.get s (clients m)) as [inst|] eqn:G.
  - destruct (ConnectionStatus.eqb (status (cells m (state inst)))
                ConnectionStatus.connected) eqn:E.
    + left. exists inst. split; auto. now apply status_eqb_eq.
    + right. intros (i & G' & St). rewrite G in G'. injection G' as <-.
      apply status_eqb_eq in St. congruence.
  - right. intros (i & G' & _). congruence.
Qed.

(** A request through a client: the frame of every operation that asks a
    server. *)
Lemma request_same_store {A B : Type} (s : string) (m : Manager)
  (req : Client -> Request) (q : Client -> nat -> Outcome A) (f : A -> B) :
  same_store m
    (snd ((client <- getClient s ;;
           match client with
           | None => throw (not_connected s)
           | Some client =>
               emit (EvRequest client (req client)) ;;;
               x <- await (q client) ;; ret (f x)
           end) m)).
Proof.
  unfold same_store.
  destruct (has_connected_dec m s) as [(inst & H)|N].
  - unmonad. rewrite (getClient_connected H). simpl.
    destruct (q (client inst) (tick m)); simpl; auto.
  - unmonad. rewrite (getClient_not_connected N). simpl. auto.
Qed.

Lemma listTools_same_store (w : World) (s : string) (m : Manager) :
  same_store m (snd (listTools w s m)).
Proof.
  exact (request_same_store s m (fun _ => ReqListTools)
           (fun c t => client_listTools w t c) _).
Qed.

Lemma listPrompts_same_store (w : World) (s : string) (m : Manager) :
  same_store m (snd (listPrompts w s m)).
Proof.
  exact (request_same_store s m (fun _ => ReqListPrompts)
           (fun c t => client_listPrompts w t c) _).
Qed.

Lemma listResources_same_store (w : World) (s : string) (m : Manager) :
  same_store m (snd (listResources w s m)).
Proof.
  exact (request_same_store s m (fun _ => ReqListResources)
           (fun c t => client_listResources w t c) _).
Qed.

Lemma callTool_same_store (w : World) (s toolName : string)
  (args : option Json) (m : Manager) :
  same_store m (snd (callTool w s toolName args m)).
Proof.
  exact (request_same_store s m
           (fun _ => ReqCallTool toolName (args_or_empty args))
           (fun c t => client_callTool w t c toolName (args_or_empty args))
           extract).
Qed.

Lemma getPrompt_same_store (w : World) (s promptName : string)
  (args : option (list (string * string))) (m : Manager) :
  same_store m (snd (getPrompt w s promptName args m)).
Proof.
  unfold same_store, getPrompt.
  destruct (has_connected_dec m s) as [(inst & H)|N].
  - unmonad. rewrite (getClient_connected H). simpl.
    destruct (client_getPrompt w (tick m) (client inst) promptName args);
      simpl; auto.
  - unmonad. rewrite (getClient_not_connected N). simpl. auto.
Qed.

Lemma readResource_same_store (w : World) (s u : string) (m : Manager) :
  same_store m (snd (readResource w s u m)).
Proof.
  unfold same_store, readResource.
  destruct (has_connected_dec m s) as [(inst & H)|N].
  - unmonad. rewrite (getClient_connected H). simpl.
    destruct (client_readResource w (tick m) (client inst) u); simpl; auto.
  - unmonad. rewrite (getClient_not_connected N). simpl. auto.
Qed.

(** *** The invariant of the map *)

Lemma same_store_ok (m m' : Manager) :
  same_store m m' -> registry_ok m -> registry_ok m'.
Proof.
  intros (Hc & Hh & Hn) Ok k inst G. rewrite Hc in G.
  rewrite Hh, Hn. now apply Ok.
Qed.

Lemma establish_ok (w : World) (config : MCPServerConfig) (m : Manager) :
  registry_ok m -> registry_ok (snd (establish w config m)).
Proof.
  intro Ok. destruct (establish_spec w config m)
    as (m' & E & Hn & Hother &
        [(tr & m0 & m1 & tk & t & _ & _ & Hc & Hcell)|(e & Hc & Hcell & _)]);
    rewrite E; simpl; intros k inst G; rewrite Hc in G.
  - destruct (string_dec k (id config)) as [->|D].
    + rewrite get_set_same in G. injection G as <-. simpl.
      rewrite Hcell, Hn. simpl. repeat split; eauto.
    + rewrite get_set_other in G by assumption.
      destruct (Ok k inst G) as (Hlt & Hrest).
      rewrite Hother, Hn by lia. split; [lia|exact Hrest].
  - destruct (Ok k inst G) as (Hlt & Hrest).
    rewrite Hother, Hn by lia. split; [lia|exact Hrest].
Qed.

Lemma disconnect_ok (w : World) (s : string) (m : Manager) :
  registry_ok m -> registry_ok (snd (disconnect w s m)).
Proof.
  intro Ok. destruct (disconnect_spec w s m) as (m' & E & Hc & Hh & Hn & _).
  rewrite E. simpl. intros k inst G. rewrite Hc in G.
  apply get_delete_some in G. destruct G as [_ G].
  rewrite Hh, Hn. now apply Ok.
Qed.

Lemma connect_ok (w : World) (config : MCPServerConfig) (m : Manager) :
  registry_ok m -> registry_ok (snd (connect w config m)).
Proof.
  intro Ok. unfold connect. unfold bind at 1. unfold clients_get, gets.
  destruct (JSMap.get (id config) (clients m)) as [inst|] eqn:G.
  - unfold bind at 1. unfold read, gets.
    destruct (ConnectionStatus.eqb _ _); [exact Ok|].
    unfold bind. pose proof (disconnect_ok w (id config) Ok) as Ok'.
    destruct (disconnect_spec w (id config) m) as (m' & E & _).
    rewrite E in *. simpl in Ok'. now apply establish_ok.
  - now apply establish_ok.
Qed.

Lemma getConnectionState_ok (s : string) (m : Manager) :
  registry_ok m -> registry_ok (snd (getConnectionState s m)).
Proof.
  intro Ok. unfold getConnectionState. unmonad.
  destruct (JSMap.get s (clients m)) as [inst|] eqn:G; [exact Ok|].
  simpl. intros k inst G'. simpl in *.
  destruct (Ok k inst G') as (Hlt & Hrest).
  assert (D : Nat.eqb (state inst) (next m) = false)
    by (apply Nat.eqb_neq; lia).
  rewrite D. split; [lia|exact Hrest].
Qed.

Lemma for_of_disconnect_ok (w : World) (ids : list string) (m : Manager) :
  registry_ok m -> registry_ok (snd (for_of ids (disconnect w) m)).
Proof.
  revert m. induction ids as [|s ids IH]; intros m Ok; [exact Ok|].
  simpl. unfold bind. pose proof (disconnect_ok w s Ok) as Ok'.
  destruct (disconnect_spec w s m) as (m' & E & _). rewrite E in *.
  now apply IH.
Qed.

Lemma perform_ok (w : World) (op : Operation) (m : Manager) :
  registry_ok m -> registry_ok (perform w op m).
Proof.
  intro Ok. destruct op; simpl.
  - now apply connect_ok.
  - now apply disconnect_ok.
  - now apply getConnectionState_ok.
  - destruct (has_connected_dec m serverId0) as [(inst & H)|N].
    + now rewrite (getClient_connected H).
    + now rewrite (getClient_not_connected N).
  - eapply same_store_ok; [apply listTools_same_store|exact Ok].
  - eapply same_store_ok; [apply listPrompts_same_store|exact Ok].
  - eapply same_store_ok; [apply listResources_same_store|exact Ok].
  - eapply same_store_ok; [apply callTool_same_store|exact Ok].
  - eapply same_store_ok; [apply getPrompt_same_store|exact Ok].
  - eapply same_store_ok; [apply readResource_same_store|exact Ok].
  - exact Ok.
  - unfold disconnectAll, bind, gets. now apply for_of_disconnect_ok.
Qed.

Lemma reachable_ok (m : Manager) : reachable m -> registry_ok m.
Proof.
  induction 1 as [|w op m _ IH].
  - intros k inst G. discriminate.
  - now apply perform_ok.
Qed.

Lemma connect_fresh (w : World) (config : MCPServerConfig) (m : Manager) :
  registry_ok m -> ~ has_connected m (id config) ->
  connect w config m = establish w config m.
Proof.
  intros Ok N. unfold connect. unfold bind at 1. unfold clients_get, gets.
  destruct (JSMap.get (id config) (clients m)) as [inst|] eqn:G; auto.
  exfalso. apply N. exists inst. split; auto. now apply (Ok _ _ G).
Qed.

(** The transport that [createTransport] returns, or what it throws, does
    not depend on the manager. *)
Lemma createTransport_fst (w : World) (config : MCPServerConfig)
  (m m0 : Manager) :
  fst (createTransport w config m0) = fst (createTransport w config m).
Proof.
  unfold createTransport.
  repeat match goal with
         | |- context [if ?b then _ else _] => destruct b
         | |- context [match new_URL ?w ?u with _ => _ end] =>
             destruct (new_URL w u)
         end; reflexivity.
Qed.

(** The fresh attempt of [connect], by what the transport and the
    handshake do: the handshake is the one consultation of the server at
    the tick of the manager, the time of the connection the next one. *)
Lemma establish_exact (w : World) (config : MCPServerConfig) (m : Manager) :
  let c := {| client_name := "mcp-client-" ++ id config;
              client_version := "1.0.0" |} in
  exists m', establish w config m = (Normal (next m), m') /\
    match fst (createTransport w config m) with
    | Normal tr =>
        match client_connect w (tick m) c tr with
        | Resolved _ =>
            clients m' =
              JSMap.set (id config)
                {| client := c; instance_transport := tr; config := config;
                   state := next m |} (clients m) /\
            cells m' (next m) =
              {| serverId := id config;
                 status := ConnectionStatus.connected;
                 error := None;
                 connectedAt := Some (Date_now w (S (tick m))) |}
        | Rejected e =>
            clients m' = clients m /\
            cells m' (next m) =
              {| serverId := id config; status := ConnectionStatus.error;
                 error := Some (message_or "Connection failed" e);
                 connectedAt := None |}
        end
    | Throw e =>
        clients m' = clients m /\
        cells m' (next m) =
          {| serverId := id config; status := ConnectionStatus.error;
             error := Some (message_or "Connection failed" e);
             connectedAt := None |}
    | Diverge => False
    end.
Proof.
  intro c. unfold establish. cbv zeta. fold c.
  unfold bind at 1. unfold alloc at 1.
  set (m0 := {| clients := clients m; cells := _; next := S (next m);
                tick := tick m; trace := trace m |}).
  rewrite <- (createTransport_fst w config m m0).
  unfold try_catch. unfold bind at 1.
  destruct (createTransport_cases w config m0)
    as [(t & m1 & E & (Hc & Hh & Hn) & Ht & _)|(e & E & Eall)]; rewrite E.
  - unmonad. simpl. rewrite Ht. change (tick m0) with (tick m).
    destruct (client_connect w (tick m) c t) as [[]|e] eqn:Hs; simpl.
    + eexists. split; [reflexivity|]. simpl. rewrite Hh, Hc. simpl.
      rewrite Nat.eqb_refl. split; reflexivity.
    + eexists. split; [reflexivity|]. simpl. rewrite Hh, Hc. simpl.
      rewrite Nat.eqb_refl. split; reflexivity.
  - unmonad. simpl. eexists. split; [reflexivity|]. simpl.
    rewrite Nat.eqb_refl. split; reflexivity.
Qed.

(** C2. [connect] never raises: from a reachable manager it always returns
    normally a state object that reports either a connection, with its
    time, or an error, with its message. For a server that is not yet
    connected, the report is decided by the transport and the handshake:
    when the transport can be made and the handshake succeeds, the state
    says connected, with the time of the clock and without error, and the
    instance is in the map; when the handshake is refused, or the
    transport cannot be made (an unsupported transport, a missing
    parameter), the state says error with the message of the failure.
    For a server that is connected already, the state returned says
    connected and nothing changes. *)
Theorem connect_never_raises (w : World) (config : MCPServerConfig)
  (m : Manager) :
  reachable m ->
  exists r m',
    connect w config m = (Normal r, m') /\
    (reports_connected m' r \/ exists msg, reports_error m' r msg) /\
    (reports_connected m' r ->
       exists inst, connected_instance m' (id config) inst /\ state inst = r) /\
    (~ has_connected m (id config) ->
       (supported_transport config = false ->
          reports_error m' r
            ("Unsupported transport type: " ++ transport config)) /\
       (missing_parameter config = true ->
          reports_error m' r (missing_message config)) /\
       (forall e, (forall t c tr, client_connect w t c tr = Rejected e) ->
          exists e', reports_error m' r (message_or "Connection failed" e') /\
            (e' = e \/
             forall m0, createTransport w config m0 = (Throw e', m0)))) /\
    (~ has_connected m (id config) ->
       let c := {| client_name := "mcp-client-" ++ id config;
                   client_version := "1.0.0" |} in
       (forall tr,
          fst (createTransport w config m) = Normal tr ->
          client_connect w (tick m) c tr = Resolved tt ->
          reports_connected m' r /\
          cells m' r =
            {| serverId := id config; status := ConnectionStatus.connected;
               error := None;
               connectedAt := Some (Date_now w (S (tick m))) |} /\
          JSMap.get (id config) (clients m') =
            Some {| client := c; instance_transport := tr; config := config;
                    state := r |}) /\
       (forall tr e,
          fst (createTransport w config m) = Normal tr ->
          client_connect w (tick m) c tr = Rejected e ->
          reports_error m' r (message_or "Connection failed" e) /\
          JSMap.get (id config) (clients m') = None) /\
       (forall e,
          fst (createTransport w config m) = Throw e ->
          reports_error m' r (message_or "Connection failed" e) /\
          JSMap.get (id config) (clients m') = None)) /\
    (has_connected m (id config) -> reports_connected m' r /\ m' = m).
Proof.
  intro R. pose proof (reachable_ok R) as Ok.
  assert (Old : exists r m',
    connect w config m = (Normal r, m') /\
    (reports_connected m' r \/ exists msg, reports_error m' r msg) /\
    (reports_connected m' r ->
       exists inst, connected_instance m' (id config) inst /\ state inst = r) /\
    (~ has_connected m (id config) ->
       (supported_transport config = false ->
          reports_error m' r
            ("Unsupported transport type: " ++ transport config)) /\
       (missing_parameter config = true ->
          reports_error m' r (missing_message config)) /\
       (forall e, (forall t c tr, client_connect w t c tr = Rejected e) ->
          exists e', reports_error m' r (message_or "Connection failed" e') /\
            (e' = e \/
             forall m0, createTransport w config m0 = (Throw e', m0))))).
  { destruct (has_connected_dec m (id config)) as [(inst & H)|N].
    - exists (state inst), m. rewrite (connect_connected_is_noop_aux w config H).
      destruct H as [G St]. destruct (Ok _ _ G) as (_ & _ & Ht & _).
      split; [reflexivity|]. split; [left; split; assumption|]. split.
      + intros _. exists inst. repeat split; assumption.
      + intro N. exfalso. apply N. exists inst. split; assumption.
    - rewrite (connect_fresh w config Ok N).
      destruct (establish_spec w config m)
        as (m' & E & Hn & Hother &
            [(tr & m0 & m1 & tk & t & Ect & Hs & Hc & Hcell)
            |(e & Hc & Hcell & Hcause)]).
      + exists (next m), m'. split; [exact E|].
        assert (RC : reports_connected m' (next m))
          by (unfold reports_connected; rewrite Hcell; simpl; eauto).
        split; [now left|]. split.
        * intros _. eexists. split; [split|].
          -- rewrite Hc. apply get_set_same.
          -- simpl. now rewrite Hcell.
          -- reflexivity.
        * intros _. split; [|split].
          -- intro U. rewrite (createTransport_unsupported w config m0 U) in Ect.
             discriminate.
          -- intro U. rewrite (createTransport_missing w config m0 U) in Ect.
             discriminate.
          -- intros e Hall. rewrite Hall in Hs. discriminate.
      + exists (next m), m'. split; [exact E|].
        assert (RE : reports_error m' (next m) (message_or "Connection failed" e))
          by (unfold reports_error; rewrite Hcell; simpl; auto).
        split; [right; eauto|]. split.
        * intros [St _]. rewrite Hcell in St. discriminate.
        * intros _. split; [|split].
          -- intro U.
             destruct Hcause as [Hall|(tr & m0 & m1 & tk & Ect & _)].
             ++ specialize (Hall m).
                rewrite (createTransport_unsupported w config m U) in Hall.
                injection Hall as <-. exact RE.
             ++ rewrite (createTransport_unsupported w config m0 U) in Ect.
                discriminate.
          -- intro U.
             destruct Hcause as [Hall|(tr & m0 & m1 & tk & Ect & _)].
             ++ specialize (Hall m).
                rewrite (createTransport_missing w config m U) in Hall.
                injection Hall as <-. exact RE.
             ++ rewrite (createTransport_missing w config m0 U) in Ect.
                discriminate.
          -- intros e0 Hall. exists e. split; [exact RE|].
             destruct Hcause as [Hthrow|(tr & m0 & m1 & tk & _ & Hs)].
             ++ now right.
             ++ left. rewrite Hall in Hs. now injection Hs. }
  destruct Old as (r & m' & E & A & B & C).
  exists r, m'. split; [exact E|]. split; [exact A|]. split; [exact B|].
  split; [exact C|]. split.
  2:{ intros (inst & H).
      rewrite (connect_connected_is_noop_aux w config H) in E.
      injection E as <- <-. destruct H as [G St].
      destruct (Ok _ _ G) as (_ & _ & Ht & _).
      split; [split; assumption|reflexivity]. }
  intros N c.
  assert (G0 : JSMap.get (id config) (clients m) = None).
  { destruct (JSMap.get (id config) (clients m)) as [inst|] eqn:G;
      [|reflexivity].
    exfalso. apply N. exists inst. split; [exact G|].
    now apply (Ok _ _ G). }
  rewrite (connect_fresh w config Ok N) in E.
  destruct (establish_exact w config m) as (m1 & E1 & H). fold c in H.
  rewrite E in E1. injection E1 as -> <-.
  split; [|split].
  - intros tr T Hs. rewrite T, Hs in H. destruct H as [Hc Hcell].
    split; [|split].
    + unfold reports_connected. rewrite Hcell. simpl. eauto.
    + exact Hcell.
    + rewrite Hc. apply get_set_same.
  - intros tr e T Hs. rewrite T, Hs in H. destruct H as [Hc Hcell].
    split; [|now rewrite Hc].
    unfold reports_error. rewrite Hcell. simpl. auto.
  - intros e T. rewrite T in H. destruct H as [Hc Hcell].
    split; [|now rewrite Hc].
    unfold reports_error. rewrite Hcell. simpl. auto.
Qed.

(** C3. [connect] on a server that has a connected instance returns the
    state object of that instance and changes nothing: the map, the state
    objects, the clock and the effects are as before, so no transport is
    created and no handshake is run. *)
Theorem connect_is_idempotent (w : World) (config : MCPServerConfig)
  (m : Manager) (inst : ClientInstance) :
  connected_instance m (id config) inst ->
  connect w config m = (Normal (state inst), m) /\
  new_effects m (snd (connect w config m)) = [].
Proof.
  intro H. rewrite (connect_connected_is_noop_aux w config H). split; auto.
  unfold new_effects. simpl. apply skipn_all.
Qed.

(** The same, for two calls in sequence: when the first call reports a
    connection, the second returns the same object and changes nothing. *)
Lemma connect_twice (w1 w2 : World) (config : MCPServerConfig)
  (m m1 : Manager) (r : StateRef) :
  connect w1 config m = (Normal r, m1) ->
  status (cells m1 r) = ConnectionStatus.connected ->
  connect w2 config m1 = (Normal r, m1).
Proof.
  intros E St.
  assert (Hest : forall m0, establish w1 config m0 = (Normal r, m1) ->
            connect w2 config m1 = (Normal r, m1)).
  { intros m0 E0.
    destruct (establish_spec w1 config m0)
      as (m' & E' & _ & _ &
          [(tr & _ & _ & _ & t & _ & _ & Hc & Hcell)|(e & _ & Hcell & _)]);
      rewrite E0 in E'; injection E' as -> <-.
    - match type of Hc with _ = JSMap.set _ ?i _ =>
        apply (connect_connected_is_noop_aux w2 config (inst := i)) end.
      split; [rewrite Hc; apply get_set_same|exact St].
    - rewrite Hcell in St. discriminate. }
  revert E. unfold connect. unfold bind at 1. unfold clients_get, gets.
  destruct (JSMap.get (id config) (clients m)) as [inst|] eqn:G.
  - unfold bind at 1. unfold read, gets.
    destruct (ConnectionStatus.eqb (status (cells m (state inst)))
                ConnectionStatus.connected) eqn:Q.
    + unfold ret. intro E. injection E as <- <-.
      apply (connect_connected_is_noop_aux w2 config (inst := inst)).
      split; auto.
    + unfold bind.
      destruct (disconnect_spec w1 (id config) m) as (m' & E' & _).
      rewrite E'. apply Hest.
  - apply Hest.
Qed.

(** C4. [disconnect(s)] always returns normally and leaves no entry for
    [s], whatever closing the client does; with no entry for [s] it
    changes nothing; [getConnectionState(s)] then returns a state object of
    [s] that says disconnected. *)
Theorem disconnect_then_disconnected (w : World) (s : string) (m : Manager) :
  exists m1 r m2,
    disconnect w s m = (Normal tt, m1) /\
    JSMap.get s (clients m1) = None /\
    (JSMap.get s (clients m) = None -> m1 = m) /\
    getConnectionState s m1 = (Normal r, m2) /\
    cells m2 r = {| serverId := s; status := ConnectionStatus.disconnected;
                    error := None; connectedAt := None |}.
Proof.
  destruct (disconnect_spec w s m) as (m1 & E & Hc & _ & _ & Hnoop).
  assert (G : JSMap.get s (clients m1) = None)
    by (rewrite Hc; apply get_delete_same).
  exists m1. unfold getConnectionState. unmonad. rewrite G.
  do 2 eexists. repeat split; auto. simpl. now rewrite Nat.eqb_refl.
Qed.

Lemma new_effects_app (m m' : Manager) (l : list Effect) :
  trace m' = (trace m ++ l)%list -> new_effects m m' = l.
Proof.
  intro H. unfold new_effects. rewrite H, skipn_app, skipn_all, Nat.sub_diag.
  reflexivity.
Qed.

Lemma map_tool_eta (tools : list MCPTool) :
  map (fun tool => {| tool_name := tool_name tool;
                      tool_description := tool_description tool;
                      inputSchema := inputSchema tool |}) tools = tools.
Proof. induction tools as [|[] ? IH]; simpl; congruence. Qed.

Lemma map_prompt_eta (prompts : list MCPPrompt) :
  map (fun prompt => {| prompt_name := prompt_name prompt;
                        prompt_description := prompt_description prompt;
                        prompt_arguments := prompt_arguments prompt |})
    prompts = prompts.
Proof. induction prompts as [|[] ? IH]; simpl; congruence. Qed.

Lemma map_resource_eta (resources : list MCPResource) :
  map (fun resource => {| uri := uri resource;
                          resource_name := resource_name resource;
                          resource_description := resource_description resource;
                          resource_mimeType := resource_mimeType resource |})
    resources = resources.
Proof. induction resources as [|[] ? IH]; simpl; congruence. Qed.

(** What an operation on a connected server does: one request, and the
    answer of the server. *)
Lemma listTools_connected (w : World) (s : string) (m : Manager)
  (inst : ClientInstance) :
  connected_instance m s inst ->
  fst (listTools w s m) =
    completion_of (client_listTools w (tick m) (client inst)) /\
  new_effects m (snd (listTools w s m)) =
    [EvRequest (client inst) ReqListTools].
Proof.
  intro H. unfold listTools. unmonad. rewrite (getClient_connected H). simpl.
  destruct (client_listTools w (tick m) (client inst)); simpl;
    rewrite ?map_tool_eta; split; auto; now apply new_effects_app.
Qed.

Lemma listPrompts_connected (w : World) (s : string) (m : Manager)
  (inst : ClientInstance) :
  connected_instance m s inst ->
  fst (listPrompts w s m) =
    completion_of (client_listPrompts w (tick m) (client inst)) /\
  new_effects m (snd (listPrompts w s m)) =
    [EvRequest (client inst) ReqListPrompts].
Proof.
  intro H. unfold listPrompts. unmonad. rewrite (getClient_connected H). simpl.
  destruct (client_listPrompts w (tick m) (client inst)); simpl;
    rewrite ?map_prompt_eta; split; auto; now apply new_effects_app.
Qed.

Lemma listResources_connected (w : World) (s : string) (m : Manager)
  (inst : ClientInstance) :
  connected_instance m s inst ->
  fst (listResources w s m) =
    completion_of (client_listResources w (tick m) (client inst)) /\
  new_effects m (snd (listResources w s m)) =
    [EvRequest (client inst) ReqListResources].
Proof.
  intro H. unfold listResources. unmonad. rewrite (getClient_connected H).
  simpl.
  destruct (client_listResources w (tick m) (client inst)); simpl;
    rewrite ?map_resource_eta; split; auto; now apply new_effects_app.
Qed.

(** What [args || {}] is: the value itself when it is truthy, the empty
    object for [undefined], [null], [false], [0] and the empty string. *)
Lemma args_or_empty_cases (args : option Json) :
  (forall a, args = Some a -> Json_truthy a = true ->
     args_or_empty args = a) /\
  (forall a, args = Some a -> Json_truthy a = false ->
     args_or_empty args = JObj []) /\
  (args = None -> args_or_empty args = JObj []) /\
  args_or_empty (Some JNull) = JObj [] /\
  args_or_empty (Some (JBool false)) = JObj [] /\
  args_or_empty (Some (JNum 0)) = JObj [] /\
  args_or_empty (Some (JStr "")) = JObj [] /\
  args_or_empty (Some (JArr [])) = JArr [].
Proof.
  repeat split; try reflexivity.
  - intros a -> T. simpl. now rewrite T.
  - intros a -> T. simpl. now rewrite T.
  - now intros ->.
Qed.

Lemma callTool_connected (w : World) (s toolName : string)
  (args : option Json) (m : Manager) (inst : ClientInstance) :
  connected_instance m s inst ->
  fst (callTool w s toolName args m) =
    match client_callTool w (tick m) (client inst) toolName
            (args_or_empty args) with
    | Resolved result => Normal (extract result)
    | Rejected e => Throw e
    end /\
  new_effects m (snd (callTool w s toolName args m)) =
    [EvRequest (client inst) (ReqCallTool toolName (args_or_empty args))].
Proof.
  intro H. unfold callTool. unmonad. rewrite (getClient_connected H). simpl.
  destruct (client_callTool w (tick m) (client inst) toolName
              (args_or_empty args)); simpl;
    split; auto; now apply new_effects_app.
Qed.

Lemma callTool_not_connected (w : World) (s toolName : string)
  (args : option Json) (m : Manager) :
  ~ has_connected m s ->
  callTool w s toolName args m = (Throw (not_connected s), m).
Proof.
  intro N. unfold callTool. unmonad. now rewrite (getClient_not_connected N).
Qed.

(** C5. With a connected instance, each of [listTools], [listPrompts],
    [listResources] and [callTool] sends exactly its request through the
    client of the instance and ends as the server answers; without one,
    each throws the error that says that the server is not connected, and
    sends nothing. *)
Theorem not_connected_or_request (w : World) (s toolName : string)
  (args : option Json) (m : Manager) :
  (forall inst, connected_instance m s inst ->
     (fst (listTools w s m) =
        completion_of (client_listTools w (tick m) (client inst)) /\
      new_effects m (snd (listTools w s m)) =
        [EvRequest (client inst) ReqListTools]) /\
     (fst (listPrompts w s m) =
        completion_of (client_listPrompts w (tick m) (client inst)) /\
      new_effects m (snd (listPrompts w s m)) =
        [EvRequest (client inst) ReqListPrompts]) /\
     (fst (listResources w s m) =
        completion_of (client_listResources w (tick m) (client inst)) /\
      new_effects m (snd (listResources w s m)) =
        [EvRequest (client inst) ReqListResources]) /\
     (fst (callTool w s toolName args m) =
        match client_callTool w (tick m) (client inst) toolName
                (args_or_empty args) with
        | Resolved result => Normal (extract result)
        | Rejected e => Throw e
        end /\
      new_effects m (snd (callTool w s toolName args m)) =
        [EvRequest (client inst)
           (ReqCallTool toolName (args_or_empty args))])) /\
  (~ has_connected m s ->
     listTools w s m =
       (Throw (JsError ("Server " ++ s ++ " is not connected")), m) /\
     listPrompts w s m =
       (Throw (JsError ("Server " ++ s ++ " is not connected")), m) /\
     listResources w s m =
       (Throw (JsError ("Server " ++ s ++ " is not connected")), m) /\
     callTool w s toolName args m =
       (Throw (JsError ("Server " ++ s ++ " is not connected")), m)).
Proof.
  split.
  - intros inst H. split; [|split; [|split]].
    + now apply listTools_connected.
    + now apply listPrompts_connected.
    + now apply listResources_connected.
    + now apply callTool_connected.
  - intro N. unfold listTools, listPrompts, listResources, callTool.
    unmonad. now rewrite (getClient_not_connected N).
Qed.

(** *** Nothing writes to a stored state object *)

Lemma extends_refl (m : Manager) : extends m m.
Proof. split; auto. Qed.

Lemma extends_trans (m1 m2 m3 : Manager) :
  extends m1 m2 -> extends m2 m3 -> extends m1 m3.
Proof.
  intros [L1 H1] [L2 H2]. split; [lia|].
  intros r Hr. rewrite H2 by lia. now apply H1.
Qed.

Lemma same_store_extends (m m' : Manager) : same_store m m' -> extends m m'.
Proof.
  intros (_ & Hh & Hn). split; [lia|]. intros r _. now rewrite Hh.
Qed.

Lemma establish_extends (w : World) (config : MCPServerConfig) (m : Manager) :
  extends m (snd (establish w config m)).
Proof.
  destruct (establish_spec w config m) as (m' & E & Hn & Hother & _).
  rewrite E. simpl. split; [lia|]. intros r Hr. apply Hother. lia.
Qed.

Lemma disconnect_extends (w : World) (s : string) (m : Manager) :
  extends m (snd (disconnect w s m)).
Proof.
  destruct (disconnect_spec w s m) as (m' & E & _ & Hh & Hn & _).
  rewrite E. simpl. split; [lia|]. intros r _. now rewrite Hh.
Qed.

Lemma connect_extends (w : World) (config : MCPServerConfig) (m : Manager) :
  extends m (snd (connect w config m)).
Proof.
  unfold connect. unfold bind at 1. unfold clients_get, gets.
  destruct (JSMap.get (id config) (clients m)) as [inst|] eqn:G.
  - unfold bind at 1. unfold read, gets.
    destruct (ConnectionStatus.eqb _ _); [apply extends_refl|].
    unfold bind. pose proof (disconnect_extends w (id config) m) as X.
    destruct (disconnect_spec w (id config) m) as (m' & E & _).
    rewrite E in *. simpl in X.
    eapply extends_trans; [exact X|apply establish_extends].
  - apply establish_extends.
Qed.

Lemma getConnectionState_extends (s : string) (m : Manager) :
  extends m (snd (getConnectionState s m)).
Proof.
  unfold getConnectionState. unmonad.
  destruct (JSMap.get s (clients m)); [apply extends_refl|].
  simpl. split; simpl; [lia|]. intros r Hr.
  assert (D : Nat.eqb r (next m) = false) by (apply Nat.eqb_neq; lia).
  now rewrite D.
Qed.

Lemma for_of_disconnect_extends (w : World) (ids : list string) (m : Manager) :
  extends m (snd (for_of ids (disconnect w) m)).
Proof.
  revert m. induction ids as [|s ids IH]; intro m; [apply extends_refl|].
  simpl. unfold bind. pose proof (disconnect_extends w s m) as X.
  destruct (disconnect_spec w s m) as (m' & E & _). rewrite E in *.
  eapply extends_trans; [exact X|apply IH].
Qed.

Lemma perform_extends (w : World) (op : Operation) (m : Manager) :
  extends m (perform w op m).
Proof.
  destruct op; simpl.
  - apply connect_extends.
  - apply disconnect_extends.
  - apply getConnectionState_extends.
  - destruct (has_connected_dec m serverId0) as [(inst & H)|N].
    + rewrite (getClient_connected H). apply extends_refl.
    + rewrite (getClient_not_connected N). apply extends_refl.
  - apply same_store_extends, listTools_same_store.
  - apply same_store_extends, listPrompts_same_store.
  - apply same_store_extends, listResources_same_store.
  - apply same_store_extends, callTool_same_store.
  - apply same_store_extends, getPrompt_same_store.
  - apply same_store_extends, readResource_same_store.
  - apply extends_refl.
  - unfold disconnectAll, bind, gets. apply for_of_disconnect_extends.
Qed.

(** *** Entries come from [connect] only *)

Lemma establish_entries (w : World) (config : MCPServerConfig) (m : Manager)
  (k : string) (inst : ClientInstance) :
  JSMap.get k (clients (snd (establish w config m))) = Some inst ->
  JSMap.get k (clients m) = Some inst \/
  (k = id config /\ handshake_succeeded w config).
Proof.
  destruct (establish_spec w config m)
    as (m' & E & _ & _ &
        [(tr & _ & _ & tk & t & _ & Hs & Hc & _)|(e & Hc & _)]);
    rewrite E; simpl; rewrite Hc; auto.
  destruct (string_dec k (id config)) as [->|D].
  - intros _. right. split; auto. now exists tk, tr.
  - rewrite get_set_other by assumption. auto.
Qed.

Lemma disconnect_entries (w : World) (s : string) (m : Manager)
  (k : string) (inst : ClientInstance) :
  JSMap.get k (clients (snd (disconnect w s m))) = Some inst ->
  JSMap.get k (clients m) = Some inst.
Proof.
  destruct (disconnect_spec w s m) as (m' & E & Hc & _).
  rewrite E. simpl. rewrite Hc. intro G. now apply get_delete_some in G.
Qed.

Lemma connect_entries (w : World) (config : MCPServerConfig) (m : Manager)
  (k : string) (inst : ClientInstance) :
  JSMap.get k (clients (snd (connect w config m))) = Some inst ->
  JSMap.get k (clients m) = Some inst \/
  (k = id config /\ handshake_succeeded w config).
Proof.
  unfold connect. unfold bind at 1. unfold clients_get, gets.
  destruct (JSMap.get (id config) (clients m)) as [i|] eqn:G.
  - unfold bind at 1. unfold read, gets.
    destruct (ConnectionStatus.eqb _ _); [simpl; auto|].
    unfold bind. pose proof (@disconnect_entries w (id config) m k inst) as X.
    destruct (disconnect_spec w (id config) m) as (m' & E & _).
    rewrite E in *. simpl in X. intro H.
    apply establish_entries in H. destruct H; auto.
  - apply establish_entries.
Qed.

Lemma for_of_disconnect_entries (w : World) (ids : list string) (m : Manager)
  (k : string) (inst : ClientInstance) :
  JSMap.get k (clients (snd (for_of ids (disconnect w) m))) = Some inst ->
  JSMap.get k (clients m) = Some inst.
Proof.
  revert m. induction ids as [|s ids IH]; intro m; [auto|].
  simpl. unfold bind. pose proof (@disconnect_entries w s m k inst) as X.
  destruct (disconnect_spec w s m) as (m' & E & _). rewrite E in *.
  intro H. apply X. simpl. now apply IH.
Qed.

Lemma same_store_entries (m m' : Manager) (k : string) (inst : ClientInstance) :
  same_store m m' ->
  JSMap.get k (clients m') = Some inst -> JSMap.get k (clients m) = Some inst.
Proof. intros (Hc & _). now rewrite Hc. Qed.

Lemma perform_entries (w : World) (op : Operation) (m : Manager)
  (k : string) (inst : ClientInstance) :
  JSMap.get k (clients (perform w op m)) = Some inst ->
  JSMap.get k (clients m) = Some inst \/
  (exists config, op = OpConnect config /\ k = id config /\
                  handshake_succeeded w config).
Proof.
  destruct op; simpl; intro H.
  - apply connect_entries in H. destruct H as [H|[H1 H2]]; eauto.
  - left. revert H. apply disconnect_entries.
  - left. revert H. unfold getConnectionState. unmonad.
    destruct (JSMap.get serverId0 (clients m)); auto.
  - left. destruct (has_connected_dec m serverId0) as [(i & C)|N].
    + now rewrite (getClient_connected C) in H.
    + now rewrite (getClient_not_connected N) in H.
  - left. revert H. apply same_store_entries, listTools_same_store.
  - left. revert H. apply same_store_entries, listPrompts_same_store.
  - left. revert H. apply same_store_entries, listResources_same_store.
  - left. revert H. apply same_store_entries, callTool_same_store.
  - left. revert H. apply same_store_entries, getPrompt_same_store.
  - left. revert H. apply same_store_entries, readResource_same_store.
  - now left.
  - left. revert H. unfold disconnectAll, bind, gets.
    apply for_of_disconnect_entries.
Qed.

(** C10. In every manager that the operations produce, each instance in
    the map has a state object that says connected; an entry that an
    operation leaves in the map was there before or was put there by
    [connect] after a handshake that succeeded; no operation changes the
    state object of an instance that was in the map; so
    [getConnectionState] reports disconnected or connected, and a
    [connect] that does not report a connection leaves the map as it was. *)
Theorem registry_invariant (m : Manager) :
  reachable m ->
  (forall k inst, JSMap.get k (clients m) = Some inst ->
     status (cells m (state inst)) = ConnectionStatus.connected) /\
  (forall w op k inst,
     JSMap.get k (clients (perform w op m)) = Some inst ->
     JSMap.get k (clients m) = Some inst \/
     (exists config, op = OpConnect config /\ k = id config /\
                     handshake_succeeded w config)) /\
  (forall w op k inst, JSMap.get k (clients m) = Some inst ->
     cells (perform w op m) (state inst) = cells m (state inst)) /\
  (forall s, exists r m',
     getConnectionState s m = (Normal r, m') /\
     (status (cells m' r) = ConnectionStatus.disconnected \/
      status (cells m' r) = ConnectionStatus.connected)) /\
  (forall w config r m',
     connect w config m = (Normal r, m') ->
     status (cells m' r) <> ConnectionStatus.connected ->
     clients m' = clients m).
Proof.
  intro R. pose proof (reachable_ok R) as Ok.
  split; [|split; [|split; [|split]]].
  - intros k inst G. now apply (Ok _ _ G).
  - intros w op k inst. apply perform_entries.
  - intros w op k inst G. apply perform_extends. now apply (Ok _ _ G).
  - intro s. unfold getConnectionState. unmonad.
    destruct (JSMap.get s (clients m)) as [inst|] eqn:G.
    + do 2 eexists. split; [reflexivity|]. right. now apply (Ok _ _ G).
    + do 2 eexists. split; [reflexivity|]. left. simpl.
      now rewrite Nat.eqb_refl.
  - intros w config r m' E St.
    destruct (has_connected_dec m (id config)) as [(inst & H)|N].
    + rewrite (connect_connected_is_noop_aux w config H) in E.
      now injection E as _ <-.
    + rewrite (connect_fresh w config Ok N) in E.
      destruct (establish_spec w config m)
        as (m1 & E1 & _ & _ &
            [(tr & _ & _ & _ & t & _ & _ & _ & Hcell)|(e & Hc & _)]);
        rewrite E in E1; injection E1 as -> <-; auto.
      exfalso. apply St. now rewrite Hcell.
Qed.

(** ** The result of a tool call *)

Lemma truthy_app (a b : string) : truthy a = true -> truthy (a ++ b) = true.
Proof. destruct a; simpl; [discriminate|auto]. Qed.

Lemma append_assoc (a b c : string) : (a ++ b) ++ c = a ++ b ++ c.
Proof. induction a; simpl; congruence. Qed.

(** The loop treats texts and images independently. *)
Lemma fold_extract_item (items : list ContentItem) (textContent : string)
  (images : list Image) :
  fold_left extract_item items (textContent, images) =
    (fold_left (fun acc text => acc ++ (if truthy acc then LF else "") ++ text)
       (texts_of items) textContent,
     (images ++ map with_default_mimeType (binaries_of items))%list).
Proof.
  revert textContent images.
  induction items as [|item items IH]; intros textContent images; simpl.
  - now rewrite app_nil_r.
  - destruct item; simpl; rewrite IH; simpl; auto.
    now rewrite <- app_assoc.
Qed.

(** After a text that is not empty, every further text comes after a
    newline. *)
Lemma fold_text_truthy (texts : list string) (acc : string) :
  truthy acc = true ->
  fold_left (fun acc text => acc ++ (if truthy acc then LF else "") ++ text)
    texts acc = join LF (acc :: texts).
Proof.
  revert acc. induction texts as [|text texts IH]; intros acc T; simpl; auto.
  rewrite T. rewrite IH by now apply truthy_app.
  unfold join. simpl. destruct texts; [reflexivity|now rewrite append_assoc].
Qed.

Lemma fold_text_empty (texts : list string) :
  fold_left (fun acc text => acc ++ (if truthy acc then LF else "") ++ text)
    texts "" = join LF (drop_leading_empty texts).
Proof.
  induction texts as [|text texts IH]; simpl; auto.
  destruct (truthy text) eqn:T.
  - now apply fold_text_truthy.
  - destruct text; [exact IH|discriminate].
Qed.

(** C6, the claim as it stands fails: when the first text block is empty,
    no newline separates it from the next one. *)
Lemma extract_leading_empty_text :
  let items := [TextContent ""; TextContent "b"] in
  output_content (extract {| content := Some items; isError := None |}) = "b"
  /\ spec_textContent items = LF ++ "b"
  /\ output_content (extract {| content := Some items; isError := None |})
     <> spec_textContent items.
Proof. simpl. repeat split. discriminate. Qed.

(** C6, amended. The text of the result is the texts of the text blocks in
    order, without the empty ones at the head, separated by a newline; it
    is the rule of the specification when the first text block is not
    empty, and the empty string when there is no text block. The images
    are the image blocks in order, with [image/png] for an empty mime
    type. [raw] is the result itself. Blocks text a, image, text b give
    a, newline, b and one image. *)
Theorem extract_normalizes (result : CallToolResult) :
  let items := match content result with Some items => items | None => [] end in
  output_content (extract result) =
    join LF (drop_leading_empty (texts_of items)) /\
  (match texts_of items with
   | [] => output_content (extract result) = ""
   | first :: _ =>
       truthy first = true ->
       output_content (extract result) = spec_textContent items
   end) /\
  images (extract result) =
    map with_default_mimeType (spec_binaryItems items) /\
  raw (extract result) = result /\
  (forall a b data mimeType,
     truthy a = true ->
     content result =
       Some [TextContent a; ImageContent data mimeType; TextContent b] ->
     output_content (extract result) = a ++ LF ++ b /\
     List.length (images (extract result)) = 1).
Proof.
  intro items.
  assert (E : extract result =
                {| output_content := join LF (drop_leading_empty (texts_of items));
                   images := map with_default_mimeType (binaries_of items);
                   raw := result |}).
  { unfold extract, items. destruct (content result) as [its|]; simpl; auto.
    rewrite fold_extract_item, fold_text_empty. reflexivity. }
  rewrite E. simpl. split; [reflexivity|]. split; [|split; [|split]]; auto.
  - unfold spec_textContent.
    destruct (texts_of items) as [|first rest]; simpl; auto.
    intro T. rewrite T. reflexivity.
  - intros a b data mimeType T C. unfold items. rewrite C. simpl.
    rewrite T. simpl. auto.
Qed.

(** ** The chat route *)

Lemma same_stream_refl (t : Turn) : same_stream t t.
Proof. repeat split. Qed.

Lemma same_stream_trans (t1 t2 t3 : Turn) :
  same_stream t1 t2 -> same_stream t2 t3 -> same_stream t1 t3.
Proof.
  intros (A1 & A2 & A3 & A4) (B1 & B2 & B3 & B4).
  repeat split; congruence.
Qed.

Lemma on_manager_same_stream {A : Type} (c : M Manager A) (t : Turn) :
  same_stream t (snd (on_manager c t)) /\
  fst (on_manager c t) = fst (c (manager t)).
Proof.
  unfold on_manager, lift. destruct (c (manager t)) as [r m']. simpl.
  repeat split.
Qed.

Lemma quiet_ret {A : Type} (a : A) : quiet (ret a).
Proof. intro t. split; [apply same_stream_refl|discriminate]. Qed.

Lemma quiet_bind {A B : Type} (c : M Turn A) (k : A -> M Turn B) :
  quiet c -> (forall a, quiet (k a)) -> quiet (bind c k).
Proof.
  intros Hc Hk t. unfold bind. specialize (Hc t).
  destruct (c t) as [[a|e|] t1]; simpl in *.
  - destruct Hc as [S1 _]. destruct (Hk a t1) as [S2 N]. split; auto.
    eapply same_stream_trans; eauto.
  - split; [tauto|discriminate].
  - tauto.
Qed.

Lemma quiet_ask {A : Type} (q : nat -> A) : quiet (on_manager (ask q)).
Proof.
  intro t. destruct (on_manager_same_stream (ask q) t) as [S E].
  split; auto. rewrite E. discriminate.
Qed.

Lemma quiet_await {A : Type} (q : nat -> Outcome A) :
  quiet (on_manager (await q)).
Proof.
  intro t. destruct (on_manager_same_stream (await q) t) as [S E].
  split; auto. rewrite E. unmonad. simpl.
  destruct (q (tick (manager t))); discriminate.
Qed.

Lemma quiet_callTool (w : World) (s toolName : string) (args : option Json) :
  quiet (on_manager (callTool w s toolName args)).
Proof.
  intro t.
  destruct (on_manager_same_stream (callTool w s toolName args) t) as [S E].
  split; auto. rewrite E.
  destruct (has_connected_dec (manager t) s) as [(inst & H)|N].
  - rewrite (proj1 (callTool_connected w toolName args H)).
    destruct (client_callTool _ _ _ _ _); discriminate.
  - rewrite (callTool_not_connected w toolName args N). discriminate.
Qed.

Lemma quiet_upload_images (cw : ChatWorld) (toolName sid mid : string)
  (imgs : list Image) (i : nat) (acc : list UploadedImage) :
  quiet (upload_images cw toolName sid mid i imgs acc).
Proof.
  revert i acc. induction imgs as [|img imgs IH]; intros i acc; simpl.
  - apply quiet_ret.
  - apply quiet_bind; [apply quiet_ask|]. intro now.
    apply quiet_bind; [apply quiet_await|]. intro r. apply IH.
Qed.

Lemma quiet_invoke_tool (cw : ChatWorld) (ctx : StreamContext)
  (serverInfo : ServerInfo) (toolName : string) (call : FunctionCall) :
  quiet (invoke_tool cw ctx serverInfo toolName call).
Proof.
  unfold invoke_tool.
  apply quiet_bind; [apply quiet_callTool|]. intro result.
  apply quiet_bind; [|intro; apply quiet_ret].
  destruct (_ && _); [apply quiet_upload_images|apply quiet_ret].
Qed.

Lemma new_callId_spec (cw : ChatWorld) (t : Turn) :
  exists callId t', new_callId cw t = (Normal callId, t') /\ same_stream t t'.
Proof.
  unfold new_callId, bind, on_manager, lift, ask, ret. simpl.
  do 2 eexists. split; [reflexivity|]. repeat split.
Qed.

Lemma sendSSE_open (ev : string) (d : SSEData) (t : Turn) :
  closed t = false ->
  sendSSE ev d t = (Normal tt, enqueued {| event := ev; data := d |} t).
Proof.
  intro C. unfold sendSSE, controller_enqueue, enqueued. now rewrite C.
Qed.

(** One function call: an id, the start frame, the tool, the result frame;
    never an exception while the controller is open. *)
Lemma process_call_spec (cw : ChatWorld) (ctx : StreamContext)
  (call : FunctionCall) (t : Turn) :
  closed t = false ->
  let prefixed := or_else_opt (call_name call) "" in
  exists callId t0 fr t',
    new_callId cw t = (Normal callId, t0) /\
    process_call cw ctx call t = (Normal fr, t') /\
    closed t' = false /\ sent t' = sent t /\
    conversationParts t' = conversationParts t /\
    result_name fr = prefixed /\
    match JSMap.get prefixed (toolServerMap ctx) with
    | None =>
        queue t' =
          (queue t ++
           [tool_call_start_frame callId "unknown" "Unknown" prefixed
              (args_or_empty (call_args call));
            tool_call_result_frame callId None
              (Some "Server not found for tool") None])%list /\
        response fr = ResponseError "Server not found for tool"
    | Some info =>
        let toolName := actualToolName info prefixed in
        let start_ :=
          tool_call_start_frame callId (info_serverId info)
            (info_serverName info) toolName
            (args_or_empty (call_args call)) in
        match invoke_tool cw ctx info toolName call (enqueued start_ t0) with
        | (Normal (result, uploaded), t2) =>
            t' = enqueued
                   (tool_call_result_frame callId (Some (raw result)) None
                      (if nonempty uploaded then Some uploaded else None)) t2
            /\ queue t2 = (queue t ++ [start_])%list
            /\ response fr = response_of result uploaded
        | (Throw e, t2) =>
            t' = enqueued
                   (tool_call_result_frame callId None
                      (Some (message_or "Tool execution failed" e)) None) t2
            /\ queue t2 = (queue t ++ [start_])%list
            /\ response fr =
                 ResponseError (message_or "Tool execution failed" e)
        | (Diverge, _) => False
        end
    end.
Proof.
  intros C prefixed.
  destruct (new_callId_spec cw t) as (callId & t0 & E0 & S0 & C0 & N0 & P0).
  exists callId, t0. unfold process_call. fold prefixed.
  unfold bind at 1. rewrite E0.
  assert (C0' : closed t0 = false) by congruence.
  destruct (JSMap.get prefixed (toolServerMap ctx)) as [info|].
  - cbv zeta.
    set (toolName := actualToolName info prefixed).
    set (start_ := tool_call_start_frame callId _ _ toolName _).
    unfold bind at 1. rewrite (@sendSSE_open _ _ _ C0'). fold start_.
    change {| event := "tool_call_start"; data := _ |} with start_.
    unfold try_catch. unfold bind at 1.
    destruct (quiet_invoke_tool cw ctx info toolName call (enqueued start_ t0))
      as [(Q1 & Q2 & Q3 & Q4) ND].
    destruct (invoke_tool cw ctx info toolName call (enqueued start_ t0))
      as [[[result uploaded]|e|] t2]; simpl in *.
    + assert (C2 : closed t2 = false) by congruence.
      unfold bind. rewrite (@sendSSE_open _ _ _ C2). unfold ret.
      do 2 eexists. split; [reflexivity|]. split; [reflexivity|].
      simpl. repeat split; try congruence.
    + assert (C2 : closed t2 = false) by congruence.
      unfold bind. rewrite (@sendSSE_open _ _ _ C2). unfold ret.
      do 2 eexists. split; [reflexivity|]. split; [reflexivity|].
      simpl. repeat split; try congruence.
    + congruence.
  - unfold bind. rewrite (@sendSSE_open _ _ _ C0'). unfold ret.
    rewrite sendSSE_open by exact C0'.
    do 2 eexists. split; [reflexivity|]. split; [reflexivity|].
    simpl. rewrite <- app_assoc, S0. simpl. repeat split; congruence.
Qed.

Lemma tool_frames_app (a b : list SSEFrame) :
  tool_frames a -> tool_frames b -> tool_frames (a ++ b).
Proof.
  induction 1; simpl; auto. intro. constructor. auto.
Qed.

(** The frames of one function call. *)
Lemma process_call_frames (cw : ChatWorld) (ctx : StreamContext)
  (call : FunctionCall) (t : Turn) :
  closed t = false ->
  exists fr t' fs,
    process_call cw ctx call t = (Normal fr, t') /\
    closed t' = false /\ sent t' = sent t /\
    queue t' = (queue t ++ fs)%list /\ tool_frames fs /\ List.length fs = 2.
Proof.
  intro C.
  destruct (@process_call_spec cw ctx call t C)
    as (callId & t0 & fr & t' & _ & E & C' & N' & _ & _ & H).
  exists fr, t'.
  destruct (JSMap.get _ (toolServerMap ctx)) as [info|].
  - cbv zeta in H.
    destruct (invoke_tool _ _ _ _ _ _) as [[[result uploaded]|e|] t2];
      [| |contradiction]; destruct H as (-> & Q & _);
      eexists; (split; [exact E|]); (split; [exact C'|]);
      (split; [exact N'|]); simpl; rewrite Q, <- app_assoc; simpl;
      (split; [reflexivity|]); split; auto; repeat constructor.
  - destruct H as (Q & _). eexists. split; [exact E|]. split; [exact C'|].
    split; [exact N'|]. split; [exact Q|]. split; auto. repeat constructor.
Qed.

Lemma process_calls_frames (cw : ChatWorld) (ctx : StreamContext)
  (calls : list FunctionCall) (acc : list FunctionResult) (t : Turn) :
  closed t = false ->
  exists frs t' fs,
    process_calls cw ctx calls acc t = (Normal frs, t') /\
    closed t' = false /\ sent t' = sent t /\
    queue t' = (queue t ++ fs)%list /\ tool_frames fs /\
    List.length fs = 2 * List.length calls.
Proof.
  revert acc t. induction calls as [|call calls IH]; intros acc t C; simpl.
  - exists acc, t, []. unfold ret. rewrite app_nil_r.
    repeat split; auto. constructor.
  - destruct (@process_call_frames cw ctx call t C)
      as (fr & t1 & fs1 & E1 & C1 & N1 & Q1 & F1 & L1).
    unfold bind. rewrite E1.
    destruct (IH (acc ++ [fr])%list t1 C1)
      as (frs & t' & fs & E & C' & N' & Q & F & L).
    exists frs, t', (fs1 ++ fs)%list. split; [exact E|].
    split; [exact C'|]. split; [congruence|]. split.
    + rewrite Q, Q1. now rewrite app_assoc.
    + split; [now apply tool_frames_app|]. rewrite length_app. lia.
Qed.

Lemma sendMessage_spec (cw : ChatWorld) (message : MessageParam) (t : Turn) :
  exists t',
    sendMessage cw message t =
      (completion_of
         (chat_sendMessage cw (sent t) (tick (manager t)) message), t') /\
    queue t' = queue t /\ closed t' = closed t /\ sent t' = S (sent t).
Proof.
  unfold sendMessage, bind, gets, modify, on_manager, lift, await, ask, bind,
    ret, throw. simpl.
  destruct (chat_sendMessage cw (sent t) (tick (manager t)) message);
    simpl; eexists; split; try reflexivity; repeat split.
Qed.

Lemma chat_loop_unfold (fuel : nat) (cw : ChatWorld) (ctx : StreamContext)
  (b : bool) (p : string) :
  chat_loop (S fuel) cw ctx b p =
    (response <- sendMessage cw (next_message ctx b p) ;;
     match functionCalls response with
     | Some (call :: rest) =>
         functionResults <- process_calls cw ctx (call :: rest) [] ;;
         conversationParts_push (ModelPart (call :: rest)) ;;;
         conversationParts_push (UserPart functionResults) ;;;
         chat_loop fuel cw ctx false ""
     | _ =>
         let text := or_else_opt (response_text response) "" in
         (if truthy text then sendSSE "text" (TextEvent text) else ret tt)
     end).
Proof.
  simpl. unfold next_message.
  destruct b; [destruct (message_images (lastMessage ctx)) as [[|? ?]|]|];
    reflexivity.
Qed.

(** After the first round the loop sends the empty text: the entries of
    [functionResults] are kept in [conversationParts] only. *)
Lemma later_messages_are_empty (ctx : StreamContext) :
  next_message ctx false "" = MessageText "".
Proof. reflexivity. Qed.

(** A round in which the model asks for tools: their frames, then the
    next round. *)
Lemma chat_loop_tool_round (fuel : nat) (cw : ChatWorld) (ctx : StreamContext)
  (b : bool) (p : string) (t : Turn) (call : FunctionCall)
  (rest : list FunctionCall) (text : option string) :
  closed t = false ->
  chat_sendMessage cw (sent t) (tick (manager t)) (next_message ctx b p) =
    Resolved {| functionCalls := Some (call :: rest); response_text := text |} ->
  exists t1 fs,
    chat_loop (S fuel) cw ctx b p t = chat_loop fuel cw ctx false "" t1 /\
    closed t1 = false /\ sent t1 = S (sent t) /\
    queue t1 = (queue t ++ fs)%list /\ tool_frames fs /\
    List.length fs = 2 * List.length (call :: rest).
Proof.
  intros C R. rewrite chat_loop_unfold. unfold bind at 1.
  destruct (sendMessage_spec cw (next_message ctx b p) t)
    as (t0 & E0 & Q0 & C0 & N0).
  rewrite E0, R. cbn [completion_of functionCalls].
  assert (C0' : closed t0 = false) by congruence.
  destruct (@process_calls_frames cw ctx (call :: rest) [] t0 C0')
    as (frs & t1 & fs & E1 & C1 & N1 & Q1 & F1 & L1).
  unfold bind at 1. rewrite E1.
  unfold bind, conversationParts_push, modify.
  eexists. exists fs. split; [reflexivity|]. simpl.
  repeat split; try congruence. simpl in L1. lia.
Qed.

(** A round in which the model answers with text: the frame of the text,
    if it is not empty, and the end of the loop. *)
Lemma chat_loop_text_round (fuel : nat) (cw : ChatWorld) (ctx : StreamContext)
  (b : bool) (p : string) (t : Turn) (resp : GenerateContentResponse) :
  closed t = false ->
  chat_sendMessage cw (sent t) (tick (manager t)) (next_message ctx b p) =
    Resolved resp ->
  functionCalls resp = None \/ functionCalls resp = Some [] ->
  exists t',
    chat_loop (S fuel) cw ctx b p t = (Normal tt, t') /\
    closed t' = false /\
    queue t' =
      (queue t ++ text_frames (or_else_opt (response_text resp) ""))%list.
Proof.
  intros C R F. rewrite chat_loop_unfold. unfold bind at 1.
  destruct (sendMessage_spec cw (next_message ctx b p) t)
    as (t0 & E0 & Q0 & C0 & N0).
  rewrite E0, R. cbn [completion_of].
  assert (C0' : closed t0 = false) by congruence.
  assert (X : match functionCalls resp with
              | Some (call :: rest) => False
              | _ => True
              end) by (destruct F as [-> | ->]; exact I).
  destruct (functionCalls resp) as [[|? ?]|]; try contradiction;
    cbv zeta; unfold text_frames;
    destruct (truthy (or_else_opt (response_text resp) ""));
    rewrite ?(@sendSSE_open _ _ _ C0'); unfold ret;
    eexists; (split; [reflexivity|]); simpl; rewrite ?app_nil_r;
    (split; [congruence|rewrite Q0; reflexivity]).
Qed.

(** A round in which the call of the model throws. *)
Lemma chat_loop_throw_round (fuel : nat) (cw : ChatWorld) (ctx : StreamContext)
  (b : bool) (p : string) (t : Turn) (e : JsThrown) :
  chat_sendMessage cw (sent t) (tick (manager t)) (next_message ctx b p) =
    Rejected e ->
  exists t',
    chat_loop (S fuel) cw ctx b p t = (Throw e, t') /\
    closed t' = closed t /\ queue t' = queue t.
Proof.
  intro R. rewrite chat_loop_unfold. unfold bind at 1.
  destruct (sendMessage_spec cw (next_message ctx b p) t)
    as (t0 & E0 & Q0 & C0 & N0).
  rewrite E0, R. simpl. eauto.
Qed.

(** Whatever the world does, the loop sends frames of tool calls, then at
    most the frame of the text; an exception comes from the model. *)
Lemma chat_loop_spec (fuel : nat) (cw : ChatWorld) (ctx : StreamContext)
  (b : bool) (p : string) (t : Turn) :
  closed t = false ->
  exists r t' fs,
    chat_loop fuel cw ctx b p t = (r, t') /\ closed t' = false /\
    tool_frames fs /\
    match r with
    | Normal _ => exists text, queue t' = (queue t ++ fs ++ text_frames text)%list
    | Throw e => queue t' = (queue t ++ fs)%list /\ model_rejected cw e
    | Diverge => queue t' = (queue t ++ fs)%list
    end.
Proof.
  revert b p t. induction fuel as [|fuel IH]; intros b p t C.
  - exists Diverge, t, []. simpl. unfold diverge. rewrite app_nil_r.
    repeat split; auto. constructor.
  - destruct (chat_sendMessage cw (sent t) (tick (manager t))
                (next_message ctx b p)) as [resp|e] eqn:R.
    + destruct resp as [[[|call rest]|] text].
      * destruct (@chat_loop_text_round fuel cw ctx b p t _ C R)
          as (t' & E & C' & Q); [now right|].
        exists (Normal tt), t', []. split; [exact E|]. split; [exact C'|].
        split; [constructor|]. simpl in *. eauto.
      * destruct (@chat_loop_tool_round fuel cw ctx b p t call rest text C R)
          as (t1 & fs1 & E1 & C1 & N1 & Q1 & F1 & _).
        destruct (IH false "" t1 C1) as (r & t' & fs & E & C' & F & H).
        exists r, t', (fs1 ++ fs)%list. split; [congruence|].
        split; [exact C'|]. split; [now apply tool_frames_app|].
        rewrite Q1 in H. destruct r as [?|e|].
        -- destruct H as [txt H]. exists txt. rewrite H.
           now rewrite !app_assoc.
        -- destruct H as [H M]. split; [|exact M]. rewrite H.
           now rewrite !app_assoc.
        -- rewrite H. now rewrite !app_assoc.
      * destruct (@chat_loop_text_round fuel cw ctx b p t _ C R)
          as (t' & E & C' & Q); [now left|].
        exists (Normal tt), t', []. split; [exact E|]. split; [exact C'|].
        split; [constructor|]. simpl in *. eauto.
    + destruct (@chat_loop_throw_round fuel cw ctx b p t e R)
        as (t' & E & C' & Q).
      exists (Throw e), t', []. split; [exact E|]. split; [congruence|].
      split; [constructor|]. rewrite app_nil_r. split; [exact Q|].
      right. eauto.
Qed.

Lemma controller_close_open (t : Turn) :
  closed t = false ->
  exists t', controller_close t = (Normal tt, t') /\
    closed t' = true /\ queue t' = queue t.
Proof.
  intro C. unfold controller_close. rewrite C. eexists.
  split; [reflexivity|]. split; reflexivity.
Qed.

(** What [start] does around the loop: it creates the chat, runs the loop,
    and ends the stream with [done], or with [error] after an exception. *)
Lemma start_create_rejected (fuel : nat) (cw : ChatWorld)
  (ctx : StreamContext) (t : Turn) (e : JsThrown) :
  closed t = false ->
  chats_create cw (tick (manager t)) = Rejected e ->
  exists t',
    start fuel cw ctx t = (Normal tt, t') /\ closed t' = true /\
    queue t' =
      (queue t ++ [error_frame (message_or "Internal server error" e)])%list.
Proof.
  intros C R. unfold start, try_catch. unfold bind at 1.
  unfold on_manager at 1. unfold lift, await, ask, bind, ret, throw. simpl.
  rewrite R. simpl.
  unfold on_manager, lift, console_error, emit, modify. simpl.
  match goal with |- context [sendSSE ?ev ?d ?t] =>
    assert (Cx : closed t = false) by exact C;
    rewrite (@sendSSE_open ev d t Cx)
  end.
  match goal with |- context [controller_close ?t] =>
    destruct (@controller_close_open t C) as (t' & E' & C' & Q')
  end.
  rewrite E'. exists t'. repeat split; auto.
Qed.

Lemma start_created (fuel : nat) (cw : ChatWorld) (ctx : StreamContext)
  (t : Turn) (r : Completion unit) (t1 : Turn) :
  closed t = false ->
  chats_create cw (tick (manager t)) = Resolved tt ->
  chat_loop fuel cw ctx true "" (ticked t) = (r, t1) ->
  closed t1 = false ->
  match r with
  | Normal _ =>
      exists t', start fuel cw ctx t = (Normal tt, t') /\
        closed t' = true /\ queue t' = (queue t1 ++ [done_frame])%list
  | Throw e =>
      exists t', start fuel cw ctx t = (Normal tt, t') /\
        closed t' = true /\
        queue t' =
          (queue t1 ++
           [error_frame (message_or "Internal server error" e)])%list
  | Diverge => start fuel cw ctx t = (Diverge, t1)
  end.
Proof.
  intros C R E C1.
  assert (S0 : start fuel cw ctx t =
            try_catch
              (chat_loop fuel cw ctx true "" ;;;
               sendSSE "done" DoneEvent ;;; controller_close)
              (fun error_ =>
                 on_manager (console_error "Chat API error:") ;;;
                 sendSSE "error"
                   (ErrorEvent (message_or "Internal server error" error_)) ;;;
                 controller_close) (ticked t)).
  { unfold start, try_catch. unfold bind at 1.
    unfold on_manager at 1. unfold lift, await, ask, bind, ret, throw. simpl.
    rewrite R. reflexivity. }
  destruct r as [[]|e|]; rewrite S0; unfold try_catch; unfold bind at 1;
    rewrite E.
  - unfold bind. rewrite (@sendSSE_open _ _ _ C1).
    destruct (@controller_close_open (enqueued done_frame t1) C1)
      as (t' & E' & C' & Q').
    change {| event := "done"; data := DoneEvent |} with done_frame.
    rewrite E'. exists t'. repeat split; auto.
  - unfold on_manager, lift, console_error, emit, modify, bind. simpl.
    match goal with |- context [sendSSE ?ev ?d ?t] =>
      assert (Cx : closed t = false) by exact C1;
      rewrite (@sendSSE_open ev d t Cx)
    end.
    match goal with |- context [controller_close ?t] =>
      destruct (@controller_close_open t C1) as (t' & E' & C' & Q')
    end.
    rewrite E'. exists t'. repeat split; auto.
  - reflexivity.
Qed.

(** Whatever the world does, [start] does not throw while the controller is
    open: it ends with frames of tool calls, then the text and [done], or
    [error] after an exception of the model, and closes the stream; or the
    loop is not over within the fuel. *)
Lemma start_spec (fuel : nat) (cw : ChatWorld) (ctx : StreamContext)
  (t : Turn) :
  closed t = false ->
  exists r t' fs,
    start fuel cw ctx t = (r, t') /\ tool_frames fs /\
    match r with
    | Normal _ =>
        closed t' = true /\
        ((exists text,
            queue t' =
              (queue t ++ fs ++ text_frames text ++ [done_frame])%list) \/
         (exists e,
            model_rejected cw e /\
            queue t' =
              (queue t ++ fs ++
               [error_frame (message_or "Internal server error" e)])%list))
    | Throw _ => False
    | Diverge => closed t' = false /\ queue t' = (queue t ++ fs)%list
    end.
Proof.
  intro C.
  destruct (chats_create cw (tick (manager t))) as [[]|e] eqn:R.
  - assert (C0 : closed (ticked t) = false) by exact C.
    destruct (@chat_loop_spec fuel cw ctx true "" (ticked t) C0)
      as (r & t1 & fs & E & C1 & F & H).
    pose proof (@start_created fuel cw ctx t r t1 C R E C1) as S.
    destruct r as [[]|e|].
    + destruct S as (t' & E' & C' & Q'). destruct H as [text H].
      exists (Normal tt), t', fs. split; [exact E'|]. split; [exact F|].
      split; [exact C'|]. left. exists text. rewrite Q', H. simpl.
      now rewrite <- !app_assoc.
    + destruct S as (t' & E' & C' & Q'). destruct H as [H M].
      exists (Normal tt), t', fs. split; [exact E'|]. split; [exact F|].
      split; [exact C'|]. right. exists e. split; [exact M|].
      rewrite Q', H. simpl. now rewrite <- !app_assoc.
    + exists Diverge, t1, fs. split; [exact S|]. split; [exact F|].
      split; [exact C1|exact H].
  - destruct (@start_create_rejected fuel cw ctx t e C R)
      as (t' & E' & C' & Q').
    exists (Normal tt), t', []. split; [exact E'|]. split; [constructor|].
    split; [exact C'|]. right. exists e. split; [left; eauto|exact Q'].
Qed.

(** Among frames of tool calls followed by frames of other events, every
    result comes right after its start. *)
Lemma tool_frames_starts_before (fs tail : list SSEFrame) :
  tool_frames fs ->
  (forall f, In f tail -> event f <> "tool_call_result") ->
  starts_before_results (fs ++ tail).
Proof.
  intros F T. induction F as [|id sid sname n a res err imgs rest F IH].
  - intros i id res err imgs H. simpl in H. apply nth_error_In in H.
    apply T in H. now contradiction H.
  - intros i id' res' err' imgs' H. destruct i as [|[|i]]; simpl in H.
    + discriminate.
    + injection H as <- _ _ _. exists 0. do 4 eexists. split; [lia|].
      reflexivity.
    + destruct (IH _ _ _ _ _ H) as (j & s1 & s2 & s3 & s4 & L & G).
      exists (S (S j)), s1, s2, s3, s4. split; [lia|exact G].
Qed.

Lemma text_done_no_result (text : string) (f : SSEFrame) :
  In f (text_frames text ++ [done_frame])%list ->
  event f <> "tool_call_result".
Proof.
  unfold text_frames. destruct (truthy text); simpl.
  - intros [<-|[<-|[]]]; discriminate.
  - intros [<-|[]]. discriminate.
Qed.

(** In every turn, whatever the world does and however far the turn gets,
    each result of a tool call is preceded by its start. *)
Lemma start_starts_before_results (fuel : nat) (cw : ChatWorld)
  (ctx : StreamContext) (m : Manager) :
  starts_before_results (queue (snd (start fuel cw ctx (new_turn m)))).
Proof.
  destruct (@start_spec fuel cw ctx (new_turn m) eq_refl)
    as (r & t' & fs & E & F & H).
  rewrite E. simpl. destruct r as [[]|e|]; [|contradiction|].
  - destruct H as [_ [[text Q]|(e & _ & Q)]]; rewrite Q; simpl.
    + apply tool_frames_starts_before; auto. apply text_done_no_result.
    + apply tool_frames_starts_before; auto.
      intros f [<-|[]]. discriminate.
  - destruct H as [_ Q]. rewrite Q. simpl.
    rewrite <- (app_nil_r fs).
    apply tool_frames_starts_before; [exact F|]. intros f Hf. destruct Hf.
Qed.

(** Rounds in which the model asks for tools. *)
Lemma chat_loop_tool_rounds (k fuel : nat) (cw : ChatWorld)
  (ctx : StreamContext) (b : bool) (p : string) (t : Turn) :
  closed t = false ->
  (forall round, sent t <= round < sent t + k ->
     exists call rest, model_requests cw round (call :: rest)) ->
  exists b' p' t1 fs,
    chat_loop (k + fuel) cw ctx b p t = chat_loop fuel cw ctx b' p' t1 /\
    closed t1 = false /\ sent t1 = sent t + k /\
    queue t1 = (queue t ++ fs)%list /\ tool_frames fs.
Proof.
  revert b p t. induction k as [|k IH]; intros b p t C H.
  - exists b, p, t, []. rewrite app_nil_r, Nat.add_0_r.
    repeat split; auto. constructor.
  - destruct (H (sent t)) as (call & rest & R); [lia|].
    destruct (R (tick (manager t)) (next_message ctx b p)) as [text R'].
    destruct (@chat_loop_tool_round (k + fuel) cw ctx b p t call rest text
                C R')
      as (t1 & fs1 & E1 & C1 & N1 & Q1 & F1 & _).
    destruct (IH false "" t1 C1) as (b' & p' & t2 & fs & E & C2 & N2 & Q2 & F2).
    { intros round L. apply H. lia. }
    exists b', p', t2, (fs1 ++ fs)%list.
    change (S k + fuel) with (S (k + fuel)). split; [congruence|].
    split; [exact C2|]. split; [lia|]. split.
    + rewrite Q2, Q1. now rewrite app_assoc.
    + now apply tool_frames_app.
Qed.

Lemma tool_rounds_from (cw : ChatWorld) (k : nat) (t : Turn) :
  sent t = 0 -> tool_rounds cw k ->
  forall round, sent t <= round < sent t + k ->
    exists call rest, model_requests cw round (call :: rest).
Proof. intros N H round L. apply H. lia. Qed.


(** A turn in which the model asks for tools for [k] rounds and then
    throws. *)
Lemma turn_ends_with_error (fuel k : nat) (cw : ChatWorld)
  (ctx : StreamContext) (m : Manager) (e : JsThrown) :
  chat_created cw -> tool_rounds cw k -> model_throws cw k e ->
  k < fuel ->
  exists t' fs,
    start fuel cw ctx (new_turn m) = (Normal tt, t') /\ closed t' = true /\
    tool_frames fs /\
    queue t' =
      (fs ++ [error_frame (message_or "Internal server error" e)])%list.
Proof.
  intros Hc Hk Ht L.
  replace fuel with (k + S (fuel - S k)) by lia.
  destruct (@chat_loop_tool_rounds k (S (fuel - S k)) cw ctx true ""
              (ticked (new_turn m)) eq_refl
              (@tool_rounds_from cw k (ticked (new_turn m)) eq_refl Hk))
    as (b' & p' & t1 & fs & E1 & C1 & N1 & Q1 & F1).
  simpl in N1.
  pose proof (Ht (tick (manager t1)) (next_message ctx b' p')) as R.
  rewrite <- N1 in R.
  destruct (@chat_loop_throw_round (fuel - S k) cw ctx b' p' t1 e R)
    as (t2 & E2 & C2 & Q2).
  rewrite E2 in E1.
  assert (C2' : closed t2 = false) by congruence.
  destruct (@start_created (k + S (fuel - S k)) cw ctx (new_turn m)
              (Throw e) t2 eq_refl (Hc _) E1 C2') as (t' & E & C' & Q').
  exists t', fs. split; [exact E|]. split; [exact C'|]. split; [exact F1|].
  rewrite Q', Q2, Q1. reflexivity.
Qed.

Lemma count_event_app (ev : string) (a b : list SSEFrame) :
  count_event ev (a ++ b) = count_event ev a + count_event ev b.
Proof. unfold count_event. now rewrite filter_app, length_app. Qed.

Lemma count_event_cons (ev : string) (f : SSEFrame) (q : list SSEFrame) :
  count_event ev (f :: q) =
    (if String.eqb (event f) ev then 1 else 0) + count_event ev q.
Proof.
  unfold count_event. cbn [filter].
  destruct (String.eqb (event f) ev); reflexivity.
Qed.

Lemma tool_frames_count (ev : string) (fs : list SSEFrame) :
  tool_frames fs ->
  ev <> "tool_call_start" -> ev <> "tool_call_result" ->
  count_event ev fs = 0.
Proof.
  intros F D1 D2. induction F; auto.
  rewrite !count_event_cons, IHF.
  cbn [event tool_call_start_frame tool_call_result_frame].
  assert (X1 : String.eqb "tool_call_start" ev = false)
    by (apply String.eqb_neq; congruence).
  assert (X2 : String.eqb "tool_call_result" ev = false)
    by (apply String.eqb_neq; congruence).
  now rewrite X1, X2.
Qed.

Lemma text_frames_count (ev text : string) :
  ev <> "text" -> count_event ev (text_frames text) = 0.
Proof.
  intro D. unfold text_frames.
  destruct (truthy text); [|reflexivity].
  rewrite count_event_cons. cbn [event text_frame].
  assert (X : String.eqb "text" ev = false)
    by (apply String.eqb_neq; congruence).
  now rewrite X.
Qed.

(** C9. When the call of the model throws, after any number of rounds of
    tool calls, the stream has exactly one [error] frame, which carries
    the message of the exception and is the last frame, and no [done]
    frame; the stream is closed after it. In every turn, whatever the
    world does, there is at most one [error] frame, and where there is one
    there is no [done] frame and the [error] frame is the last one. *)
Theorem fatal_model_failure (fuel k : nat) (cw : ChatWorld)
  (ctx : StreamContext) (m : Manager) (e : JsThrown) :
  chat_created cw -> tool_rounds cw k -> model_throws cw k e -> k < fuel ->
  (exists t',
     start fuel cw ctx (new_turn m) = (Normal tt, t') /\
     closed t' = true /\
     count_event "error" (queue t') = 1 /\
     count_event "done" (queue t') = 0 /\
     last (queue t') done_frame =
       error_frame (message_or "Internal server error" e)) /\
  (forall fuel' cw' ctx' m',
     let q := queue (snd (start fuel' cw' ctx' (new_turn m'))) in
     count_event "error" q <= 1 /\
     (count_event "error" q = 1 ->
      count_event "done" q = 0 /\
      exists message, last q done_frame = error_frame message)).
Proof.
  intros Hc Hk Ht L. split.
  - destruct (turn_ends_with_error ctx m Hc Hk Ht L)
      as (t' & fs & E & C & F & Q).
    exists t'. split; [exact E|]. split; [exact C|]. rewrite Q.
    rewrite !count_event_app, !(tool_frames_count F) by discriminate.
    rewrite last_last. unfold count_event. simpl. repeat split.
  - intros fuel' cw' ctx' m' q. subst q.
    destruct (@start_spec fuel' cw' ctx' (new_turn m') eq_refl)
      as (r & t' & fs & E & F & H).
    rewrite E. simpl. destruct r as [[]|e'|]; [|contradiction|].
    + destruct H as [_ [[text Q]|(e' & _ & Q)]]; rewrite Q; simpl.
      * rewrite !count_event_app, (tool_frames_count F),
          text_frames_count by discriminate.
        unfold count_event. simpl. split; [lia|]. intro X. discriminate X.
      * rewrite !count_event_app, !(tool_frames_count F) by discriminate.
        rewrite last_last. unfold count_event. simpl.
        split; [lia|]. intros _. eauto.
    + destruct H as [_ Q]. rewrite Q. simpl.
      rewrite (tool_frames_count F) by discriminate.
      split; [lia|]. intro X. discriminate X.
Qed.

Lemma tool_frames_two (fs : list SSEFrame) :
  tool_frames fs -> List.length fs = 2 ->
  exists id serverId serverName name arguments result error images,
    fs = [tool_call_start_frame id serverId serverName name arguments;
          tool_call_result_frame id result error images].
Proof.
  intros F L. destruct F as [|id sid sname n a res err imgs rest F];
    [discriminate|].
  destruct rest; [|discriminate]. do 8 eexists. reflexivity.
Qed.

(** C7, the claim as it stands fails: when the text of the second round is
    empty, no [text] frame is sent. *)
Lemma empty_text_has_no_text_frame :
  let cw := Sample.chat Sample.quiet (Sample.one_call_then "") in
  chat_created cw /\
  model_requests cw 0 [Sample.echo_call] /\
  model_replies_text cw 1 "" /\
  map event
    (queue (snd (start 2 cw Sample.context (new_turn Sample.manager_a)))) =
    ["tool_call_start"; "tool_call_result"; "done"].
Proof.
  split; [intro; reflexivity|]. split; [intros tk msg; eexists; reflexivity|].
  split; [|vm_compute; reflexivity].
  intros tk msg. eexists. split; [reflexivity|]. split; [now left|reflexivity].
Qed.

(** C7, amended. When the model asks for one tool call in the first round
    and answers with text in the second, the stream is the start frame of
    the call, its result frame with the same id, the [text] frame if the
    text is not empty, and [done]; the stream is then closed. With a text
    that is not empty the events are exactly tool_call_start,
    tool_call_result, text, done. In every turn, whatever the world does,
    each result frame comes after a start frame with the same id. *)
Theorem one_tool_call_then_text (fuel : nat) (cw : ChatWorld)
  (ctx : StreamContext) (m : Manager) (call : FunctionCall) (text : string) :
  chat_created cw -> model_requests cw 0 [call] ->
  model_replies_text cw 1 text -> 2 <= fuel ->
  (exists t' id serverId serverName name arguments result error images,
     start fuel cw ctx (new_turn m) = (Normal tt, t') /\
     closed t' = true /\
     queue t' =
       ([tool_call_start_frame id serverId serverName name arguments;
         tool_call_result_frame id result error images] ++
        text_frames text ++ [done_frame])%list /\
     (truthy text = true ->
      map event (queue t') =
        ["tool_call_start"; "tool_call_result"; "text"; "done"]) /\
     (truthy text = false ->
      map event (queue t') = ["tool_call_start"; "tool_call_result"; "done"]))
  /\
  (forall fuel' cw' ctx' m',
     starts_before_results
       (queue (snd (start fuel' cw' ctx' (new_turn m'))))).
Proof.
  intros Hc Hr Ht L. split; [|intros; apply start_starts_before_results].
  destruct fuel as [|[|fuel]]; [lia|lia|].
  destruct (Hr (tick (manager (ticked (new_turn m))))
              (next_message ctx true "")) as [txt R].
  destruct (@chat_loop_tool_round (S fuel) cw ctx true ""
              (ticked (new_turn m)) call [] txt eq_refl R)
    as (t1 & fs & E1 & C1 & N1 & Q1 & F1 & L1).
  simpl in N1, Q1, L1.
  destruct (Ht (tick (manager t1)) (next_message ctx false ""))
    as (resp & R1 & Fc & Tx).
  rewrite <- N1 in R1.
  destruct (@chat_loop_text_round fuel cw ctx false "" t1 resp C1 R1 Fc)
    as (t2 & E2 & C2 & Q2).
  rewrite E2 in E1.
  destruct (@start_created (S (S fuel)) cw ctx (new_turn m)
              (Normal tt) t2 eq_refl (Hc _) E1 C2) as (t' & E & C' & Q').
  destruct (tool_frames_two F1 L1)
    as (id & sid & sname & n & a & res & err & imgs & ->).
  exists t', id, sid, sname, n, a, res, err, imgs.
  split; [exact E|]. split; [exact C'|].
  assert (Q : queue t' =
                ([tool_call_start_frame id sid sname n a;
                  tool_call_result_frame id res err imgs] ++
                 text_frames text ++ [done_frame])%list).
  { rewrite Q', Q2, Q1, Tx. now rewrite <- !app_assoc. }
  split; [exact Q|]. rewrite Q. unfold text_frames.
  split; intro T; rewrite T; reflexivity.
Qed.



(** ** The names of the tools *)

Lemma prefix_append (p s : string) : prefix p (p ++ s) = true.
Proof.
  induction p as [|c p IH]; simpl.
  - now destruct s.
  - destruct (ascii_dec c c); [exact IH|congruence].
Qed.

Lemma drop_append (p s : string) : drop (String.length p) (p ++ s) = s.
Proof. induction p as [|c p IH]; simpl; auto. Qed.

Lemma String_replace_unfold (pat rep s : string) :
  String_replace pat rep s =
    if prefix pat s then rep ++ drop (String.length pat) s
    else match s with
         | EmptyString => EmptyString
         | String c s' => String c (String_replace pat rep s')
         end.
Proof. destruct s; reflexivity. Qed.

(** Removing the first occurrence of a prefix removes that prefix. *)
Lemma String_replace_prefix (p s : string) : String_replace p "" (p ++ s) = s.
Proof.
  rewrite String_replace_unfold, prefix_append, drop_append. reflexivity.
Qed.

Lemma actualToolName_prefixed (serverId toolName serverName : string) :
  actualToolName
    {| info_serverId := serverId; info_serverName := serverName |}
    (prefixedName serverId toolName) = toolName.
Proof.
  unfold actualToolName, prefixedName. cbn [info_serverId].
  rewrite <- append_assoc. apply String_replace_prefix.
Qed.

Lemma unprefix_entry (tm : JSMap.t ServerInfo) (serverId toolName : string)
  (info : ServerInfo) :
  JSMap.get (prefixedName serverId toolName) tm = Some info ->
  info_serverId info = serverId ->
  unprefix tm (prefixedName serverId toolName) = Some (serverId, toolName).
Proof.
  intros G <-. unfold unprefix. rewrite G. destruct info as [sid sname].
  simpl. now rewrite actualToolName_prefixed.
Qed.

(** Ids without underscore: the prefixed name determines id and tool. *)
Lemma prefixedName_injective (s s' t t' : string) :
  lacks "_" s = true -> lacks "_" s' = true ->
  prefixedName s t = prefixedName s' t' -> s = s' /\ t = t'.
Proof.
  unfold prefixedName, separator. revert s'.
  induction s as [|c s IH]; intros [|c' s'] L L' E; simpl in *.
  - injection E as ->. auto.
  - injection E as <- _. discriminate.
  - injection E as -> _. discriminate.
  - injection E as <- E.
    apply andb_true_iff in L. apply andb_true_iff in L'.
    destruct (IH s' (proj2 L) (proj2 L') E) as [-> ->]. auto.
Qed.

Lemma plain_id_tail (c : ascii) (s : string) :
  plain_id (String c s) = true -> plain_id s = true.
Proof.
  unfold plain_id, separator. intro H. apply andb_true_iff in H.
  destruct H as [H1 H2]. apply negb_true_iff in H1, H2.
  apply andb_true_iff. split; apply negb_true_iff.
  - change (includes "__" (String c s))
      with (if prefix "__" (String c s) then true else includes "__" s)
      in H1.
    destruct (prefix "__" (String c s)); [discriminate|]. exact H1.
  - destruct s as [|a s]; [reflexivity|]. exact H2.
Qed.

(** An id that is the separator, or an underscore, followed by more is
    not plain. *)
Lemma plain_id_after_empty (r t t' : string) (c : ascii) :
  plain_id (String c r) = true ->
  "__" ++ t = String c r ++ "__" ++ t' -> False.
Proof.
  unfold plain_id, separator. intros H E. apply andb_true_iff in H.
  destruct H as [H1 H2]. apply negb_true_iff in H1, H2.
  simpl in E. injection E as <- E.
  destruct r as [|c2 r].
  - simpl in H2. discriminate.
  - simpl in E. injection E as <- E. simpl in H1.
    destruct r; discriminate.
Qed.

(** Ids that are plain: the prefixed name determines id and tool,
    whatever the tool names are. *)
Lemma prefixedName_injective_plain (s s' t t' : string) :
  plain_id s = true -> plain_id s' = true ->
  prefixedName s t = prefixedName s' t' -> s = s' /\ t = t'.
Proof.
  unfold prefixedName, separator. revert s'.
  induction s as [|c s IH]; intros [|c' s'] P P' E.
  - simpl in E. injection E as ->. auto.
  - exfalso. exact (@plain_id_after_empty _ _ _ _ P' E).
  - exfalso. symmetry in E. exact (@plain_id_after_empty _ _ _ _ P E).
  - simpl in E. injection E as <- E.
    destruct (IH s' (@plain_id_tail _ _ P) (@plain_id_tail _ _ P') E) as [-> ->].
    auto.
Qed.

Lemma prefix_head_neq (a c : ascii) (p s : string) :
  a <> c -> prefix (String a p) (String c s) = false.
Proof.
  intro D. cbn [prefix]. destruct (ascii_dec a c); [contradiction|reflexivity].
Qed.

Lemma lacks_plain_id (s : string) : lacks "_" s = true -> plain_id s = true.
Proof.
  unfold plain_id, separator. intro L. apply andb_true_iff.
  split; apply negb_true_iff.
  - induction s as [|c s IH]; [reflexivity|].
    cbn [lacks] in L. apply andb_true_iff in L. destruct L as [Lc Ls].
    apply negb_true_iff in Lc.
    change (includes "__" (String c s))
      with (if prefix "__" (String c s) then true else includes "__" s).
    rewrite prefix_head_neq.
    + now apply IH.
    + intros <-. rewrite Ascii.eqb_refl in Lc. discriminate.
  - induction s as [|c s IH]; [reflexivity|].
    cbn [lacks] in L. apply andb_true_iff in L. destruct L as [Lc Ls].
    apply negb_true_iff in Lc.
    destruct s as [|a s]; [exact Lc|]. now apply IH.
Qed.


Lemma collect_tool_sound (serverId serverName : string)
  (acc : list ToolEntry * JSMap.t ServerInfo) (tool : MCPTool) :
  names_sound acc -> names_sound (collect_tool serverId serverName acc tool).
Proof.
  destruct acc as [allTools tm]. intros [Hm He]. unfold collect_tool.
  split; simpl in *.
  - intros key info G.
    destruct (string_dec key (prefixedName serverId (tool_name tool)))
      as [->|D].
    + rewrite get_set_same in G. injection G as <-. simpl. eauto.
    + rewrite get_set_other in G by assumption. eauto.
  - intros entry I. apply in_app_or in I. destruct I as [I|[<-|[]]].
    + destruct (He entry I) as (toolName & E & G). exists toolName.
      split; [exact E|].
      destruct (string_dec (tool_name (entry_tool entry))
                  (prefixedName serverId (tool_name tool))) as [->|D].
      * now rewrite get_set_same.
      * now rewrite get_set_other.
    + simpl. exists (tool_name tool). split; [reflexivity|].
      now rewrite get_set_same.
Qed.

Lemma fold_collect_tool_sound (serverId serverName : string)
  (tools : list MCPTool) (acc : list ToolEntry * JSMap.t ServerInfo) :
  names_sound acc ->
  names_sound (fold_left (collect_tool serverId serverName) tools acc).
Proof.
  revert acc. induction tools as [|tool tools IH]; intros acc H; simpl; auto.
  apply IH. now apply collect_tool_sound.
Qed.

(** The collection of the tools of one server does not throw. *)
Lemma collect_server_sound (w : World)
  (acc : list ToolEntry * JSMap.t ServerInfo) (s : string) (m : Manager) :
  names_sound acc ->
  exists acc' m',
    collect_server w acc s m = (Normal acc', m') /\ names_sound acc'.
Proof.
  intro H. unfold collect_server, try_catch. unfold bind at 1.
  destruct (listTools w s m) as [[tools|e|] m1] eqn:E.
  - unfold getConnectionState. unmonad.
    destruct (JSMap.get s (clients m1)); simpl;
      do 2 eexists; (split; [reflexivity|]);
      now apply fold_collect_tool_sound.
  - unmonad. simpl. do 2 eexists. split; [reflexivity|]. exact H.
  - exfalso. revert E. unfold listTools. unmonad.
    destruct (getClient s m) as [[[c|]|e|] m0] eqn:G; try discriminate.
    + simpl. destruct (client_listTools w (tick m0) c); discriminate.
    + revert G. unfold getClient. unmonad.
      destruct (JSMap.get s (clients m)); [|discriminate].
      destruct (negb _); discriminate.
Qed.

Lemma collect_servers_sound (w : World) (ids : list string)
  (acc : list ToolEntry * JSMap.t ServerInfo) (m : Manager) :
  names_sound acc ->
  exists acc' m',
    collect_servers w ids acc m = (Normal acc', m') /\ names_sound acc'.
Proof.
  revert acc m. induction ids as [|s ids IH]; intros acc m H; simpl.
  - exists acc, m. split; [reflexivity|exact H].
  - destruct (collect_server_sound w s m H) as (acc1 & m1 & E & H1).
    unfold bind. rewrite E. now apply IH.
Qed.

Lemma collectTools_sound (w : World) (m : Manager) :
  exists acc m', collectTools w m = (Normal acc, m') /\ names_sound acc.
Proof.
  unfold collectTools. unfold bind at 1. unfold getConnectedServerIds, gets.
  apply collect_servers_sound. split; simpl.
  - intros key info G. discriminate.
  - intros entry [].
Qed.

(** C1. The names do not always lead back: with the servers [a] and [a_]
    connected, the tool [_c] of [a], whose name does not contain the
    separator, is exposed as [a___c], and so is the tool [c] of [a_]; the
    map keeps one entry for the name, and the name is resolved to [a_]
    and [c], not to [a] and [_c]. The prefix is meant to keep the names
    of the tools of different servers apart, but no server id is
    refused. *)
Lemma colliding_names_resolve_to_last :
  includes separator "_c" = false /\
  exists allTools tm m',
    collectTools Sample.twins Sample.manager_twins =
      (Normal (allTools, tm), m') /\
    map (fun e => (entry_serverId e, tool_name (entry_tool e))) allTools =
      [("a", prefixedName "a" "_c"); ("a_", prefixedName "a_" "c")] /\
    unprefix tm (prefixedName "a" "_c") = Some ("a_", "c") /\
    unprefix tm (prefixedName "a" "_c") <> Some ("a", "_c").
Proof.
  split; [reflexivity|]. do 3 eexists. split; [vm_compute; reflexivity|].
  split; [reflexivity|]. split; [reflexivity|]. discriminate.
Qed.

(** What does hold of the names. The name under which the tool
    [toolName] of the server [serverId] is exposed is the id, the
    separator and the tool name, whether or not the tool name contains
    the separator. Once it is entered in the map of the tools, and as long
    as the entry of that name is the one of [serverId], the name is
    resolved to exactly [serverId] and [toolName]. Two servers whose ids
    neither contain the separator nor end with an underscore never expose
    the same name, whatever their tools are called. The collection of the
    tools of the connected servers does not throw; every tool it offers
    has such a name, and every name in its map is resolved to the server
    of its entry and to a tool name that gives back the name. *)
Theorem name_round_trip (serverId toolName : string) :
  prefixedName serverId toolName = serverId ++ "__" ++ toolName /\
  (forall serverName tm,
     unprefix
       (JSMap.set (prefixedName serverId toolName)
          {| info_serverId := serverId; info_serverName := serverName |} tm)
       (prefixedName serverId toolName) = Some (serverId, toolName)) /\
  (forall tm info,
     JSMap.get (prefixedName serverId toolName) tm = Some info ->
     info_serverId info = serverId ->
     unprefix tm (prefixedName serverId toolName) =
       Some (serverId, toolName)) /\
  (forall serverId' toolName',
     plain_id serverId = true -> plain_id serverId' = true ->
     prefixedName serverId toolName = prefixedName serverId' toolName' ->
     serverId = serverId' /\ toolName = toolName') /\
  (forall w m, exists allTools tm m',
     collectTools w m = (Normal (allTools, tm), m') /\
     (forall entry, In entry allTools ->
        exists original,
          tool_name (entry_tool entry) =
            prefixedName (entry_serverId entry) original /\
          JSMap.get (tool_name (entry_tool entry)) tm <> None) /\
     (forall key info, JSMap.get key tm = Some info ->
        exists original,
          key = prefixedName (info_serverId info) original /\
          unprefix tm key = Some (info_serverId info, original))).
Proof.
  split; [reflexivity|]. split; [|split; [|split]].
  - intros serverName tm. eapply unprefix_entry.
    + apply get_set_same.
    + reflexivity.
  - intros tm info. apply unprefix_entry.
  - intros serverId' toolName'. apply prefixedName_injective_plain.
  - intros w m.
    destruct (collectTools_sound w m) as ([allTools tm] & m' & E & Hm & He).
    exists allTools, tm, m'. split; [exact E|]. split; [exact He|].
    intros key info G. destruct (Hm key info G) as [original ->].
    exists original. split; [reflexivity|].
    now apply (unprefix_entry _ _ G).
Qed.

(** ** The theorems at concrete inputs *)

Lemma name_round_trip_witness :
  unprefix
    (JSMap.set (prefixedName "mcp-1-x7" "read__file")
       {| info_serverId := "mcp-1-x7"; info_serverName := "mcp-1-x7" |}
       JSMap.empty)
    "mcp-1-x7__read__file" = Some ("mcp-1-x7", "read__file").
Proof.
  exact (proj1 (proj2 (name_round_trip "mcp-1-x7" "read__file"))
           "mcp-1-x7" JSMap.empty).
Defined.

Lemma connect_never_raises_witness :
  reachable new_manager /\
  exists r m',
    connect Sample.quiet (Sample.stdio_config "a") new_manager =
      (Normal r, m') /\
    reports_connected m' r /\
    connectedAt (cells m' r) = Some 1001.
Proof.
  split; [exact reachable_new|].
  destruct (connect_never_raises Sample.quiet (Sample.stdio_config "a")
              reachable_new) as (r & m' & E & _ & _ & _ & H & _).
  assert (N : ~ has_connected new_manager (id (Sample.stdio_config "a")))
    by (intros (inst & G & _); discriminate G).
  destruct (proj1 (H N) (StdioClientTransport "node" [] None)
              eq_refl eq_refl) as (A & B & _).
  exists r, m'. split; [exact E|]. split; [exact A|].
  rewrite B. reflexivity.
Defined.

Lemma connect_is_idempotent_witness :
  connected_instance Sample.manager_a "a" Sample.instance_a /\
  connect (Sample.failing JsNonError) (Sample.stdio_config "a")
    Sample.manager_a = (Normal 0, Sample.manager_a).
Proof.
  assert (H : connected_instance Sample.manager_a
                (id (Sample.stdio_config "a")) Sample.instance_a)
    by (split; reflexivity).
  split; [exact H|].
  exact (proj1 (connect_is_idempotent (Sample.failing JsNonError)
                  (Sample.stdio_config "a") H)).
Defined.

Lemma not_connected_or_request_witness :
  new_effects Sample.manager_a
    (snd (listTools Sample.quiet "a" Sample.manager_a)) =
    [EvRequest (client Sample.instance_a) ReqListTools] /\
  callTool Sample.quiet "b" "echo" None Sample.manager_a =
    (Throw (JsError "Server b is not connected"), Sample.manager_a).
Proof.
  destruct (not_connected_or_request Sample.quiet "a" "echo" None
              Sample.manager_a) as [Hc _].
  destruct (not_connected_or_request Sample.quiet "b" "echo" None
              Sample.manager_a) as [_ Hn].
  split.
  - apply (Hc Sample.instance_a). split; reflexivity.
  - apply Hn. intros (inst & G & _). discriminate G.
Defined.

Lemma extract_normalizes_witness :
  let result :=
    {| content := Some [TextContent "a"; ImageContent "iVBORw0KGgo=" "image/png";
                        TextContent "b"];
       isError := None |} in
  output_content (extract result) = "a" ++ LF ++ "b" /\
  List.length (images (extract result)) = 1.
Proof.
  intro result.
  destruct (extract_normalizes result) as (_ & _ & _ & _ & H).
  apply (H "a" "b" "iVBORw0KGgo=" "image/png"); reflexivity.
Defined.

Lemma one_tool_call_then_text_witness :
  let cw := Sample.chat Sample.quiet (Sample.one_call_then "hi") in
  (chat_created cw /\ model_requests cw 0 [Sample.echo_call] /\
   model_replies_text cw 1 "hi" /\ 2 <= 2) /\
  exists t',
    start 2 cw Sample.context (new_turn Sample.manager_a) = (Normal tt, t') /\
    map event (queue t') =
      ["tool_call_start"; "tool_call_result"; "text"; "done"].
Proof.
  intro cw.
  assert (H1 : chat_created cw) by (intro; reflexivity).
  assert (H2 : model_requests cw 0 [Sample.echo_call])
    by (intros tk msg; eexists; reflexivity).
  assert (H3 : model_replies_text cw 1 "hi")
    by (intros tk msg; eexists; split; [reflexivity|];
        split; [now left|reflexivity]).
  assert (H4 : 2 <= 2) by lia.
  split; [repeat split; assumption|].
  destruct (one_tool_call_then_text Sample.context Sample.manager_a
              H1 H2 H3 H4) as [(t' & i & s & sn & n & a & r & e & im &
                                E & _ & _ & T & _) _].
  exists t'. split; [exact E|]. apply T. reflexivity.
Defined.


Lemma fatal_model_failure_witness :
  let cw := Sample.chat Sample.quiet
              (Sample.one_call_then_throw (JsError "quota")) in
  (chat_created cw /\ tool_rounds cw 1 /\ model_throws cw 1 (JsError "quota"))
  /\
  exists t',
    start 5 cw Sample.context (new_turn Sample.manager_a) = (Normal tt, t') /\
    count_event "error" (queue t') = 1 /\
    count_event "done" (queue t') = 0 /\
    last (queue t') done_frame = error_frame "quota".
Proof.
  intro cw.
  assert (H1 : chat_created cw) by (intro; reflexivity).
  assert (H2 : tool_rounds cw 1).
  { intros round L. exists Sample.echo_call, [].
    destruct round as [|round]; [|lia].
    intros tk msg. eexists. reflexivity. }
  assert (H3 : model_throws cw 1 (JsError "quota"))
    by (intros tk msg; reflexivity).
  assert (H4 : 1 < 5) by lia.
  split; [repeat split; assumption|].
  destruct (fatal_model_failure Sample.context Sample.manager_a H1 H2 H3 H4)
    as [(t' & E & _ & N1 & N2 & Lst) _].
  exists t'. repeat split; assumption.
Defined.

Lemma registry_invariant_witness :
  reachable Sample.manager_a /\
  (forall k inst,
     JSMap.get k (clients Sample.manager_a) = Some inst ->
     status (cells Sample.manager_a (state inst)) =
       ConnectionStatus.connected).
Proof.
  assert (R : reachable Sample.manager_a)
    by exact (reachable_perform Sample.quiet
                (OpConnect (Sample.stdio_config "a")) reachable_new).
  split; [exact R|]. exact (proj1 (registry_invariant R)).
Defined.


(** * Further properties of the client manager *)

Lemma getPrompt_connected (w : World) (s promptName : string)
  (args : option (list (string * string))) (m : Manager)
  (inst : ClientInstance) :
  connected_instance m s inst ->
  fst (getPrompt w s promptName args m) =
    completion_of (client_getPrompt w (tick m) (client inst) promptName args)
  /\
  new_effects m (snd (getPrompt w s promptName args m)) =
    [EvRequest (client inst) (ReqGetPrompt promptName args)].
Proof.
  intro H. unfold getPrompt. unmonad. rewrite (getClient_connected H). simpl.
  destruct (client_getPrompt w (tick m) (client inst) promptName args);
    simpl; split; auto; now apply new_effects_app.
Qed.

Lemma readResource_connected (w : World) (s u : string) (m : Manager)
  (inst : ClientInstance) :
  connected_instance m s inst ->
  fst (readResource w s u m) =
    completion_of (client_readResource w (tick m) (client inst) u) /\
  new_effects m (snd (readResource w s u m)) =
    [EvRequest (client inst) (ReqReadResource u)].
Proof.
  intro H. unfold readResource. unmonad. rewrite (getClient_connected H).
  simpl.
  destruct (client_readResource w (tick m) (client inst) u);
    simpl; split; auto; now apply new_effects_app.
Qed.

(** X1. [getPrompt] and [readResource] send exactly one request through
    the client of a connected instance and end as the server answers,
    with its result untouched; without a connected instance they throw the
    error that says that the server is not connected and send nothing. *)
Theorem prompt_and_resource_need_connection (w : World)
  (s promptName u : string) (args : option (list (string * string)))
  (m : Manager) :
  (forall inst, connected_instance m s inst ->
     (fst (getPrompt w s promptName args m) =
        completion_of
          (client_getPrompt w (tick m) (client inst) promptName args) /\
      new_effects m (snd (getPrompt w s promptName args m)) =
        [EvRequest (client inst) (ReqGetPrompt promptName args)]) /\
     (fst (readResource w s u m) =
        completion_of (client_readResource w (tick m) (client inst) u) /\
      new_effects m (snd (readResource w s u m)) =
        [EvRequest (client inst) (ReqReadResource u)])) /\
  (~ has_connected m s ->
     getPrompt w s promptName args m =
       (Throw (JsError ("Server " ++ s ++ " is not connected")), m) /\
     readResource w s u m =
       (Throw (JsError ("Server " ++ s ++ " is not connected")), m)).
Proof.
  split.
  - intros inst H. split.
    + now apply getPrompt_connected.
    + now apply readResource_connected.
  - intro N. unfold getPrompt, readResource. unmonad.
    now rewrite (getClient_not_connected N).
Qed.

(** *** The keys of the map *)

Lemma keys_set_present {V : Type} (m : JSMap.t V) (k : string) (v : V) :
  In k (JSMap.keys m) -> JSMap.keys (JSMap.set k v m) = JSMap.keys m.
Proof.
  induction m as [|[k' v'] m IH]; simpl; [contradiction|].
  destruct (String.eqb k k') eqn:E; simpl; auto.
  intros [->|I].
  - now rewrite String.eqb_refl in E.
  - now rewrite IH.
Qed.

Lemma keys_set_absent {V : Type} (m : JSMap.t V) (k : string) (v : V) :
  ~ In k (JSMap.keys m) ->
  JSMap.keys (JSMap.set k v m) = (JSMap.keys m ++ [k])%list.
Proof.
  induction m as [|[k' v'] m IH]; simpl; auto.
  intro N. destruct (String.eqb k k') eqn:E; simpl.
  - apply String.eqb_eq in E. subst k'. exfalso. auto.
  - rewrite IH; auto.
Qed.

Lemma in_keys_get {V : Type} (m : JSMap.t V) (k : string) :
  In k (JSMap.keys m) <-> JSMap.get k m <> None.
Proof.
  induction m as [|[k' v'] m IH]; simpl.
  - split; [contradiction|congruence].
  - destruct (String.eqb k k') eqn:E.
    + apply String.eqb_eq in E. subst k'. split; [discriminate|auto].
    + apply String.eqb_neq in E. rewrite <- IH. split.
      * intros [->|I]; [congruence|exact I].
      * auto.
Qed.

Lemma keys_delete {V : Type} (m : JSMap.t V) (k : string) :
  JSMap.keys (JSMap.delete k m) =
    filter (fun k' => negb (String.eqb k k')) (JSMap.keys m).
Proof.
  induction m as [|[k' v'] m IH]; simpl; auto.
  destruct (String.eqb k k'); simpl; now rewrite IH.
Qed.

Lemma NoDup_filter {A : Type} (f : A -> bool) (l : list A) :
  NoDup l -> NoDup (filter f l).
Proof.
  induction 1 as [|x l N _ IH]; simpl; [constructor|].
  destruct (f x); auto. constructor; auto.
  intro I. apply filter_In in I. tauto.
Qed.

Lemma NoDup_keys_set {V : Type} (m : JSMap.t V) (k : string) (v : V) :
  NoDup (JSMap.keys m) -> NoDup (JSMap.keys (JSMap.set k v m)).
Proof.
  intro N. destruct (in_dec string_dec k (JSMap.keys m)) as [I|I].
  - now rewrite keys_set_present.
  - rewrite keys_set_absent by assumption.
    apply NoDup_app; [exact N|repeat constructor; auto|].
    intros x Hx [<-|[]]. contradiction.
Qed.

Lemma NoDup_keys_delete {V : Type} (m : JSMap.t V) (k : string) :
  NoDup (JSMap.keys m) -> NoDup (JSMap.keys (JSMap.delete k m)).
Proof. intro N. rewrite keys_delete. now apply NoDup_filter. Qed.

Lemma in_entries_get {V : Type} (m : JSMap.t V) (k : string) (v : V) :
  NoDup (JSMap.keys m) -> In (k, v) m -> JSMap.get k m = Some v.
Proof.
  induction m as [|[k' v'] m IH]; simpl; [contradiction|].
  intros N I. inversion N as [|? ? Nin N']; subst.
  destruct I as [E|I].
  - injection E as -> ->. now rewrite String.eqb_refl.
  - destruct (String.eqb k k') eqn:E.
    + apply String.eqb_eq in E. subst k'. exfalso. apply Nin.
      change k with (fst (k, v)). now apply in_map.
    + now apply IH.
Qed.

Lemma getConnectionState_clients (s : string) (m : Manager) :
  clients (snd (getConnectionState s m)) = clients m.
Proof.
  unfold getConnectionState. unmonad.
  destruct (JSMap.get s (clients m)); reflexivity.
Qed.

Lemma establish_keys (w : World) (config : MCPServerConfig) (m : Manager) :
  NoDup (JSMap.keys (clients m)) ->
  NoDup (JSMap.keys (clients (snd (establish w config m)))).
Proof.
  intro N. destruct (establish_spec w config m)
    as (m' & E & _ & _ &
        [(tr & _ & _ & _ & t & _ & _ & Hc & _)|(e & Hc & _)]);
    rewrite E; simpl; rewrite Hc; auto.
  now apply NoDup_keys_set.
Qed.

Lemma disconnect_keys (w : World) (s : string) (m : Manager) :
  NoDup (JSMap.keys (clients m)) ->
  NoDup (JSMap.keys (clients (snd (disconnect w s m)))).
Proof.
  intro N. destruct (disconnect_spec w s m) as (m' & E & Hc & _).
  rewrite E. simpl. rewrite Hc. now apply NoDup_keys_delete.
Qed.

Lemma for_of_disconnect_keys (w : World) (ids : list string) (m : Manager) :
  NoDup (JSMap.keys (clients m)) ->
  NoDup (JSMap.keys (clients (snd (for_of ids (disconnect w) m)))).
Proof.
  revert m. induction ids as [|s ids IH]; intros m N; [exact N|].
  simpl. unfold bind. pose proof (@disconnect_keys w s m N) as N'.
  destruct (disconnect_spec w s m) as (m' & E & _). rewrite E in *.
  now apply IH.
Qed.

Lemma perform_keys (w : World) (op : Operation) (m : Manager) :
  NoDup (JSMap.keys (clients m)) ->
  NoDup (JSMap.keys (clients (perform w op m))).
Proof.
  intro N. destruct op; simpl.
  - unfold connect. unfold bind at 1. unfold clients_get, gets.
    destruct (JSMap.get (id config0) (clients m)) as [inst|].
    + unfold bind at 1. unfold read, gets.
      destruct (ConnectionStatus.eqb _ _); [exact N|].
      unfold bind. pose proof (@disconnect_keys w (id config0) m N) as N'.
      destruct (disconnect_spec w (id config0) m) as (m' & E & _).
      rewrite E in *. now apply establish_keys.
    + now apply establish_keys.
  - now apply disconnect_keys.
  - now rewrite getConnectionState_clients.
  - destruct (has_connected_dec m serverId0) as [(inst & H)|H].
    + now rewrite (getClient_connected H).
    + now rewrite (getClient_not_connected H).
  - now rewrite (proj1 (listTools_same_store w serverId0 m)).
  - now rewrite (proj1 (listPrompts_same_store w serverId0 m)).
  - now rewrite (proj1 (listResources_same_store w serverId0 m)).
  - now rewrite (proj1 (callTool_same_store w serverId0 toolName args0 m)).
  - now rewrite (proj1 (getPrompt_same_store w serverId0 promptName args0 m)).
  - now rewrite (proj1 (readResource_same_store w serverId0 uri0 m)).
  - exact N.
  - unfold disconnectAll, bind, gets. now apply for_of_disconnect_keys.
Qed.

Lemma reachable_keys (m : Manager) :
  reachable m -> NoDup (JSMap.keys (clients m)).
Proof.
  induction 1 as [|w op m _ IH]; [constructor|now apply perform_keys].
Qed.

Lemma reachable_connect (w : World) (config : MCPServerConfig) (m : Manager) :
  reachable m -> reachable (snd (connect w config m)).
Proof. exact (@reachable_perform w (OpConnect config) m). Qed.

Lemma reachable_disconnect (w : World) (s : string) (m : Manager) :
  reachable m -> reachable (snd (disconnect w s m)).
Proof. exact (@reachable_perform w (OpDisconnect s) m). Qed.

Lemma filter_all {A : Type} (f : A -> bool) (l : list A) :
  (forall x, In x l -> f x = true) -> filter f l = l.
Proof.
  induction l as [|x l IH]; simpl; auto. intro H.
  rewrite (H x) by auto. rewrite IH; auto.
Qed.

(** X2. In every manager that the operations produce, no server id has
    two entries, and [getConnectedServerIds] returns all the ids of the
    map, in the order in which they were entered: an id is in the result
    exactly when the server has a connected instance. It changes
    nothing. *)
Theorem connected_ids_are_the_keys (m : Manager) :
  reachable m ->
  getConnectedServerIds m = (Normal (JSMap.keys (clients m)), m) /\
  NoDup (JSMap.keys (clients m)) /\
  (forall s, In s (JSMap.keys (clients m)) <-> has_connected m s).
Proof.
  intro R. pose proof (reachable_ok R) as Ok.
  pose proof (reachable_keys R) as N. split; [|split; [exact N|]].
  - unfold getConnectedServerIds, gets, JSMap.entries, JSMap.keys.
    rewrite filter_all; [reflexivity|].
    intros [k inst] I. simpl. apply status_eqb_eq.
    apply (Ok k inst). now apply in_entries_get.
  - intro s. rewrite in_keys_get. split.
    + intro G. destruct (JSMap.get s (clients m)) as [inst|] eqn:E;
        [|congruence].
      exists inst. split; auto. now apply (Ok s inst).
    + intros (inst & G & _). congruence.
Qed.

Lemma connected_ids_are_the_keys_witness :
  reachable Sample.manager_twins /\
  getConnectedServerIds Sample.manager_twins =
    (Normal ["a"; "a_"], Sample.manager_twins).
Proof.
  assert (R : reachable Sample.manager_twins)
    by (unfold Sample.manager_twins; do 2 apply reachable_connect;
        exact reachable_new).
  split; [exact R|]. rewrite (proj1 (connected_ids_are_the_keys R)).
  vm_compute. reflexivity.
Defined.

(** *** Disconnecting everything *)

Lemma closes_app (a b : list Effect) :
  closes (a ++ b) = (closes a ++ closes b)%list.
Proof.
  induction a as [|e a IH]; simpl; auto. destruct e; simpl; now rewrite IH.
Qed.

Lemma new_effects_trans (m1 m2 m3 : Manager) (a b : list Effect) :
  trace m2 = (trace m1 ++ a)%list -> trace m3 = (trace m2 ++ b)%list ->
  trace m3 = (trace m1 ++ a ++ b)%list.
Proof. intros -> ->. now rewrite app_assoc. Qed.

(** What [disconnect] does to an entry: it closes its client once, and
    removes it. *)
Lemma disconnect_present (w : World) (s : string) (m : Manager)
  (inst : ClientInstance) :
  JSMap.get s (clients m) = Some inst ->
  exists m' l, disconnect w s m = (Normal tt, m') /\
    clients m' = JSMap.delete s (clients m) /\
    trace m' = (trace m ++ l)%list /\ closes l = [client inst].
Proof.
  intro G. unfold disconnect. unmonad. rewrite G. simpl.
  destruct (client_close w (tick m) (client inst)) as [[]|e]; simpl.
  - do 2 eexists. split; [reflexivity|]. simpl. split; [reflexivity|].
    split; reflexivity.
  - eexists. exists [EvClientClose (client inst);
                     EvConsoleError ("Error closing client " ++ s ++ ":")].
    split; [reflexivity|]. simpl. split; [reflexivity|].
    split; [now rewrite <- app_assoc|reflexivity].
Qed.

Lemma delete_head_fresh {V : Type} (m : JSMap.t V) (k : string) :
  ~ In k (JSMap.keys m) -> JSMap.delete k m = m.
Proof.
  intro N. apply delete_absent.
  destruct (JSMap.get k m) eqn:G; auto.
  exfalso. apply N. apply in_keys_get. congruence.
Qed.

Lemma for_of_disconnect_all (w : World) (entries : JSMap.t ClientInstance) :
  forall m, clients m = entries -> NoDup (JSMap.keys entries) ->
  exists m' l,
    for_of (JSMap.keys entries) (disconnect w) m = (Normal tt, m') /\
    clients m' = [] /\ cells m' = cells m /\
    trace m' = (trace m ++ l)%list /\
    closes l = map (fun entry => client (snd entry)) entries.
Proof.
  induction entries as [|[k inst] entries IH]; intros m Hc N.
  - exists m, []. simpl. unfold ret. rewrite app_nil_r. auto.
  - simpl. inversion N as [|? ? Nin N']; subst.
    assert (G : JSMap.get k (clients m) = Some inst)
      by (rewrite Hc; simpl; now rewrite String.eqb_refl).
    destruct (@disconnect_present w k m inst G) as (m1 & l1 & E1 & Hc1 & T1 & C1).
    destruct (disconnect_spec w k m) as (m1' & E1' & _ & Hh & _).
    rewrite E1 in E1'. injection E1' as <-.
    unfold bind. rewrite E1.
    assert (Hc1' : clients m1 = entries).
    { rewrite Hc1, Hc. simpl. rewrite String.eqb_refl.
      now apply delete_head_fresh. }
    destruct (IH m1 Hc1' N') as (m' & l & E & Hc' & Hh' & T & C).
    exists m', (l1 ++ l)%list. split; [exact E|]. split; [exact Hc'|].
    split; [congruence|]. split.
    + rewrite T, T1. now rewrite app_assoc.
    + rewrite closes_app, C1, C. reflexivity.
Qed.

(** X3. [disconnectAll] does not throw, whatever closing the clients
    does; it closes the client of every entry once, in the order of the
    map, leaves the map empty and the state objects as they were; after
    it no server id is connected. *)
Theorem disconnectAll_empties_the_map (w : World) (m : Manager) :
  reachable m ->
  exists m',
    disconnectAll w m = (Normal tt, m') /\
    clients m' = [] /\ cells m' = cells m /\
    closes (new_effects m m') =
      map (fun entry => client (snd entry)) (clients m) /\
    getConnectedServerIds m' = (Normal [], m').
Proof.
  intro R. pose proof (reachable_keys R) as N.
  destruct (@for_of_disconnect_all w (clients m) m eq_refl N)
    as (m' & l & E & Hc & Hh & T & C).
  exists m'. unfold disconnectAll, bind, gets. split; [exact E|].
  split; [exact Hc|]. split; [exact Hh|]. split.
  - now rewrite (@new_effects_app m m' l T).
  - unfold getConnectedServerIds, gets, JSMap.entries. now rewrite Hc.
Qed.

Lemma disconnectAll_empties_the_map_witness :
  reachable Sample.manager_twins /\
  exists m',
    disconnectAll (Sample.failing JsNonError) Sample.manager_twins =
      (Normal tt, m') /\
    clients m' = [] /\
    closes (new_effects Sample.manager_twins m') =
      [{| client_name := "mcp-client-a"; client_version := "1.0.0" |};
       {| client_name := "mcp-client-a_"; client_version := "1.0.0" |}].
Proof.
  assert (R : reachable Sample.manager_twins)
    by (unfold Sample.manager_twins; do 2 apply reachable_connect;
        exact reachable_new).
  split; [exact R|].
  destruct (@disconnectAll_empties_the_map (Sample.failing JsNonError)
              Sample.manager_twins R)
    as (m' & E & Hc & _ & C & _).
  exists m'. split; [exact E|]. split; [exact Hc|]. rewrite C.
  vm_compute. reflexivity.
Defined.

(** *** One server at a time *)

Lemma establish_other (w : World) (config : MCPServerConfig) (m : Manager)
  (k : string) :
  k <> id config ->
  JSMap.get k (clients (snd (establish w config m))) = JSMap.get k (clients m).
Proof.
  intro D. destruct (establish_spec w config m)
    as (m' & E & _ & _ &
        [(tr & _ & _ & _ & t & _ & _ & Hc & _)|(e & Hc & _)]);
    rewrite E; simpl; rewrite Hc; auto.
  now apply get_set_other.
Qed.

Lemma disconnect_other (w : World) (s : string) (m : Manager) (k : string) :
  k <> s ->
  JSMap.get k (clients (snd (disconnect w s m))) = JSMap.get k (clients m).
Proof.
  intro D. destruct (disconnect_spec w s m) as (m' & E & Hc & _).
  rewrite E. simpl. rewrite Hc. now apply get_delete_other.
Qed.

Lemma connect_other (w : World) (config : MCPServerConfig) (m : Manager)
  (k : string) :
  k <> id config ->
  JSMap.get k (clients (snd (connect w config m))) = JSMap.get k (clients m).
Proof.
  intro D. unfold connect. unfold bind at 1. unfold clients_get, gets.
  destruct (JSMap.get (id config) (clients m)) as [inst|].
  - unfold bind at 1. unfold read, gets.
    destruct (ConnectionStatus.eqb _ _); [reflexivity|].
    unfold bind. pose proof (@disconnect_other w (id config) m k D) as X.
    destruct (disconnect_spec w (id config) m) as (m' & E & _).
    rewrite E in *. simpl in X. rewrite <- X. now apply establish_other.
  - now apply establish_other.
Qed.

(** X4. [connect] and [disconnect] of one server leave the entry of every
    other server as it is, whatever the world does and however they
    end. *)
Theorem other_servers_untouched (w : World) (config : MCPServerConfig)
  (s k : string) (m : Manager) :
  (k <> id config ->
   JSMap.get k (clients (snd (connect w config m))) =
     JSMap.get k (clients m)) /\
  (k <> s ->
   JSMap.get k (clients (snd (disconnect w s m))) = JSMap.get k (clients m)).
Proof.
  split; intro D.
  - now apply connect_other.
  - now apply disconnect_other.
Qed.

Lemma other_servers_untouched_witness :
  JSMap.get "a" (clients (snd (disconnect Sample.twins "a_"
                                 Sample.manager_twins))) =
    JSMap.get "a" (clients Sample.manager_twins) /\
  JSMap.get "a" (clients Sample.manager_twins) <> None.
Proof.
  split.
  - apply (proj2 (other_servers_untouched Sample.twins
                    (Sample.stdio_config "a") "a_" "a"
                    Sample.manager_twins)).
    discriminate.
  - vm_compute. discriminate.
Defined.

(** X5. [disconnect] removes the entry but does not write to the state
    object of the instance: the object that [connect] returned goes on
    saying connected, and the disconnected state that
    [getConnectionState] then returns is another object. *)
Theorem disconnect_keeps_state_object (w : World) (s : string) (m : Manager)
  (inst : ClientInstance) :
  reachable m -> connected_instance m s inst ->
  exists m1 r m2,
    disconnect w s m = (Normal tt, m1) /\
    getConnectionState s m1 = (Normal r, m2) /\
    r <> state inst /\
    status (cells m2 r) = ConnectionStatus.disconnected /\
    cells m1 (state inst) = cells m (state inst) /\
    status (cells m2 (state inst)) = ConnectionStatus.connected.
Proof.
  intros R [G St]. pose proof (reachable_ok R) as Ok.
  destruct (Ok s inst G) as (Lt & _).
  destruct (disconnect_spec w s m) as (m1 & E & Hc & Hh & Hn & _).
  assert (G1 : JSMap.get s (clients m1) = None)
    by (rewrite Hc; apply get_delete_same).
  exists m1. unfold getConnectionState. unmonad. rewrite G1.
  do 2 eexists. split; [exact E|]. split; [reflexivity|]. simpl.
  rewrite Nat.eqb_refl, Hn, Hh.
  assert (D : Nat.eqb (state inst) (next m) = false)
    by (apply Nat.eqb_neq; lia).
  rewrite D. repeat split; auto. lia.
Qed.

Lemma disconnect_keeps_state_object_witness :
  (reachable Sample.manager_a /\
   connected_instance Sample.manager_a "a" Sample.instance_a) /\
  status (cells (snd (disconnect Sample.quiet "a" Sample.manager_a))
            (state Sample.instance_a)) = ConnectionStatus.connected.
Proof.
  assert (R : reachable Sample.manager_a)
    by (unfold Sample.manager_a; apply reachable_connect; exact reachable_new).
  assert (H : connected_instance Sample.manager_a "a" Sample.instance_a)
    by (split; vm_compute; reflexivity).
  split; [split; assumption|].
  destruct (@disconnect_keeps_state_object Sample.quiet "a" Sample.manager_a
              Sample.instance_a R H) as (m1 & r & m2 & E & _ & _ & _ & Hs & _).
  rewrite E. cbn [snd]. rewrite Hs. vm_compute. reflexivity.
Defined.

(** X6. After a [connect] that reports a connection,
    [getConnectionState] of the same id returns the very object that
    [connect] returned and changes nothing, and the id is among the keys
    of the map; an id that had no entry is entered after all the
    others. *)
Theorem connect_then_state (w : World) (config : MCPServerConfig)
  (m m1 : Manager) (r : StateRef) :
  connect w config m = (Normal r, m1) ->
  status (cells m1 r) = ConnectionStatus.connected ->
  getConnectionState (id config) m1 = (Normal r, m1) /\
  In (id config) (JSMap.keys (clients m1)) /\
  (~ In (id config) (JSMap.keys (clients m)) ->
   JSMap.keys (clients m1) = (JSMap.keys (clients m) ++ [id config])%list).
Proof.
  intros E St.
  assert (Hest : forall m0, establish w config m0 = (Normal r, m1) ->
            exists inst,
              clients m1 = JSMap.set (id config) inst (clients m0) /\
              state inst = r).
  { intros m0 E0.
    destruct (establish_spec w config m0)
      as (m' & E' & _ & _ &
          [(tr & _ & _ & _ & t & _ & _ & Hc & Hcell)|(e & _ & Hcell & _)]);
      rewrite E0 in E'; injection E' as -> <-.
    - eexists. split; [exact Hc|reflexivity].
    - rewrite Hcell in St. discriminate. }
  assert (Hget : forall inst, JSMap.get (id config) (clients m1) = Some inst ->
            state inst = r ->
            getConnectionState (id config) m1 = (Normal r, m1) /\
            In (id config) (JSMap.keys (clients m1))).
  { intros inst G <-. split.
    - unfold getConnectionState. unmonad. now rewrite G.
    - apply in_keys_get. congruence. }
  revert E. unfold connect. unfold bind at 1. unfold clients_get, gets.
  destruct (JSMap.get (id config) (clients m)) as [inst|] eqn:G.
  - unfold bind at 1. unfold read, gets.
    destruct (ConnectionStatus.eqb (status (cells m (state inst)))
                ConnectionStatus.connected) eqn:Q.
    + unfold ret. intro E. injection E as <- <-.
      destruct (Hget inst G eq_refl) as [A B]. split; [exact A|].
      split; [exact B|]. intro N. contradiction.
    + unfold bind.
      destruct (disconnect_spec w (id config) m) as (m' & E' & _).
      rewrite E'. intro E. destruct (Hest m' E) as (i & Hc & Hr).
      destruct (Hget i) as [A B]; [rewrite Hc; apply get_set_same|exact Hr|].
      split; [exact A|]. split; [exact B|]. intro N. exfalso. apply N.
      apply in_keys_get. congruence.
  - intro E. destruct (Hest m E) as (i & Hc & Hr).
    destruct (Hget i) as [A B]; [rewrite Hc; apply get_set_same|exact Hr|].
    split; [exact A|]. split; [exact B|]. intro N. rewrite Hc.
    now apply keys_set_absent.
Qed.

Lemma connect_then_state_witness :
  let m1 := snd (connect Sample.quiet (Sample.stdio_config "b")
                   Sample.manager_a) in
  getConnectionState "b" m1 = (Normal 1, m1) /\
  JSMap.keys (clients m1) = ["a"; "b"].
Proof.
  intro m1.
  assert (E : connect Sample.quiet (Sample.stdio_config "b") Sample.manager_a
              = (Normal 1, m1)) by (vm_compute; reflexivity).
  assert (St : status (cells m1 1) = ConnectionStatus.connected)
    by (vm_compute; reflexivity).
  destruct (@connect_then_state Sample.quiet (Sample.stdio_config "b")
              Sample.manager_a m1 1 E St) as (A & _ & C).
  split; [exact A|]. rewrite C; [vm_compute; reflexivity|].
  vm_compute. intros [X|[]]. discriminate X.
Defined.

(** *** What [connect] does to the outside world *)

Lemma createTransport_usable (w : World) (config : MCPServerConfig)
  (m : Manager) :
  if usable w config then
    exists t, transport_kind t = transport config /\
      createTransport w config m =
        (Normal t,
         {| clients := clients m; cells := cells m; next := next m;
            tick := tick m; trace := trace m ++ [EvNewTransport t] |})
  else exists e, createTransport w config m = (Throw e, m).
Proof.
  unfold usable, missing_parameter, supported_transport, createTransport.
  destruct (String.eqb (transport config) "stdio") eqn:E1;
    [|destruct (String.eqb (transport config) "streamable-http") eqn:E2;
      [|destruct (String.eqb (transport config) "sse") eqn:E3]];
    try apply String.eqb_eq in E1; try apply String.eqb_eq in E2;
    try apply String.eqb_eq in E3;
    try destruct (truthy_opt (command config));
    try destruct (truthy_opt (url config));
    try destruct (new_URL w (or_else_opt (url config) ""));
    cbv beta iota delta [andb orb negb];
    solve [ eexists; split; [|reflexivity]; simpl; congruence
          | eexists; reflexivity ].
Qed.

Lemma establish_trace (w : World) (config : MCPServerConfig) (m : Manager) :
  let c := {| client_name := "mcp-client-" ++ id config;
              client_version := "1.0.0" |} in
  if usable w config then
    exists t, transport_kind t = transport config /\
      trace (snd (establish w config m)) =
        (trace m ++ [EvNewTransport t; EvClientConnect c t])%list
  else trace (snd (establish w config m)) = trace m.
Proof.
  intro c.
  set (m0 := {| clients := clients m;
                cells := fun r => if Nat.eqb r (next m)
                                  then {| serverId := id config;
                                          status := ConnectionStatus.connecting;
                                          error := None; connectedAt := None |}
                                  else cells m r;
                next := S (next m); tick := tick m; trace := trace m |}).
  pose proof (createTransport_usable w config m0) as H.
  destruct (usable w config).
  - destruct H as (t & K & E). exists t. split; [exact K|].
    unfold establish. cbv zeta. fold c.
    unfold bind at 1. unfold alloc at 1. fold m0.
    unfold try_catch. unfold bind at 1. rewrite E.
    unmonad. simpl.
    destruct (client_connect w (tick m) c t) as [[]|e]; simpl;
      now rewrite <- app_assoc.
  - destruct H as (e & E).
    unfold establish. cbv zeta. fold c.
    unfold bind at 1. unfold alloc at 1. fold m0.
    unfold try_catch. unfold bind at 1. rewrite E.
    unmonad. reflexivity.
Qed.

(** X7. From a reachable manager, [connect] of a server that is not
    connected contacts nothing when the configuration cannot be turned
    into a transport (a transport that is not one of the three, a missing
    command or URL, a URL that is refused): it has no effect outside and
    reports the error. Otherwise it builds one transport, of the kind that
    the configuration names, and runs one handshake on it; it sends no
    request. *)
Theorem connect_effects (w : World) (config : MCPServerConfig) (m : Manager) :
  reachable m -> ~ has_connected m (id config) ->
  let c := {| client_name := "mcp-client-" ++ id config;
              client_version := "1.0.0" |} in
  let m' := snd (connect w config m) in
  (usable w config = false -> new_effects m m' = []) /\
  (usable w config = true ->
   exists t, transport_kind t = transport config /\
     new_effects m m' = [EvNewTransport t; EvClientConnect c t]).
Proof.
  intros R N c m'. subst m'.
  rewrite (connect_fresh w config (reachable_ok R) N).
  pose proof (establish_trace w config m) as H. cbv zeta in H. fold c in H.
  split; intro U; rewrite U in H.
  - apply new_effects_app. now rewrite app_nil_r.
  - destruct H as (t & K & T). exists t. split; [exact K|].
    now apply new_effects_app.
Qed.

Lemma connect_effects_witness :
  (reachable new_manager /\ ~ has_connected new_manager "a") /\
  new_effects new_manager
    (snd (connect Sample.quiet
            {| id := "a"; name := "server"; transport := "stdio";
               command := None; args := None; env := None; url := None |}
            new_manager)) = [] /\
  exists t, transport_kind t = "stdio" /\
    new_effects new_manager
      (snd (connect Sample.quiet (Sample.stdio_config "a") new_manager)) =
      [EvNewTransport t;
       EvClientConnect
         {| client_name := "mcp-client-a"; client_version := "1.0.0" |} t].
Proof.
  assert (N : ~ has_connected new_manager "a")
    by (intros (inst & G & _); discriminate G).
  split; [split; [exact reachable_new|exact N]|]. split.
  - apply (proj1 (@connect_effects Sample.quiet
                    {| id := "a"; name := "server"; transport := "stdio";
                       command := None; args := None; env := None;
                       url := None |} new_manager reachable_new N)).
    reflexivity.
  - exact (proj2 (@connect_effects Sample.quiet (Sample.stdio_config "a")
                    new_manager reachable_new N) eq_refl).
Defined.

(** * Further properties of the chat route *)

Lemma same_store_refl (m : Manager) : same_store m m.
Proof. repeat split. Qed.

Lemma same_store_trans (m1 m2 m3 : Manager) :
  same_store m1 m2 -> same_store m2 m3 -> same_store m1 m3.
Proof.
  intros (A1 & A2 & A3) (B1 & B2 & B3). repeat split; congruence.
Qed.

Lemma keeps_ret {A : Type} (a : A) : keeps_registry (ret (S := Turn) a).
Proof. intro t. apply same_store_refl. Qed.

Lemma keeps_bind {A B : Type} (c : M Turn A) (k : A -> M Turn B) :
  keeps_registry c -> (forall a, keeps_registry (k a)) ->
  keeps_registry (bind c k).
Proof.
  intros Hc Hk t. unfold bind. specialize (Hc t).
  destruct (c t) as [[a|e|] t1]; simpl in *; auto.
  eapply same_store_trans; [exact Hc|apply Hk].
Qed.

Lemma keeps_try_catch {A : Type} (c : M Turn A) (h : JsThrown -> M Turn A) :
  keeps_registry c -> (forall e, keeps_registry (h e)) ->
  keeps_registry (try_catch c h).
Proof.
  intros Hc Hh t. unfold try_catch. specialize (Hc t).
  destruct (c t) as [[a|e|] t1]; simpl in *; auto.
  eapply same_store_trans; [exact Hc|apply Hh].
Qed.

Lemma keeps_on_manager {A : Type} (c : M Manager A) :
  (forall m, same_store m (snd (c m))) -> keeps_registry (on_manager c).
Proof.
  intros H t. unfold on_manager, lift. specialize (H (manager t)).
  destruct (c (manager t)) as [r m']. exact H.
Qed.

Lemma keeps_ask {A : Type} (q : nat -> A) : keeps_registry (on_manager (ask q)).
Proof. apply keeps_on_manager. intro m. repeat split. Qed.

Lemma keeps_await {A : Type} (q : nat -> Outcome A) :
  keeps_registry (on_manager (await q)).
Proof.
  apply keeps_on_manager. intro m. unmonad. simpl.
  destruct (q (tick m)); repeat split.
Qed.

Lemma keeps_sendSSE (ev : string) (d : SSEData) : keeps_registry (sendSSE ev d).
Proof.
  intro t. unfold sendSSE, controller_enqueue.
  destruct (closed t); apply same_store_refl.
Qed.

Lemma keeps_controller_close : keeps_registry controller_close.
Proof.
  intro t. unfold controller_close.
  destruct (closed t); apply same_store_refl.
Qed.

Lemma keeps_upload_images (cw : ChatWorld) (toolName sid mid : string)
  (imgs : list Image) (i : nat) (acc : list UploadedImage) :
  keeps_registry (upload_images cw toolName sid mid i imgs acc).
Proof.
  revert i acc. induction imgs as [|img imgs IH]; intros i acc; simpl.
  - apply keeps_ret.
  - apply keeps_bind; [apply keeps_ask|]. intro now.
    apply keeps_bind; [apply keeps_await|]. intro r. apply IH.
Qed.

Lemma keeps_invoke_tool (cw : ChatWorld) (ctx : StreamContext)
  (serverInfo : ServerInfo) (toolName : string) (call : FunctionCall) :
  keeps_registry (invoke_tool cw ctx serverInfo toolName call).
Proof.
  unfold invoke_tool. apply keeps_bind.
  - apply keeps_on_manager. intro m. apply callTool_same_store.
  - intro result. apply keeps_bind; [|intro; apply keeps_ret].
    destruct (_ && _); [apply keeps_upload_images|apply keeps_ret].
Qed.

Lemma keeps_process_call (cw : ChatWorld) (ctx : StreamContext)
  (call : FunctionCall) :
  keeps_registry (process_call cw ctx call).
Proof.
  unfold process_call. apply keeps_bind.
  - unfold new_callId. apply keeps_bind; [apply keeps_ask|]. intro.
    apply keeps_bind; [apply keeps_ask|]. intro. apply keeps_ret.
  - intro callId. destruct (JSMap.get _ (toolServerMap ctx)) as [info|].
    + apply keeps_bind; [apply keeps_sendSSE|]. intros _.
      apply keeps_try_catch.
      * apply keeps_bind; [apply keeps_invoke_tool|]. intros [result ups].
        apply keeps_bind; [apply keeps_sendSSE|]. intros _. apply keeps_ret.
      * intro e. apply keeps_bind; [apply keeps_sendSSE|]. intros _.
        apply keeps_ret.
    + apply keeps_bind; [apply keeps_sendSSE|]. intros _.
      apply keeps_bind; [apply keeps_sendSSE|]. intros _. apply keeps_ret.
Qed.

Lemma keeps_process_calls (cw : ChatWorld) (ctx : StreamContext)
  (calls : list FunctionCall) (acc : list FunctionResult) :
  keeps_registry (process_calls cw ctx calls acc).
Proof.
  revert acc. induction calls as [|call calls IH]; intro acc; simpl.
  - apply keeps_ret.
  - apply keeps_bind; [apply keeps_process_call|]. intro r. apply IH.
Qed.

Lemma keeps_sendMessage (cw : ChatWorld) (message : MessageParam) :
  keeps_registry (sendMessage cw message).
Proof.
  unfold sendMessage. apply keeps_bind; [intro t; apply same_store_refl|].
  intro round. apply keeps_bind; [intro t; apply same_store_refl|].
  intros _. apply keeps_await.
Qed.

Lemma keeps_chat_loop (fuel : nat) (cw : ChatWorld) (ctx : StreamContext)
  (b : bool) (p : string) :
  keeps_registry (chat_loop fuel cw ctx b p).
Proof.
  revert b p. induction fuel as [|fuel IH]; intros b p.
  - intro t. apply same_store_refl.
  - rewrite chat_loop_unfold. apply keeps_bind; [apply keeps_sendMessage|].
    intro response. destruct (functionCalls response) as [[|call rest]|].
    + cbv zeta. destruct (truthy _); [apply keeps_sendSSE|apply keeps_ret].
    + apply keeps_bind; [apply keeps_process_calls|]. intro frs.
      apply keeps_bind; [intro t; apply same_store_refl|]. intros _.
      apply keeps_bind; [intro t; apply same_store_refl|]. intros _.
      apply IH.
    + cbv zeta. destruct (truthy _); [apply keeps_sendSSE|apply keeps_ret].
Qed.

Lemma keeps_start (fuel : nat) (cw : ChatWorld) (ctx : StreamContext) :
  keeps_registry (start fuel cw ctx).
Proof.
  unfold start. apply keeps_try_catch.
  - apply keeps_bind; [apply keeps_await|]. intros _.
    apply keeps_bind; [apply keeps_chat_loop|]. intros _.
    apply keeps_bind; [apply keeps_sendSSE|]. intros _.
    apply keeps_controller_close.
  - intro e. apply keeps_bind.
    + apply keeps_on_manager. intro m. repeat split.
    + intros _. apply keeps_bind; [apply keeps_sendSSE|]. intros _.
      apply keeps_controller_close.
Qed.

(** X8. A turn of the chat, however it ends and whatever the world
    does, leaves the map of the manager and all the state objects as they
    were: it connects and disconnects no server. *)
Theorem turn_keeps_registry (fuel : nat) (cw : ChatWorld)
  (ctx : StreamContext) (t : Turn) :
  clients (manager (snd (start fuel cw ctx t))) = clients (manager t) /\
  cells (manager (snd (start fuel cw ctx t))) = cells (manager t) /\
  next (manager (snd (start fuel cw ctx t))) = next (manager t).
Proof. exact (@keeps_start fuel cw ctx t). Qed.



(** *** The upload of the images of a result *)

Lemma subsequence_refl_nil {A : Type} (ys : list A) : subsequence [] ys.
Proof. induction ys; constructor; auto. Qed.

(** The loop over the images: what it adds to [uploadedImages] are the
    images for which the store gave a URL, in order. *)
Lemma upload_images_subsequence (cw : ChatWorld) (toolName sid mid : string)
  (imgs : list Image) :
  forall i acc t ups t',
    upload_images cw toolName sid mid i imgs acc t = (Normal ups, t') ->
    exists added,
      ups = (acc ++ added)%list /\
      subsequence (map uploaded_mimeType added) (map image_mimeType imgs).
Proof.
  induction imgs as [|img imgs IH]; intros i acc t ups t' E; simpl in E.
  - unfold ret in E. injection E as <- <-. exists []. rewrite app_nil_r.
    split; [reflexivity|constructor].
  - unfold bind at 1 in E. unfold on_manager at 1 in E.
    unfold lift, ask in E. cbn [fst snd] in E.
    unfold bind at 1 in E. unfold on_manager at 1 in E.
    unfold lift, await, ask, bind, ret, throw in E. cbn [fst snd] in E.
    match type of E with
    | context [uploadAndSaveImage ?a ?b ?c ?d ?e ?f ?g] =>
        destruct (uploadAndSaveImage a b c d e f g) as [[publicUrl|]|e']
    end; cbn in E; try discriminate.
    + destruct (IH _ _ _ _ _ E) as (added & -> & S).
      eexists. rewrite <- app_assoc. split; [reflexivity|].
      simpl. now constructor.
    + destruct (IH _ _ _ _ _ E) as (added & -> & S).
      exists added. split; [reflexivity|]. simpl. now constructor.
Qed.

(** X10. The images of a tool result are uploaded only when the request
    names both a session and a message: otherwise the execution of the
    tool is the call through the manager alone, with no uploaded image,
    whatever the image store would answer. When they are uploaded, the
    uploaded images are those for which the store gave a URL, each with
    the mime type of its image, in the order of the result. *)
Theorem uploads_need_session_and_message (cw : ChatWorld)
  (ctx : StreamContext) (info : ServerInfo) (toolName : string)
  (call : FunctionCall) (t : Turn) :
  (truthy_opt (sessionId ctx) && truthy_opt (messageId ctx) = false ->
   invoke_tool cw ctx info toolName call t =
     (result <- on_manager
        (callTool (world cw) (info_serverId info) toolName (call_args call)) ;;
      ret (result, [])) t) /\
  (forall result ups t',
     invoke_tool cw ctx info toolName call t = (Normal (result, ups), t') ->
     subsequence (map uploaded_mimeType ups)
       (map image_mimeType (images result)) /\
     List.length ups <= List.length (images result)).
Proof.
  split.
  - intro F. unfold invoke_tool. unfold bind at 1.
    unfold bind at 2.
    destruct (on_manager _ t) as [[result|e|] t1]; auto.
    rewrite <- andb_assoc, F, andb_false_r. reflexivity.
  - intros result ups t' E.
    assert (S : subsequence (map uploaded_mimeType ups)
                  (map image_mimeType (images result))).
    { revert E. unfold invoke_tool. unfold bind at 1.
      destruct (on_manager _ t) as [[result0|e|] t1]; try discriminate.
      unfold bind.
      destruct (_ && _ && _).
      - destruct (upload_images _ _ _ _ _ _ _ _) as [[ups0|e|] t2] eqn:U;
          try discriminate.
        unfold ret. intro E. injection E as <- <- <-.
        destruct (upload_images_subsequence _ _ _ _ _ _ _ _ U)
          as (added & -> & S). exact S.
      - unfold ret. intro E. injection E as <- <- <-. simpl.
        apply subsequence_refl_nil. }
    split; [exact S|].
    rewrite <- (length_map uploaded_mimeType ups),
      <- (length_map image_mimeType (images result)).
    clear E. induction S; simpl; lia.
Qed.

Lemma uploads_need_session_and_message_witness :
  let cw := Sample.chat Sample.quiet (Sample.one_call_then "ok") in
  let info := {| info_serverId := "a"; info_serverName := "a" |} in
  fst (invoke_tool cw Sample.context info "echo" Sample.echo_call
         (new_turn Sample.manager_a)) =
    Normal ({| output_content := ""; images := [];
               raw := {| content := Some []; isError := None |} |}, []).
Proof.
  intros cw info.
  rewrite (proj1 (uploads_need_session_and_message cw Sample.context info
                    "echo" Sample.echo_call (new_turn Sample.manager_a))
             eq_refl).
  vm_compute. reflexivity.
Defined.

(** *** The collection of the tools *)

Lemma has_connected_same_store (m m' : Manager) (s : string) :
  same_store m m' -> has_connected m' s -> has_connected m s.
Proof.
  intros (Hc & Hh & _) (inst & G & St). exists inst.
  rewrite Hc in G. rewrite Hh in St. split; assumption.
Qed.

Lemma collect_tool_from_connected (m : Manager) (s sname : string)
  (acc : list ToolEntry * JSMap.t ServerInfo) (tool : MCPTool) :
  has_connected m s -> from_connected m acc ->
  from_connected m (collect_tool s sname acc tool).
Proof.
  destruct acc as [allTools tm]. intros H [He Hm]. unfold collect_tool.
  split; simpl in *.
  - intros entry I. apply in_app_or in I. destruct I as [I|[<-|[]]]; auto.
  - intros key info G.
    destruct (string_dec key (prefixedName s (tool_name tool))) as [->|D].
    + rewrite get_set_same in G. injection G as <-. exact H.
    + rewrite get_set_other in G by assumption. eauto.
Qed.

Lemma fold_collect_tool_from_connected (m : Manager) (s sname : string)
  (tools : list MCPTool) (acc : list ToolEntry * JSMap.t ServerInfo) :
  has_connected m s -> from_connected m acc ->
  from_connected m (fold_left (collect_tool s sname) tools acc).
Proof.
  intro H. revert acc. induction tools as [|tool tools IH]; intros acc F;
    simpl; auto.
  apply IH. now apply collect_tool_from_connected.
Qed.

(** One server: its tools are added when it is connected and answers;
    otherwise nothing is added and the failure is logged. *)
Lemma collect_server_spec (w : World)
  (acc : list ToolEntry * JSMap.t ServerInfo) (s : string) (m : Manager) :
  from_connected m acc ->
  exists acc' m',
    collect_server w acc s m = (Normal acc', m') /\
    same_store m m' /\ from_connected m acc' /\
    (~ has_connected m s -> acc' = acc).
Proof.
  intro F. unfold collect_server, try_catch. unfold bind at 1.
  destruct (has_connected_dec m s) as [(inst & H)|N].
  - pose proof (listTools_same_store w s m) as SS.
    pose proof (proj1 (listTools_connected w H)) as L.
    destruct (listTools w s m) as [r m1]. simpl in L, SS. subst r.
    destruct (client_listTools w (tick m) (client inst)) as [tools|e];
      simpl.
    + destruct SS as (Hc & Hh & Hn).
      unfold getConnectionState. unmonad. rewrite Hc, (proj1 H). simpl.
      do 2 eexists. split; [reflexivity|]. split; [repeat split; auto|].
      split.
      * apply fold_collect_tool_from_connected; [now exists inst|exact F].
      * intro N. exfalso. apply N. now exists inst.
    + unmonad. simpl. do 2 eexists. split; [reflexivity|].
      split; [exact SS|]. split; [exact F|]. auto.
  - unfold listTools. unmonad. rewrite (getClient_not_connected N). simpl.
    do 2 eexists. split; [reflexivity|]. split; [repeat split|].
    split; [exact F|]. auto.
Qed.

Lemma from_connected_same_store (m m' : Manager)
  (acc : list ToolEntry * JSMap.t ServerInfo) :
  same_store m m' -> from_connected m acc -> from_connected m' acc.
Proof.
  intros (Hc & Hh & _) [He Hm]. split.
  - intros entry I. destruct (He entry I) as (inst & G & St).
    exists inst. split; [now rewrite Hc|now rewrite Hh].
  - intros key info G0. destruct (Hm key info G0) as (inst & G & St).
    exists inst. split; [now rewrite Hc|now rewrite Hh].
Qed.

Lemma collect_servers_spec (w : World) (ids : list string) :
  forall acc m, from_connected m acc ->
  exists acc' m',
    collect_servers w ids acc m = (Normal acc', m') /\
    same_store m m' /\ from_connected m acc' /\
    (ids = [] -> acc' = acc /\ m' = m).
Proof.
  induction ids as [|s ids IH]; intros acc m F; simpl.
  - exists acc, m. split; [reflexivity|]. split; [apply same_store_refl|].
    split; [exact F|]. auto.
  - destruct (@collect_server_spec w acc s m F) as (acc1 & m1 & E & SS & F1 & _).
    unfold bind. rewrite E.
    destruct (IH acc1 m1 (@from_connected_same_store m m1 acc1 SS F1))
      as (acc' & m' & E' & SS' & F' & _).
    exists acc', m'. split; [exact E'|].
    split; [eapply same_store_trans; eauto|]. split.
    + destruct SS as (Hc & Hh & Hn). destruct F' as [He Hm]. split.
      * intros entry I. destruct (He entry I) as (inst & G & St).
        exists inst. split; [now rewrite <- Hc|now rewrite <- Hh].
      * intros key info G0. destruct (Hm key info G0) as (inst & G & St).
        exists inst. split; [now rewrite <- Hc|now rewrite <- Hh].
    + discriminate.
Qed.

Lemma fold_collect_tool_fst (s sname : string) (tools : list MCPTool)
  (acc : list ToolEntry * JSMap.t ServerInfo) :
  fst (fold_left (collect_tool s sname) tools acc) =
    (fst acc ++ map (entry_of s) tools)%list.
Proof.
  revert acc. induction tools as [|tool tools IH]; intros [allTools tm];
    simpl.
  - now rewrite app_nil_r.
  - rewrite IH. simpl. now rewrite <- app_assoc.
Qed.

Lemma collect_tool_matches (s sname : string) (tool : MCPTool)
  (acc : list ToolEntry * JSMap.t ServerInfo) :
  map_matches acc -> map_matches (collect_tool s sname acc tool).
Proof.
  destruct acc as [allTools tm]. intros [D V]. unfold collect_tool.
  split; simpl in *.
  - intro key.
    destruct (string_dec key (prefixedName s (tool_name tool))) as [->|N].
    + rewrite get_set_same. split; [intros _|discriminate].
      eexists. split; [apply in_or_app; right; left; reflexivity|].
      reflexivity.
    + rewrite get_set_other by assumption. rewrite D. split.
      * intros (entry & I & E). exists entry. split; [|exact E].
        apply in_or_app. now left.
      * intros (entry & I & E). apply in_app_or in I.
        destruct I as [I|[<-|[]]]; [eauto|]. simpl in E. congruence.
  - intros key info G.
    destruct (string_dec key (prefixedName s (tool_name tool))) as [->|N].
    + rewrite get_set_same in G. injection G as <-.
      eexists. split; [apply in_or_app; right; left; reflexivity|].
      split; reflexivity.
    + rewrite get_set_other in G by assumption.
      destruct (V key info G) as (entry & I & E). exists entry.
      split; [apply in_or_app; now left|exact E].
Qed.

Lemma fold_collect_tool_matches (s sname : string) (tools : list MCPTool)
  (acc : list ToolEntry * JSMap.t ServerInfo) :
  map_matches acc -> map_matches (fold_left (collect_tool s sname) tools acc).
Proof.
  revert acc. induction tools as [|tool tools IH]; intros acc H; simpl; auto.
  apply IH. now apply collect_tool_matches.
Qed.

(** One server, exactly: asked at the tick of the manager when it has a
    connected instance, its tools added when it answers, nothing added
    when the listing is rejected or the server is not asked; never an
    exception. *)
Lemma collect_server_exact (w : World)
  (acc : list ToolEntry * JSMap.t ServerInfo) (s : string) (m m0 : Manager) :
  same_store m m0 -> map_matches acc ->
  exists acc' m1,
    collect_server w acc s m0 = (Normal acc', m1) /\
    same_store m m1 /\ map_matches acc' /\
    fst acc' = (fst acc ++ offered (answers w m (tick m0) [s]))%list /\
    forall rest,
      answers w m (tick m0) (s :: rest) =
        (answers w m (tick m0) [s] ++ answers w m (tick m1) rest)%list.
Proof.
  intros SS MM. destruct SS as (Hc & Hh & Hn).
  unfold collect_server, try_catch. unfold bind at 1.
  cbn [answers]. rewrite <- Hc, <- Hh.
  destruct (JSMap.get s (clients m0)) as [inst|] eqn:G.
  - destruct (ConnectionStatus.eqb (status (cells m0 (state inst)))
                ConnectionStatus.connected) eqn:Q.
    + assert (H : connected_instance m0 s inst)
        by (split; [exact G|now apply status_eqb_eq]).
      pose proof (listTools_same_store w s m0) as SS.
      pose proof (proj1 (listTools_connected w H)) as L.
      assert (T : tick (snd (listTools w s m0)) = S (tick m0)).
      { unfold listTools. unmonad. rewrite (getClient_connected H). simpl.
        destruct (client_listTools w (tick m0) (client inst)); reflexivity. }
      destruct (listTools w s m0) as [r m1]. simpl in L, SS, T. subst r.
      destruct SS as (Hc1 & Hh1 & Hn1).
      destruct (client_listTools w (tick m0) (client inst)) as [tools|e];
        simpl.
      * unfold getConnectionState. unmonad. rewrite Hc1, G. simpl.
        do 2 eexists. split; [reflexivity|].
        split; [repeat split; simpl; congruence|].
        split; [now apply fold_collect_tool_matches|]. split.
        -- rewrite fold_collect_tool_fst. unfold offered. simpl.
           now rewrite app_nil_r.
        -- intro rest. now rewrite T.
      * unmonad. simpl. do 2 eexists. split; [reflexivity|].
        split; [repeat split; simpl; congruence|]. split; [exact MM|]. split.
        -- unfold offered. simpl. now rewrite app_nil_r.
        -- intro rest. simpl. now rewrite T.
    + assert (N : ~ has_connected m0 s).
      { intros (i & G' & St). rewrite G in G'. injection G' as <-.
        apply status_eqb_eq in St. congruence. }
      unfold listTools. unmonad. rewrite (getClient_not_connected N). simpl.
      do 2 eexists. split; [reflexivity|].
      split; [repeat split; simpl; congruence|]. split; [exact MM|]. split.
      * unfold offered. simpl. now rewrite app_nil_r.
      * intro rest. reflexivity.
  - assert (N : ~ has_connected m0 s)
      by (intros (i & G' & _); congruence).
    unfold listTools. unmonad. rewrite (getClient_not_connected N). simpl.
    do 2 eexists. split; [reflexivity|].
    split; [repeat split; simpl; congruence|]. split; [exact MM|]. split.
    + unfold offered. simpl. now rewrite app_nil_r.
    + intro rest. reflexivity.
Qed.

Lemma offered_app (a b : list (string * list MCPTool)) :
  offered (a ++ b) = (offered a ++ offered b)%list.
Proof. unfold offered. apply flat_map_app. Qed.

Lemma collect_servers_exact (w : World) (m : Manager) (ids : list string) :
  forall acc m0, same_store m m0 -> map_matches acc ->
  exists acc' m1,
    collect_servers w ids acc m0 = (Normal acc', m1) /\
    same_store m m1 /\ map_matches acc' /\
    fst acc' = (fst acc ++ offered (answers w m (tick m0) ids))%list.
Proof.
  induction ids as [|s ids IH]; intros acc m0 SS MM.
  - exists acc, m0. split; [reflexivity|]. split; [exact SS|].
    split; [exact MM|]. unfold offered. simpl. now rewrite app_nil_r.
  - destruct (@collect_server_exact w acc s m m0 SS MM)
      as (acc1 & m1 & E & SS1 & MM1 & F1 & A).
    destruct (IH acc1 m1 SS1 MM1) as (acc' & m2 & E' & SS2 & MM2 & F2).
    exists acc', m2. split.
    + cbn [collect_servers]. unfold bind. rewrite E. exact E'.
    + split; [exact SS2|]. split; [exact MM2|].
      rewrite F2, F1, (A ids), offered_app. now rewrite <- app_assoc.
Qed.

Lemma collect_server_rejected (w : World)
  (acc : list ToolEntry * JSMap.t ServerInfo) (s : string) (m0 : Manager)
  (inst : ClientInstance) (e : JsThrown) :
  connected_instance m0 s inst ->
  client_listTools w (tick m0) (client inst) = Rejected e ->
  fst (collect_server w acc s m0) = Normal acc.
Proof.
  intros H R. unfold collect_server, try_catch. unfold bind at 1.
  pose proof (proj1 (listTools_connected w H)) as L. rewrite R in L.
  destruct (listTools w s m0) as [r m1]. simpl in L. subst r. reflexivity.
Qed.

(** X11. The collection of the tools does not throw and leaves the map of
    the manager and the state objects as they were. The servers that
    [getConnectedServerIds] names are asked one after the other, each
    once, and the tools offered are exactly the tools that they list, in
    that order, each under the id of its server, the separator and its
    name: a server whose listing is rejected adds nothing, and the
    servers after it are asked all the same. The map of the tools has
    exactly the names of the tools offered, each with a server that
    offers a tool of that name. Every tool and every name belongs to a
    server that has a connected instance; with an empty map nobody is
    asked and no tool is returned. *)
Theorem collectTools_asks_connected_servers (w : World) (m : Manager) :
  exists ids allTools tm m',
    getConnectedServerIds m = (Normal ids, m) /\
    collectTools w m = (Normal (allTools, tm), m') /\
    same_store m m' /\
    allTools = offered (answers w m (tick m) ids) /\
    (forall key, JSMap.get key tm <> None <->
       exists entry, In entry allTools /\
         tool_name (entry_tool entry) = key) /\
    (forall key info, JSMap.get key tm = Some info ->
       exists entry, In entry allTools /\
         tool_name (entry_tool entry) = key /\
         entry_serverId entry = info_serverId info) /\
    (forall entry, In entry allTools ->
       has_connected m (entry_serverId entry)) /\
    (forall key info, JSMap.get key tm = Some info ->
       has_connected m (info_serverId info)) /\
    (clients m = [] -> allTools = [] /\ tm = [] /\ m' = m) /\
    (forall acc s m0, from_connected m0 acc -> ~ has_connected m0 s ->
       fst (collect_server w acc s m0) = Normal acc) /\
    (forall acc s m0 inst e,
       connected_instance m0 s inst ->
       client_listTools w (tick m0) (client inst) = Rejected e ->
       fst (collect_server w acc s m0) = Normal acc) /\
    (forall s rest t inst,
       connected_instance m s inst ->
       answers w m t (s :: rest) =
         (s, match client_listTools w t (client inst) with
             | Resolved tools => tools
             | Rejected _ => []
             end) :: answers w m (S t) rest).
Proof.
  unfold collectTools. unfold bind at 1. unfold getConnectedServerIds, gets.
  set (ids := map fst _).
  assert (F0 : from_connected m (@nil ToolEntry, @JSMap.empty ServerInfo)).
  { split; simpl; [intros entry []|intros key info G; discriminate]. }
  assert (M0 : map_matches (@nil ToolEntry, @JSMap.empty ServerInfo)).
  { split; simpl.
    - intro key. split; [intro H; now elim H|intros (entry & [] & _)].
    - intros key info G. discriminate. }
  destruct (@collect_servers_spec w ids ([], JSMap.empty) m F0)
    as ([allTools tm] & m' & E & SS & [He Hm] & Hnil).
  destruct (@collect_servers_exact w m ids ([], JSMap.empty) m
              (same_store_refl m) M0)
    as (acc2 & m2 & E2 & _ & [D V] & F).
  rewrite E in E2. injection E2 as <- <-. simpl in F, D, V.
  exists ids, allTools, tm, m'. split; [reflexivity|].
  split; [exact E|]. split; [exact SS|]. split; [exact F|].
  split; [exact D|]. split; [exact V|].
  split; [exact He|]. split; [exact Hm|]. split; [|split; [|split]].
  - intro Hc. assert (I : ids = []) by (subst ids; now rewrite Hc).
    destruct (Hnil I) as [A B]. injection A as -> ->. auto.
  - intros acc s m0 F1 N.
    destruct (@collect_server_spec w acc s m0 F1)
      as (acc' & m1 & E1 & _ & _ & X).
    rewrite E1. simpl. now rewrite (X N).
  - intros acc s m0 inst e. apply collect_server_rejected.
  - intros s rest t inst [G St]. cbn [answers]. rewrite G, St. reflexivity.
Qed.

Lemma collectTools_asks_connected_servers_witness :
  exists allTools tm m',
    collectTools Sample.twins Sample.manager_twins =
      (Normal (allTools, tm), m') /\
    map (fun entry => tool_name (entry_tool entry)) allTools =
      ["a___c"; "a___c"].
Proof.
  destruct (collectTools_asks_connected_servers Sample.twins
              Sample.manager_twins)
    as (ids & allTools & tm & m' & I & E & _ & F & _).
  exists allTools, tm, m'. split; [exact E|].
  vm_compute in I. injection I as <-. rewrite F. vm_compute. reflexivity.
Defined.

(** ** The stored list of servers *)

Ltac unpage :=
  unfold localStorage_getItem, parse_servers, localStorage_setItem,
    page_console_error, page_ask, array_for, bind, ret, throw, gets, modify,
    try_catch in *.

(** [getServers] changes neither the item nor the clock. *)
Lemma getServers_page (b : Browser) (p : Page) :
  stored (snd (getServers b p)) = stored p /\
  page_tick (snd (getServers b p)) = page_tick p.
Proof.
  unfold getServers. destruct (window_defined b); simpl; [|auto].
  unpage. simpl. destruct (stored p) eqn:E; simpl; auto.
Qed.

(** In a browser [getServers] returns the stored list, unless the item
    is JSON of something else. *)
Lemma getServers_spec (b : Browser) (p : Page) :
  window_defined b = true -> stored p <> NotAnArray ->
  fst (getServers b p) = Normal (Servers (stored_servers p)).
Proof.
  intros W N. unfold getServers, stored_servers. rewrite W. unpage. simpl.
  destruct (stored p); simpl; auto. now elim N.
Qed.

(** The item that is JSON of something else comes back as it is, without
    a word. *)
Lemma getServers_non_array (b : Browser) (p : Page) :
  window_defined b = true -> stored p = NotAnArray ->
  getServers b p = (Normal NonArray, p).
Proof.
  intros W N. unfold getServers. rewrite W. unpage. simpl. now rewrite N.
Qed.

Lemma getServers_no_window (b : Browser) (p : Page) :
  window_defined b = false -> getServers b p = (Normal (Servers []), p).
Proof. intro W. unfold getServers. now rewrite W. Qed.

Lemma saveServers_no_window (b : Browser) (l : list MCPServerConfig)
  (p : Page) :
  window_defined b = false -> saveServers b l p = (Normal tt, p).
Proof. intro W. unfold saveServers. now rewrite W. Qed.

Lemma saveServers_written (b : Browser) (l : list MCPServerConfig)
  (p : Page) :
  writable b p ->
  saveServers b l p =
    (Normal tt,
     {| stored := Stringified l; page_tick := S (page_tick p);
        page_errors := page_errors p |}).
Proof.
  intros [W Q]. unfold saveServers. rewrite W. unpage. simpl.
  now rewrite Q.
Qed.

Lemma saveServers_failed (b : Browser) (l : list MCPServerConfig)
  (p : Page) (e : JsThrown) :
  window_defined b = true -> setItem_throws b (page_tick p) = Some e ->
  saveServers b l p =
    (Normal tt,
     {| stored := stored p; page_tick := S (page_tick p);
        page_errors :=
          page_errors p ++ ["Failed to save MCP servers to localStorage:"] |}).
Proof.
  intros W Q. unfold saveServers. rewrite W. unpage. simpl.
  now rewrite Q.
Qed.

(** Whatever happens, [saveServers] returns, and the page then holds the
    old list or the new one. *)
Lemma saveServers_total (b : Browser) (l : list MCPServerConfig) (p : Page) :
  fst (saveServers b l p) = Normal tt /\
  (stored (snd (saveServers b l p)) = stored p \/
   stored (snd (saveServers b l p)) = Stringified l).
Proof.
  destruct (window_defined b) eqn:W.
  - destruct (setItem_throws b (page_tick p)) as [e|] eqn:Q.
    + rewrite (@saveServers_failed b l p e W Q). simpl. auto.
    + rewrite (@saveServers_written b l p (conj W Q)). simpl. auto.
  - rewrite (@saveServers_no_window b l p W). simpl. auto.
Qed.

Lemma existsb_same_id (server : MCPServerConfig)
  (l : list MCPServerConfig) :
  existsb (same_id server) l = true <-> In (id server) (ids l).
Proof.
  unfold ids. rewrite existsb_exists, in_map_iff. unfold same_id.
  split; intros (s & A & B); exists s.
  - apply String.eqb_eq in B. auto.
  - split; [exact B|]. now apply String.eqb_eq.
Qed.

Lemma ids_app (l l' : list MCPServerConfig) :
  ids (l ++ l') = (ids l ++ ids l')%list.
Proof. apply map_app. Qed.

Lemma NoDup_snoc {A : Type} (l : list A) (x : A) :
  NoDup l -> ~ In x l -> NoDup (l ++ [x]).
Proof.
  intros N I. apply NoDup_app; auto.
  - repeat constructor. intros [].
  - intros y Iy [<-|[]]. contradiction.
Qed.

Lemma getServers_known (b : Browser) (p : Page) :
  readable b p -> fst (getServers b p) = Normal (Servers (known b p)).
Proof.
  unfold known. intros [W|N].
  - rewrite W, (@getServers_no_window b p W). reflexivity.
  - destruct (window_defined b) eqn:W.
    + now apply getServers_spec.
    + rewrite (@getServers_no_window b p W). reflexivity.
Qed.

Lemma readable_dec (b : Browser) (p : Page) :
  readable b p \/ (window_defined b = true /\ stored p = NotAnArray).
Proof.
  unfold readable. destruct (window_defined b); [|auto].
  destruct (stored p); auto; left; right; discriminate.
Qed.

(** The shape of the functions that read the list, call a method of the
    array, compute and save. *)
Lemma read_then (b : Browser) (method : string) (A : Type)
  (k : list MCPServerConfig -> M Page A) (p : Page) :
  readable b p ->
  (servers <- getServers b ;;
   servers <- array_for b method servers ;;
   k servers) p =
    k (known b p) (snd (getServers b p)).
Proof.
  intro R. unfold bind at 1. pose proof (@getServers_known b p R) as E.
  destruct (getServers b p) as [c p1]. simpl in *. subst c. reflexivity.
Qed.

(** On an item that is JSON of something else they throw the
    [TypeError] of the method, and the page is as it was. *)
Lemma read_non_array (b : Browser) (method : string) (A : Type)
  (k : list MCPServerConfig -> M Page A) (p : Page) :
  window_defined b = true -> stored p = NotAnArray ->
  (servers <- getServers b ;;
   servers <- array_for b method servers ;;
   k servers) p =
    (Throw (JsError (TypeError_message b method)), p).
Proof.
  intros W N. unfold bind at 1. rewrite (@getServers_non_array b p W N).
  reflexivity.
Qed.

Lemma save_then_ret (b : Browser) (l : list MCPServerConfig) (p : Page) :
  (saveServers b l ;;; ret l) p = (Normal l, snd (saveServers b l p)).
Proof.
  unfold bind, ret. destruct (saveServers_total b l p) as (E & _).
  destruct (saveServers b l p) as [c p1]. simpl in *. now subst c.
Qed.

Lemma known_after_read (b : Browser) (p : Page) :
  known b (snd (getServers b p)) = known b p.
Proof.
  unfold known, stored_servers.
  now rewrite (proj1 (getServers_page b p)).
Qed.

Lemma addServer_unfold (b : Browser) (server : MCPServerConfig) (p : Page) :
  readable b p ->
  addServer b server p =
    if existsb (same_id server) (known b p)
    then (Throw (already_exists server), snd (getServers b p))
    else (Normal (known b p ++ [server])%list,
          snd (saveServers b (known b p ++ [server]) (snd (getServers b p)))).
Proof.
  intro R. unfold addServer. rewrite read_then by exact R. cbv zeta.
  destruct (existsb _ _); [reflexivity|apply save_then_ret].
Qed.

Lemma updateServer_unfold (b : Browser) (server : MCPServerConfig)
  (p : Page) :
  readable b p ->
  updateServer b server p =
    match findIndex (same_id server) (known b p) with
    | None => (Throw (not_found server), snd (getServers b p))
    | Some index =>
        (Normal (assign index server (known b p)),
         snd (saveServers b (assign index server (known b p))
                (snd (getServers b p))))
    end.
Proof.
  intro R. unfold updateServer. rewrite read_then by exact R.
  destruct (findIndex _ _); [apply save_then_ret|reflexivity].
Qed.

Lemma removeServer_unfold (b : Browser) (s : string) (p : Page) :
  readable b p ->
  let updated := filter (fun c => negb (String.eqb (id c) s)) (known b p) in
  removeServer b s p =
    (Normal updated, snd (saveServers b updated (snd (getServers b p)))).
Proof.
  intro R. unfold removeServer. rewrite read_then by exact R.
  apply save_then_ret.
Qed.

(** Every edit of an item that is JSON of something else throws before
    it writes. *)
Lemma edit_non_array (b : Browser) (e : Edit) (p : Page) :
  window_defined b = true -> stored p = NotAnArray ->
  exists err, edit b e p = (Throw err, p).
Proof.
  intros W N. destruct e as [server|server|s]; simpl; eexists.
  - unfold addServer. now apply read_non_array.
  - unfold updateServer. now apply read_non_array.
  - unfold removeServer. now apply read_non_array.
Qed.

Lemma findIndex_none (server : MCPServerConfig)
  (l : list MCPServerConfig) :
  findIndex (same_id server) l = None <-> ~ In (id server) (ids l).
Proof.
  rewrite <- existsb_same_id.
  induction l as [|s l IH]; simpl.
  - split; [discriminate|reflexivity].
  - destruct (same_id server s); simpl.
    + split; [discriminate|intro H; now elim H].
    + destruct (findIndex (same_id server) l).
      * split; [discriminate|]. intro H. exfalso.
        destruct (existsb (same_id server) l); [now elim H|].
        destruct IH as [_ IH]. discriminate IH. discriminate.
      * split; [|reflexivity]. intros _. now apply IH.
Qed.

(** The index that [findIndex] gives is below the length, the element
    there has the id, and no element before has it. *)
Lemma findIndex_some (server : MCPServerConfig)
  (l : list MCPServerConfig) (i : nat) :
  findIndex (same_id server) l = Some i ->
  i < List.length l /\
  (exists s, nth_error l i = Some s /\ id s = id server) /\
  (forall j s, j < i -> nth_error l j = Some s -> id s <> id server).
Proof.
  revert i. induction l as [|c l IH]; intros i; simpl; [discriminate|].
  destruct (same_id server c) eqn:E.
  - intros [= <-]. split; [lia|]. split.
    + exists c. split; [reflexivity|]. now apply String.eqb_eq.
    + intros j s H. lia.
  - destruct (findIndex (same_id server) l) as [i'|]; [|discriminate].
    intros [= <-]. destruct (IH i' eq_refl) as (L & X & B).
    split; [lia|]. split; [exact X|].
    intros [|j] s H; simpl.
    + intros [= <-]. intro Q. unfold same_id in E.
      apply String.eqb_neq in E. contradiction.
    + apply B. lia.
Qed.

Lemma assign_spec (server : MCPServerConfig) (l : list MCPServerConfig)
  (i : nat) :
  findIndex (same_id server) l = Some i ->
  ids (assign i server l) = ids l /\
  nth_error (assign i server l) i = Some server /\
  (forall j, j <> i -> nth_error (assign i server l) j = nth_error l j) /\
  find (fun s => String.eqb (id s) (id server)) (assign i server l) =
    Some server.
Proof.
  revert i. induction l as [|c l IH]; intros i; simpl; [discriminate|].
  destruct (same_id server c) eqn:E.
  - intros [= <-]. simpl. rewrite String.eqb_refl.
    apply String.eqb_eq in E. rewrite E.
    repeat split. intros [|j] H; [congruence|reflexivity].
  - destruct (findIndex (same_id server) l) as [i'|]; [|discriminate].
    intros [= <-]. destruct (IH i' eq_refl) as (A & B & C & D).
    simpl. unfold same_id in E. rewrite E, A.
    repeat split; auto.
    intros [|j] H; simpl; auto.
Qed.

Lemma ids_filter_NoDup (f : MCPServerConfig -> bool)
  (l : list MCPServerConfig) :
  NoDup (ids l) -> NoDup (ids (filter f l)).
Proof.
  induction l as [|c l IH]; simpl; auto.
  intro N. inversion N as [|x xs I N']. subst.
  destruct (f c); simpl; auto.
  constructor; auto. intro H. apply I.
  unfold ids in *. apply in_map_iff in H. destruct H as (s & A & B).
  apply filter_In in B. apply in_map_iff. exists s. tauto.
Qed.

Lemma stored_servers_cases (p p' : Page) (l : list MCPServerConfig) :
  stored p' = stored p \/ stored p' = Stringified l ->
  stored_servers p' = stored_servers p \/ stored_servers p' = l.
Proof.
  unfold stored_servers. intros [-> | ->]; auto.
Qed.

Lemma known_unique (b : Browser) (p : Page) :
  NoDup (ids (stored_servers p)) -> NoDup (ids (known b p)).
Proof.
  unfold known. destruct (window_defined b); auto. intros _. constructor.
Qed.

(** One edit keeps the ids of the stored list distinct. *)
Lemma edit_unique (b : Browser) (e : Edit) (p : Page) :
  NoDup (ids (stored_servers p)) ->
  NoDup (ids (stored_servers (snd (edit b e p)))).
Proof.
  intro N.
  destruct (readable_dec b p) as [Rd|[W Q]].
  2:{ destruct (@edit_non_array b e p W Q) as (err & ->). exact N. }
  pose proof (@known_unique b p N) as K.
  pose proof (proj1 (getServers_page b p)) as G.
  assert (R : forall l, NoDup (ids l) ->
            NoDup (ids (stored_servers
              (snd (saveServers b l (snd (getServers b p))))))).
  { intros l Nl.
    destruct (@stored_servers_cases (snd (getServers b p))
                (snd (saveServers b l (snd (getServers b p)))) l
                (proj2 (saveServers_total b l _))) as [-> | ->]; auto.
    unfold stored_servers. now rewrite G. }
  assert (S0 : NoDup (ids (stored_servers (snd (getServers b p))))).
  { unfold stored_servers. now rewrite G. }
  destruct e as [server|server|s]; simpl.
  - rewrite addServer_unfold by exact Rd.
    destruct (existsb (same_id server) (known b p)) eqn:E; simpl; auto.
    apply R. rewrite ids_app. apply NoDup_snoc; auto.
    rewrite <- existsb_same_id. now rewrite E.
  - rewrite updateServer_unfold by exact Rd.
    destruct (findIndex (same_id server) (known b p)) as [i|] eqn:E;
      simpl; auto.
    apply R. now rewrite (proj1 (assign_spec _ _ E)).
  - rewrite removeServer_unfold by exact Rd. simpl. apply R.
    now apply ids_filter_NoDup.
Qed.

(** X12. In a browser whose item is not JSON of something else than an
    array, [addServer] throws for an id that the stored list has
    already, naming the id, and leaves the item as it was; for a new id
    it returns the stored list with the server at its end, and that list
    is what the item holds afterwards when the write goes through. When
    the item is JSON of something else than an array, [addServer] throws
    the [TypeError] of [some] and leaves the page as it was. *)
Theorem addServer_rejects_duplicates (b : Browser)
  (server : MCPServerConfig) (p : Page) :
  window_defined b = true ->
  (stored p = NotAnArray ->
     addServer b server p =
       (Throw (JsError (TypeError_message b "some")), p)) /\
  (stored p <> NotAnArray ->
     (In (id server) (ids (stored_servers p)) ->
        fst (addServer b server p) =
          Throw (JsError ("Server with id " ++ DQ ++ id server ++ DQ ++
                          " already exists")) /\
        stored (snd (addServer b server p)) = stored p) /\
     (~ In (id server) (ids (stored_servers p)) ->
        fst (addServer b server p) =
          Normal (stored_servers p ++ [server])%list /\
        (setItem_throws b (page_tick p) = None ->
           stored (snd (addServer b server p)) =
             Stringified (stored_servers p ++ [server])))).
Proof.
  intro W. split.
  { intro N. unfold addServer. now apply read_non_array. }
  intro N. rewrite addServer_unfold by (right; exact N).
  assert (K : known b p = stored_servers p) by (unfold known; now rewrite W).
  rewrite K. destruct (getServers_page b p) as (G & T).
  split; intro I.
  - apply existsb_same_id in I. rewrite I. simpl. auto.
  - destruct (existsb (same_id server) (stored_servers p)) eqn:E.
    + apply existsb_same_id in E. contradiction.
    + simpl. split; [reflexivity|]. intro Q.
      rewrite saveServers_written; [reflexivity|].
      split; [exact W|]. now rewrite T.
Qed.

Lemma addServer_rejects_duplicates_witness :
  fst (addServer Desk.browser (Sample.stdio_config "a")
         (Desk.page_with [Sample.stdio_config "a"])) =
    Throw (JsError ("Server with id " ++ DQ ++ "a" ++ DQ ++
                    " already exists")) /\
  stored (snd (addServer Desk.browser (Sample.stdio_config "b")
                 (Desk.page_with [Sample.stdio_config "a"]))) =
    Stringified [Sample.stdio_config "a"; Sample.stdio_config "b"].
Proof.
  assert (N : stored (Desk.page_with [Sample.stdio_config "a"]) <> NotAnArray)
    by discriminate.
  split.
  - apply (proj1 (proj2 (@addServer_rejects_duplicates Desk.browser
                           (Sample.stdio_config "a")
                           (Desk.page_with [Sample.stdio_config "a"])
                           eq_refl) N)).
    simpl. auto.
  - apply (proj2 (proj2 (@addServer_rejects_duplicates Desk.browser
                           (Sample.stdio_config "b")
                           (Desk.page_with [Sample.stdio_config "a"])
                           eq_refl) N)).
    + simpl. intros [H|[]]. discriminate.
    + reflexivity.
Defined.

(** X13. The ids of the stored list stay distinct under any sequence of
    [addServer], [updateServer] and [removeServer], in any browser,
    whether the calls return or throw and whether the writes go through
    or not. *)
Theorem ids_stay_unique (b : Browser) (es : list Edit) (p : Page) :
  NoDup (ids (stored_servers p)) ->
  NoDup (ids (stored_servers (edits b es p))).
Proof.
  revert p. induction es as [|e es IH]; intros p N; simpl; auto.
  apply IH. now apply edit_unique.
Qed.

Lemma ids_stay_unique_witness :
  NoDup (ids (stored_servers
    (edits Desk.browser
       [Add (Sample.stdio_config "a"); Add (Sample.stdio_config "a");
        Add (Sample.stdio_config "b"); Remove "a"]
       Desk.blank))).
Proof.
  apply ids_stay_unique. simpl. constructor.
Defined.

(** X14. In a browser whose item is not JSON of something else than an
    array, [updateServer] throws for an id that the stored list does not
    have and leaves the item as it was; otherwise it puts the server in
    the place of the first one with its id: the list it returns has the
    same ids in the same order, the other places are as they were, a
    search for the id finds the new server, and the list is what the
    item holds when the write goes through. When the item is JSON of
    something else than an array, [updateServer] throws the [TypeError]
    of [findIndex] and leaves the page as it was. *)
Theorem updateServer_replaces_in_place (b : Browser)
  (server : MCPServerConfig) (p : Page) :
  window_defined b = true ->
  (stored p = NotAnArray ->
     updateServer b server p =
       (Throw (JsError (TypeError_message b "findIndex")), p)) /\
  (stored p <> NotAnArray ->
   ~ In (id server) (ids (stored_servers p)) ->
     fst (updateServer b server p) =
       Throw (JsError ("Server with id " ++ DQ ++ id server ++ DQ ++
                       " not found")) /\
     stored (snd (updateServer b server p)) = stored p) /\
  (stored p <> NotAnArray ->
   In (id server) (ids (stored_servers p)) ->
     exists index updated,
       fst (updateServer b server p) = Normal updated /\
       ids updated = ids (stored_servers p) /\
       nth_error updated index = Some server /\
       (forall j, j <> index ->
          nth_error updated j = nth_error (stored_servers p) j) /\
       (forall j s, j < index -> nth_error (stored_servers p) j = Some s ->
          id s <> id server) /\
       find (fun s => String.eqb (id s) (id server)) updated = Some server /\
       (setItem_throws b (page_tick p) = None ->
          stored (snd (updateServer b server p)) = Stringified updated)).
Proof.
  intro W. split.
  { intro N. unfold updateServer. now apply read_non_array. }
  assert (K : known b p = stored_servers p) by (unfold known; now rewrite W).
  destruct (getServers_page b p) as (G & T).
  split; intros N I; rewrite updateServer_unfold by (right; exact N);
    rewrite K.
  - apply findIndex_none in I. rewrite I. simpl. auto.
  - destruct (findIndex (same_id server) (stored_servers p)) as [i|] eqn:E.
    + destruct (assign_spec _ _ E) as (A & B & C & D).
      destruct (findIndex_some _ _ E) as (_ & _ & F).
      exists i, (assign i server (stored_servers p)). simpl.
      repeat split; auto. intro Q.
      rewrite saveServers_written; [reflexivity|].
      split; [exact W|]. now rewrite T.
    + apply findIndex_none in E. contradiction.
Qed.

Lemma updateServer_replaces_in_place_witness :
  let renamed :=
    {| id := "a"; name := "renamed"; transport := "sse"; command := None;
       args := None; env := None; url := Some "http://localhost/sse" |} in
  fst (updateServer Desk.browser renamed Desk.blank) =
    Throw (JsError ("Server with id " ++ DQ ++ "a" ++ DQ ++ " not found")) /\
  exists index updated,
    fst (updateServer Desk.browser renamed
           (Desk.page_with
              [Sample.stdio_config "b"; Sample.stdio_config "a"])) =
      Normal updated /\
    nth_error updated index = Some renamed.
Proof.
  intro renamed. split.
  - apply (proj1 (proj2 (@updateServer_replaces_in_place Desk.browser
                           renamed Desk.blank eq_refl))).
    + discriminate.
    + simpl. tauto.
  - destruct (proj2 (proj2 (@updateServer_replaces_in_place Desk.browser
                              renamed
                              (Desk.page_with
                                 [Sample.stdio_config "b";
                                  Sample.stdio_config "a"])
                              eq_refl)))
      as (index & updated & A & _ & B & _).
    + discriminate.
    + simpl. auto.
    + exists index, updated. auto.
Defined.

Lemma find_filter_same (s : string) (l : list MCPServerConfig) :
  find (fun c => String.eqb (id c) s)
    (filter (fun c => negb (String.eqb (id c) s)) l) = None.
Proof.
  induction l as [|c l IH]; simpl; auto.
  destruct (String.eqb (id c) s) eqn:E; simpl; auto. now rewrite E.
Qed.

Lemma find_filter_other (s s' : string) (l : list MCPServerConfig) :
  s' <> s ->
  find (fun c => String.eqb (id c) s')
    (filter (fun c => negb (String.eqb (id c) s)) l) =
  find (fun c => String.eqb (id c) s') l.
Proof.
  intro D. induction l as [|c l IH]; simpl; auto.
  destruct (String.eqb (id c) s) eqn:E; simpl.
  - apply String.eqb_eq in E.
    destruct (String.eqb (id c) s') eqn:E'; auto.
    apply String.eqb_eq in E'. congruence.
  - now rewrite IH.
Qed.

Lemma getServerById_unfold (b : Browser) (s : string) (p : Page) :
  readable b p ->
  getServerById b s p =
    (Normal (find (fun c => String.eqb (id c) s) (known b p)),
     snd (getServers b p)).
Proof. intro R. unfold getServerById. now rewrite read_then. Qed.

(** X15. Unless the item is JSON of something else than an array,
    [removeServer] does not throw; the list it returns is the list that
    [getServers] gave, in the same order, without every server of that
    id. When the write goes through, a later [getServerById] finds
    nothing under the id, and finds under any other id what it found
    before. When the item is JSON of something else than an array,
    [removeServer] throws the [TypeError] of [filter], and
    [getServerById] that of [find]; the page is as it was. *)
Theorem removeServer_forgets (b : Browser) (serverId_ : string) (p : Page) :
  (window_defined b = true -> stored p = NotAnArray ->
     removeServer b serverId_ p =
       (Throw (JsError (TypeError_message b "filter")), p) /\
     getServerById b serverId_ p =
       (Throw (JsError (TypeError_message b "find")), p)) /\
  (readable b p ->
   let updated :=
     filter (fun c => negb (String.eqb (id c) serverId_)) (known b p) in
   let p' := snd (removeServer b serverId_ p) in
   fst (removeServer b serverId_ p) = Normal updated /\
   ~ In serverId_ (ids updated) /\
   subsequence updated (known b p) /\
   (forall c, In c (known b p) -> id c <> serverId_ -> In c updated) /\
   (writable b p ->
      stored p' = Stringified updated /\
      fst (getServerById b serverId_ p') = Normal None /\
      forall other, other <> serverId_ ->
        fst (getServerById b other p') = fst (getServerById b other p))).
Proof.
  split.
  { intros W N. split.
    - unfold removeServer. now apply read_non_array.
    - unfold getServerById. now apply read_non_array. }
  intros Rd updated p'. subst p'. rewrite removeServer_unfold by exact Rd.
  fold updated.
  simpl. split; [reflexivity|]. split; [|split; [|split]].
  - unfold ids, updated. rewrite in_map_iff. intros (c & A & B).
    apply filter_In in B. destruct B as [_ B]. subst serverId_.
    now rewrite String.eqb_refl in B.
  - unfold updated. induction (known b p) as [|c l IH]; simpl.
    + constructor.
    + destruct (negb _); now constructor.
  - intros c I D. apply filter_In. split; [exact I|].
    apply negb_true_iff. now apply String.eqb_neq.
  - intros [W Q]. destruct (getServers_page b p) as (G & T).
    rewrite saveServers_written by (split; [exact W|now rewrite T]).
    simpl. split; [reflexivity|].
    assert (K : forall q, known b q = stored_servers q)
      by (intro q; unfold known; now rewrite W).
    split.
    + rewrite getServerById_unfold by (right; discriminate).
      simpl. rewrite K.
      unfold updated. change (stored_servers _) with
        (filter (fun c => negb (String.eqb (id c) serverId_)) (known b p)).
      now rewrite find_filter_same.
    + intros other D.
      rewrite (@getServerById_unfold b other p Rd).
      rewrite getServerById_unfold by (right; discriminate).
      simpl.
      rewrite K. unfold updated. change (stored_servers _) with
        (filter (fun c => negb (String.eqb (id c) serverId_)) (known b p)).
      now rewrite find_filter_other.
Qed.

Lemma removeServer_forgets_witness :
  let p := Desk.page_with [Sample.stdio_config "a"; Sample.stdio_config "b"] in
  fst (getServerById Desk.browser "a"
         (snd (removeServer Desk.browser "a" p))) = Normal None.
Proof.
  intro p.
  apply (proj2 (proj2 (proj2 (proj2
           (proj2 (removeServer_forgets Desk.browser "a" p)
              (or_intror
                 (fun H : stored p = NotAnArray =>
                    eq_ind (stored p)
                      (fun i => match i with
                                | NotAnArray => False
                                | _ => True
                                end) I NotAnArray H))))))).
  split; reflexivity.
Defined.

(** X16. Where there is no [window], nothing is read and nothing is
    written: every function leaves the page exactly as it was, the list
    read is empty, [addServer] returns the one server without keeping
    it, [updateServer] always throws, and an import returns what the
    file holds. *)
Theorem without_window_nothing_is_kept (b : Browser) (p : Page)
  (server : MCPServerConfig) (serverId_ : string)
  (l : list MCPServerConfig) :
  window_defined b = false ->
  getServers b p = (Normal (Servers []), p) /\
  saveServers b l p = (Normal tt, p) /\
  addServer b server p = (Normal [server], p) /\
  updateServer b server p =
    (Throw (JsError ("Server with id " ++ DQ ++ id server ++ DQ ++
                     " not found")), p) /\
  removeServer b serverId_ p = (Normal [], p) /\
  getServerById b serverId_ p = (Normal None, p) /\
  (forall v at_ merge, truthy v = true ->
     importConfig b
       {| config_version := Some v; config_servers := Some l;
          exportedAt := at_ |} merge p = (Normal l, p)).
Proof.
  intro W.
  assert (K : known b p = []) by (unfold known; now rewrite W).
  pose proof (@getServers_no_window b p W) as G.
  assert (Rd : readable b p) by (left; exact W).
  split; [exact G|]. split; [now apply saveServers_no_window|].
  split; [|split; [|split; [|split]]].
  - rewrite addServer_unfold, K, G by exact Rd. simpl.
    now rewrite saveServers_no_window.
  - rewrite updateServer_unfold, K, G by exact Rd. reflexivity.
  - rewrite removeServer_unfold, K, G by exact Rd. simpl.
    now rewrite saveServers_no_window.
  - rewrite getServerById_unfold, K, G by exact Rd. reflexivity.
  - intros v at_ merge V. unfold importConfig. simpl. rewrite V. simpl.
    destruct merge.
    + rewrite read_then, K, G by exact Rd. simpl. rewrite save_then_ret.
      rewrite saveServers_no_window by exact W. simpl.
      f_equal. f_equal. induction l as [|c l IH]; simpl; auto.
      now rewrite IH.
    + rewrite save_then_ret. now rewrite saveServers_no_window.
Qed.

Lemma without_window_nothing_is_kept_witness :
  addServer Desk.server_side (Sample.stdio_config "a")
    (Desk.page_with [Sample.stdio_config "a"]) =
    (Normal [Sample.stdio_config "a"],
     Desk.page_with [Sample.stdio_config "a"]).
Proof.
  apply (@without_window_nothing_is_kept Desk.server_side
           (Desk.page_with [Sample.stdio_config "a"])
           (Sample.stdio_config "a") "a" [] eq_refl).
Defined.



Lemma subsequence_filter {A : Type} (f : A -> bool) (l : list A) :
  subsequence (filter f l) l.
Proof.
  induction l as [|c l IH]; simpl; [constructor|].
  destruct (f c); now constructor.
Qed.

Lemma Set_has_In (xs : list string) (x : string) :
  Set_has xs x = true <-> In x xs.
Proof.
  unfold Set_has. rewrite existsb_exists. split.
  - intros (y & I & E). apply String.eqb_eq in E. now subst.
  - intro I. exists x. split; [exact I|apply String.eqb_refl].
Qed.

Lemma importConfig_valid (b : Browser) (config : ExportedConfig)
  (imported : list MCPServerConfig) (merge : bool) (p : Page) :
  truthy_opt (config_version config) = true ->
  config_servers config = Some imported ->
  merge = false \/ readable b p ->
  let merged :=
    if merge
    then (known b p ++
          filter (fun s => negb (Set_has (map id (known b p)) (id s)))
            imported)%list
    else imported in
  importConfig b config merge p =
    (Normal merged,
     snd (saveServers b merged
            (if merge then snd (getServers b p) else p))).
Proof.
  intros V S0 Rd. unfold importConfig. rewrite V, S0. simpl.
  destruct merge.
  - destruct Rd as [Rd|Rd]; [discriminate|].
    rewrite read_then by exact Rd. cbv zeta. apply save_then_ret.
  - apply save_then_ret.
Qed.

(** X18. [importConfig] throws [Invalid config format], before it reads
    or writes anything, when the file has no version or its servers are
    not an array. Otherwise, without [merge] it returns the servers of
    the file as they are; with [merge], unless the item is JSON of
    something else than an array, it returns the list that [getServers]
    gave followed by those servers of the file, in their order, whose id
    that list does not have; ids that were distinct in both lists are
    distinct in the result. With [merge] and an item that is JSON of
    something else than an array it throws the [TypeError] of [map] and
    leaves the page as it was. *)
Theorem importConfig_merge_keeps_existing (b : Browser)
  (config : ExportedConfig) (p : Page) :
  (truthy_opt (config_version config) = false \/
   config_servers config = None ->
   forall merge,
     importConfig b config merge p =
       (Throw (JsError "Invalid config format"), p)) /\
  (forall imported,
     truthy_opt (config_version config) = true ->
     config_servers config = Some imported ->
     fst (importConfig b config false p) = Normal imported /\
     (window_defined b = true -> stored p = NotAnArray ->
        importConfig b config true p =
          (Throw (JsError (TypeError_message b "map")), p)) /\
     (readable b p ->
      exists added,
        fst (importConfig b config true p) =
          Normal (known b p ++ added)%list /\
        subsequence added imported /\
        (forall c, In c added <->
           In c imported /\ ~ In (id c) (ids (known b p))) /\
        (NoDup (ids (stored_servers p)) -> NoDup (ids imported) ->
         NoDup (ids (known b p ++ added))))).
Proof.
  split.
  - intros [V|S0] merge; unfold importConfig.
    + now rewrite V.
    + rewrite S0. destruct (negb _); reflexivity.
  - intros imported V S0.
    rewrite (@importConfig_valid b config imported false p V S0
               (or_introl eq_refl)).
    split; [reflexivity|]. split.
    { intros W N. unfold importConfig. rewrite V, S0. simpl.
      now apply read_non_array. }
    intro Rd.
    rewrite (@importConfig_valid b config imported true p V S0
               (or_intror Rd)).
    exists (filter (fun s => negb (Set_has (map id (known b p)) (id s)))
              imported).
    split; [reflexivity|]. split; [apply subsequence_filter|].
    assert (F : forall c,
      In c (filter (fun s => negb (Set_has (map id (known b p)) (id s)))
              imported) <->
      In c imported /\ ~ In (id c) (ids (known b p))).
    { intro c. rewrite filter_In, negb_true_iff.
      rewrite <- Set_has_In. unfold ids.
      destruct (Set_has (map id (known b p)) (id c)); intuition congruence. }
    split; [exact F|].
    intros N N'. rewrite ids_app. apply NoDup_app.
    + now apply known_unique.
    + now apply ids_filter_NoDup.
    + intros x I I'. unfold ids in I'. apply in_map_iff in I'.
      destruct I' as (c & <- & Ic). apply F in Ic. tauto.
Qed.

Lemma importConfig_merge_keeps_existing_witness :
  let file :=
    {| config_version := Some "1.0";
       config_servers :=
         Some [Sample.stdio_config "a"; Sample.stdio_config "c"];
       exportedAt := "2025-01-01T00:00:00.000Z" |} in
  let p := Desk.page_with [Sample.stdio_config "a"; Sample.stdio_config "b"] in
  fst (importConfig Desk.browser file false p) =
    Normal [Sample.stdio_config "a"; Sample.stdio_config "c"] /\
  importConfig Desk.browser
    {| config_version := None; config_servers := config_servers file;
       exportedAt := exportedAt file |} true p =
    (Throw (JsError "Invalid config format"), p).
Proof.
  intros file p. split.
  - apply (proj1 (proj2 (importConfig_merge_keeps_existing Desk.browser
                           file p)
                    [Sample.stdio_config "a"; Sample.stdio_config "c"]
                    eq_refl eq_refl)).
  - apply (proj1 (importConfig_merge_keeps_existing Desk.browser
                    {| config_version := None;
                       config_servers := config_servers file;
                       exportedAt := exportedAt file |} p)).
    left. reflexivity.
Defined.

Lemma filter_known_ids (l : list MCPServerConfig) :
  filter (fun s => negb (Set_has (map id l) (id s))) l = [].
Proof.
  assert (H : forall l0, incl l0 l ->
            filter (fun s => negb (Set_has (map id l) (id s))) l0 = []).
  { induction l0 as [|c l0 IH]; intro I; simpl; auto.
    assert (Q : Set_has (map id l) (id c) = true).
    { apply Set_has_In. apply in_map. apply I. now left. }
    rewrite Q. simpl. apply IH. intros x Ix. apply I. now right. }
  apply H. apply incl_refl.
Qed.

Lemma exportConfig_unfold (b : Browser) (p : Page) :
  readable b p ->
  exportConfig b p =
    (Normal {| config_version := Some CONFIG_VERSION;
               config_servers := Some (known b p);
               exportedAt := toISOString_now b (page_tick p) |},
     {| stored := stored p; page_tick := S (page_tick p);
        page_errors := page_errors (snd (getServers b p)) |}).
Proof.
  intro Rd. unfold exportConfig. unfold bind at 1.
  pose proof (@getServers_known b p Rd) as E.
  destruct (getServers_page b p) as (G & T).
  destruct (getServers b p) as [c p1]. simpl in *. subst c.
  unfold bind, page_ask, ret. simpl. now rewrite G, T.
Qed.

Lemma exportConfig_non_array (b : Browser) (p : Page) :
  window_defined b = true -> stored p = NotAnArray ->
  exportConfig b p =
    (Normal {| config_version := Some CONFIG_VERSION;
               config_servers := None;
               exportedAt := toISOString_now b (page_tick p) |},
     {| stored := stored p; page_tick := S (page_tick p);
        page_errors := page_errors p |}).
Proof.
  intros W N. unfold exportConfig. unfold bind at 1.
  rewrite (@getServers_non_array b p W N). reflexivity.
Qed.

(** X19. Unless the item is JSON of something else than an array, what
    [exportConfig] gives passes the check of [importConfig]: it has the
    version [1.0] and the list that [getServers] gave; importing it,
    with or without [merge], returns that list and leaves the stored
    list as it was. When the item is JSON of something else than an
    array, [exportConfig] gives that value for the servers, and
    [importConfig] refuses it with [Invalid config format]; the item is
    as it was. *)
Theorem export_then_import (b : Browser) (merge : bool) (p : Page) :
  let round :=
    (config <- exportConfig b ;; importConfig b config merge) in
  (readable b p ->
     (exists at_,
        fst (exportConfig b p) =
          Normal {| config_version := Some "1.0";
                    config_servers := Some (known b p);
                    exportedAt := at_ |}) /\
     fst (round p) = Normal (known b p) /\
     stored_servers (snd (round p)) = stored_servers p) /\
  (window_defined b = true -> stored p = NotAnArray ->
     (exists at_,
        fst (exportConfig b p) =
          Normal {| config_version := Some "1.0";
                    config_servers := None;
                    exportedAt := at_ |}) /\
     fst (round p) = Throw (JsError "Invalid config format") /\
     stored (snd (round p)) = stored p /\
     page_errors (snd (round p)) = page_errors p).
Proof.
  intro round. split.
  2:{ intros W N. subst round. unfold bind at 1 2 3.
      rewrite (@exportConfig_non_array b p W N). cbn [fst snd].
      split; [eexists; reflexivity|]. auto. }
  intro Rd.
  set (p1 := {| stored := stored p; page_tick := S (page_tick p);
                page_errors := page_errors (snd (getServers b p)) |}).
  set (p2 := if merge then snd (getServers b p1) else p1).
  assert (K1 : known b p1 = known b p) by reflexivity.
  assert (Rd1 : readable b p1) by exact Rd.
  assert (R : round p =
                (Normal (known b p), snd (saveServers b (known b p) p2))).
  { subst round. unfold bind at 1. rewrite exportConfig_unfold by exact Rd.
    cbv beta iota. fold p1.
    rewrite (@importConfig_valid b
               {| config_version := Some CONFIG_VERSION;
                  config_servers := Some (known b p);
                  exportedAt := toISOString_now b (page_tick p) |}
               (known b p) merge p1 eq_refl eq_refl (or_intror Rd1)).
    fold p2. destruct merge; [|reflexivity].
    rewrite K1, filter_known_ids, app_nil_r. reflexivity. }
  rewrite R, exportConfig_unfold by exact Rd. cbn [fst snd].
  split; [eexists; reflexivity|]. split; [reflexivity|].
  assert (S2 : stored p2 = stored p).
  { subst p2. destruct merge; [|reflexivity].
    now rewrite (proj1 (getServers_page b p1)). }
  destruct (window_defined b) eqn:W.
  - destruct (proj2 (saveServers_total b (known b p) p2)) as [Q|Q];
      unfold stored_servers; rewrite Q.
    + now rewrite S2.
    + unfold known. rewrite W. reflexivity.
  - rewrite saveServers_no_window by exact W. simpl.
    unfold stored_servers. now rewrite S2.
Qed.

Lemma export_then_import_witness :
  fst ((config <- exportConfig Desk.browser ;;
        importConfig Desk.browser config true) Desk.page_null) =
    Throw (JsError "Invalid config format") /\
  fst ((config <- exportConfig Desk.browser ;;
        importConfig Desk.browser config true)
         (Desk.page_with [Sample.stdio_config "a"])) =
    Normal [Sample.stdio_config "a"].
Proof.
  split.
  - apply (proj2 (export_then_import Desk.browser true Desk.page_null)
             eq_refl eq_refl).
  - apply (proj1 (export_then_import Desk.browser true
                    (Desk.page_with [Sample.stdio_config "a"]))).
    right. discriminate.
Defined.

(** *** The ids that [generateServerId] makes *)

Lemma lacks_append (c : ascii) (s s' : string) :
  lacks c (s ++ s') = lacks c s && lacks c s'.
Proof.
  induction s as [|a s IH]; simpl; auto.
  rewrite IH. now rewrite andb_assoc.
Qed.

Lemma lacks_substring (c : ascii) (s : string) (n m : nat) :
  lacks c s = true -> lacks c (substring n m s) = true.
Proof.
  revert n m. induction s as [|a s IH]; intros n m L.
  - destruct n, m; reflexivity.
  - simpl in L. apply andb_true_iff in L. destruct L as [La Ls].
    destruct n as [|n]; simpl.
    + destruct m as [|m]; simpl; auto. rewrite La. simpl. now apply IH.
    + now apply IH.
Qed.

Lemma lacks_string_of_uint (d : Decimal.uint) :
  lacks "_" (NilEmpty.string_of_uint d) = true.
Proof. induction d; simpl; auto. Qed.

Lemma generateServerId_unfold (b : Browser) (p : Page) :
  generateServerId b p =
    (Normal ("mcp-" ++ string_of_nat (browser_Date_now b (page_tick p)) ++
             "-" ++ substring 2 7 (browser_random36 b (S (page_tick p)))),
     {| stored := stored p; page_tick := S (S (page_tick p));
        page_errors := page_errors p |}).
Proof. reflexivity. Qed.

(** X20. [generateServerId] touches neither item nor log. When the text
    of the random number has no underscore, as a number written in base
    36 has none, the id that it makes starts with [mcp-] and has no
    underscore; so two tools of servers with generated ids get the same
    prefixed name in the chat route only when server and tool are the
    same. *)
Theorem generated_ids_do_not_collide (b : Browser) (p : Page) :
  (forall t, lacks "_" (browser_random36 b t) = true) ->
  exists s,
    fst (generateServerId b p) = Normal s /\
    same_page p (snd (generateServerId b p)) /\
    prefix "mcp-" s = true /\
    lacks "_" s = true /\
    forall q s' toolName toolName',
      fst (generateServerId b q) = Normal s' ->
      prefixedName s toolName = prefixedName s' toolName' ->
      s = s' /\ toolName = toolName'.
Proof.
  intro R.
  assert (L : forall q,
    lacks "_" ("mcp-" ++ string_of_nat (browser_Date_now b (page_tick q)) ++
               "-" ++ substring 2 7 (browser_random36 b (S (page_tick q))))
      = true).
  { intro q. rewrite !lacks_append. unfold string_of_nat.
    rewrite lacks_string_of_uint, lacks_substring by apply R.
    reflexivity. }
  rewrite generateServerId_unfold. eexists. split; [reflexivity|].
  split; [split; reflexivity|]. split; [apply prefix_append|].
  split; [apply L|].
  intros q s' toolName toolName'. rewrite generateServerId_unfold.
  intros [= <-]. apply prefixedName_injective; apply L.
Qed.

Lemma generated_ids_do_not_collide_witness :
  exists s,
    fst (generateServerId Desk.browser Desk.blank) = Normal s /\
    lacks "_" s = true.
Proof.
  destruct (@generated_ids_do_not_collide Desk.browser Desk.blank)
    as (s & A & _ & _ & B & _).
  - intro t. reflexivity.
  - exists s. split; [exact A|exact B].
Defined.

(** ** The routes of the client manager *)

Lemma guarded_normal {B : Type} (label : string) (failure : string -> B)
  (body : M Manager (Reply B)) (m m' : Manager) (r : Reply B) :
  body m = (Normal r, m') -> guarded label failure body m = (Normal r, m').
Proof. intro E. unfold guarded, try_catch. now rewrite E. Qed.

Lemma guarded_throw {B : Type} (label : string) (failure : string -> B)
  (body : M Manager (Reply B)) (m m' : Manager) (e : JsThrown) :
  body m = (Throw e, m') ->
  guarded label failure body m =
    (Normal (json (failure (message_or "Internal server error" e)) 500),
     {| clients := clients m'; cells := cells m'; next := next m';
        tick := tick m'; trace := trace m' ++ [EvConsoleError label] |}).
Proof. intro E. unfold guarded, try_catch. rewrite E. reflexivity. Qed.

(** What [connect] leaves behind: a state object that says connected,
    held by the entry of the id, or one that says error, with its
    message, and no entry of the id. *)
Lemma connect_outcome (w : World) (config_ : MCPServerConfig) (m : Manager) :
  exists r m',
    connect w config_ m = (Normal r, m') /\
    ((status (cells m' r) = ConnectionStatus.connected /\
      exists inst, JSMap.get (id config_) (clients m') = Some inst /\
                   state inst = r) \/
     (exists e,
        status (cells m' r) = ConnectionStatus.error /\
        error (cells m' r) = Some (message_or "Connection failed" e) /\
        JSMap.get (id config_) (clients m') = None)).
Proof.
  assert (Hest : forall m0, JSMap.get (id config_) (clients m0) = None ->
    exists r m',
      establish w config_ m0 = (Normal r, m') /\
      ((status (cells m' r) = ConnectionStatus.connected /\
        exists inst, JSMap.get (id config_) (clients m') = Some inst /\
                     state inst = r) \/
       (exists e,
          status (cells m' r) = ConnectionStatus.error /\
          error (cells m' r) = Some (message_or "Connection failed" e) /\
          JSMap.get (id config_) (clients m') = None))).
  { intros m0 G0.
    destruct (establish_spec w config_ m0)
      as (m' & E' & _ & _ &
          [(tr & _ & _ & _ & t & _ & _ & Hc & Hcell)|(e & Hc & Hcell & _)]).
    - exists (next m0), m'. split; [exact E'|]. left.
      rewrite Hcell. split; [reflexivity|].
      eexists. rewrite Hc. split; [apply get_set_same|reflexivity].
    - exists (next m0), m'. split; [exact E'|]. right. exists e.
      rewrite Hcell, Hc. auto. }
  unfold connect. unfold bind at 1. unfold clients_get, gets.
  destruct (JSMap.get (id config_) (clients m)) as [inst|] eqn:G.
  - unfold bind at 1. unfold read, gets.
    destruct (ConnectionStatus.eqb (status (cells m (state inst)))
                ConnectionStatus.connected) eqn:Q.
    + exists (state inst), m. split; [reflexivity|]. left.
      split; [now apply status_eqb_eq|]. eauto.
    + unfold bind.
      destruct (disconnect_spec w (id config_) m) as (m0 & E0 & Hc & _).
      rewrite E0. apply Hest. rewrite Hc. apply get_delete_same.
  - now apply Hest.
Qed.

Lemma or_else_opt_truthy (o : option string) (fallback : string) :
  truthy fallback = true -> truthy (or_else_opt o fallback) = true.
Proof.
  intro F. destruct o as [s|]; simpl; auto. unfold or_else.
  destruct (truthy s) eqn:E; auto.
Qed.

Lemma or_else_opt_some (o : option string) :
  truthy_opt o = true -> o = Some (or_else_opt o "").
Proof.
  destruct o as [s|]; simpl; [|discriminate]. unfold or_else.
  now intros ->.
Qed.

(** X21. The connect route always answers, with 200, 400 or 500, and
    [success] is true exactly with 200. A body without configuration, or
    with an empty id or transport, gets 400 and the manager is not
    touched. Otherwise the answer is 200 exactly when the server has a
    connected instance afterwards; a 500 then carries the id, a message
    that is not empty, and the map has no entry of the id. A body that
    cannot be read gets 500 with the message of the failure. *)
Theorem connect_route_reports_the_state (w : World)
  (request : Outcome (option MCPServerConfig)) (m : Manager) :
  exists reply m',
    connect_POST w request m = (Normal reply, m') /\
    (http_status reply = 200 \/ http_status reply = 400 \/
     http_status reply = 500) /\
    (connect_success (reply_body reply) = true <-> http_status reply = 200) /\
    (forall config_,
       request = Resolved (Some config_) ->
       truthy (id config_) = true -> truthy (transport config_) = true ->
       connect_serverId (reply_body reply) = id config_ /\
       ((http_status reply = 200 /\ has_connected m' (id config_) /\
         connect_error (reply_body reply) = None) \/
        (http_status reply = 500 /\
         JSMap.get (id config_) (clients m') = None /\
         exists msg, connect_error (reply_body reply) = Some msg /\
                     truthy msg = true))) /\
    (request = Resolved None \/
     (exists config_, request = Resolved (Some config_) /\
        (truthy (id config_) = false \/ truthy (transport config_) = false)) ->
     reply = json {| connect_success := false; connect_serverId := "";
                     connect_error := Some "Invalid server configuration" |}
               400 /\
     m' = m) /\
    (forall e, request = Rejected e ->
       reply = json {| connect_success := false; connect_serverId := "";
                       connect_error :=
                         Some (message_or "Internal server error" e) |} 500 /\
       same_store m m').
Proof.
  unfold connect_POST.
  destruct request as [[config_|]|e].
  - destruct (truthy (id config_)) eqn:Ti;
      [destruct (truthy (transport config_)) eqn:Tt|].
    + destruct (connect_outcome w config_ m)
        as (r & m1 & E & [(St & inst & G & Hr)|(e & St & Er & G)]).
      * do 2 eexists. split.
        { apply guarded_normal. unfold request_json. unfold bind at 1.
          unfold ret at 1. cbv zeta. rewrite Ti, Tt. simpl.
          unfold bind at 1. rewrite E. unfold bind, read, gets.
          rewrite St. reflexivity. }
        simpl. split; [auto|]. split; [tauto|]. split.
        { intros c [= <-] _ _. split; [reflexivity|]. left.
          split; [reflexivity|]. split; [|reflexivity].
          exists inst. split; [exact G|]. now rewrite Hr. }
        split.
        { intros [H|(c & [= <-] & [H|H])]; congruence. }
        intros e0 H. discriminate.
      * do 2 eexists. split.
        { apply guarded_normal. unfold request_json. unfold bind at 1.
          unfold ret at 1. cbv zeta. rewrite Ti, Tt. simpl.
          unfold bind at 1. rewrite E. unfold bind, read, gets.
          rewrite St, Er. reflexivity. }
        simpl. split; [auto|]. split; [split; discriminate|]. split.
        { intros c [= <-] _ _. split; [reflexivity|]. right.
          split; [reflexivity|]. split; [exact G|].
          eexists. split; [reflexivity|].
          now apply (@or_else_opt_truthy
                       (Some (message_or "Connection failed" e))). }
        split.
        { intros [H|(c & [= <-] & [H|H])]; congruence. }
        intros e0 H. discriminate.
    + do 2 eexists. split.
      { apply guarded_normal. unfold request_json. unfold bind at 1.
        unfold ret at 1. cbv zeta. rewrite Ti, Tt. reflexivity. }
      simpl. split; [auto|]. split; [split; discriminate|]. split.
      { intros c [= <-]. congruence. }
      split; [auto|]. intros e0 H. discriminate.
    + do 2 eexists. split.
      { apply guarded_normal. unfold request_json. unfold bind at 1.
        unfold ret at 1. cbv zeta. rewrite Ti. reflexivity. }
      simpl. split; [auto|]. split; [split; discriminate|]. split.
      { intros c [= <-]. congruence. }
      split; [auto|]. intros e0 H. discriminate.
  - do 2 eexists. split.
    { apply guarded_normal. reflexivity. }
    simpl. split; [auto|]. split; [split; discriminate|]. split.
    { intros c H. discriminate. }
    split; [auto|]. intros e0 H. discriminate.
  - do 2 eexists. split.
    { eapply guarded_throw. reflexivity. }
    simpl. split; [auto|]. split; [split; discriminate|]. split.
    { intros c H. discriminate. }
    split.
    { intros [H|(c & H & _)]; discriminate. }
    intros e0 [= <-]. split; [reflexivity|]. repeat split.
Qed.

Lemma state_eta (s : ServerConnectionState) :
  {| serverId := serverId s; status := status s; error := error s;
     connectedAt := connectedAt s |} = s.
Proof. now destruct s. Qed.

(** The status route on an id that is not empty. *)
Lemma status_GET_spec (s : string) (m : Manager) :
  truthy s = true ->
  fst (status_GET (Resolved s) m) =
    Normal (json (Listed
      match JSMap.get s (clients m) with
      | Some inst => cells m (state inst)
      | None => {| serverId := s; status := ConnectionStatus.disconnected;
                   error := None; connectedAt := None |}
      end) 200) /\
  clients (snd (status_GET (Resolved s) m)) = clients m /\
  new_effects m (snd (status_GET (Resolved s) m)) = [].
Proof.
  intro T. unfold status_GET, with_serverId.
  assert (N : new_effects m m = []).
  { unfold new_effects. apply skipn_all. }
  destruct (JSMap.get s (clients m)) as [inst|] eqn:G.
  - erewrite guarded_normal.
    2:{ unfold request_json. unfold bind at 1. unfold ret at 1.
        rewrite T. simpl. unfold getConnectionState. unmonad.
        rewrite G. rewrite state_eta. reflexivity. }
    simpl. auto.
  - erewrite guarded_normal.
    2:{ unfold request_json. unfold bind at 1. unfold ret at 1.
        rewrite T. simpl. unfold getConnectionState. unmonad.
        rewrite G. simpl. rewrite Nat.eqb_refl. reflexivity. }
    simpl. split; [reflexivity|]. split; [reflexivity|].
    unfold new_effects. simpl. apply skipn_all.
Qed.

(** X22. The disconnect route answers 200 with [success] for every id
    that is not empty, whether the server was connected or not and
    whether closing its client fails or not; afterwards the map has no
    entry of the id and the status route reports the server as
    disconnected. Without an id it answers 400 and touches nothing. *)
Theorem disconnect_route_always_succeeds (w : World)
  (request : Outcome (option string)) (m : Manager) :
  exists reply m',
    disconnect_POST w request m = (Normal reply, m') /\
    (forall s, request = Resolved (Some s) -> truthy s = true ->
       reply = json {| disconnect_success := true;
                       disconnect_error := None |} 200 /\
       clients m' = JSMap.delete s (clients m) /\
       ~ has_connected m' s /\
       (JSMap.get s (clients m) = None -> m' = m) /\
       fst (status_GET (Resolved s) m') =
         Normal (json (Listed
           {| serverId := s; status := ConnectionStatus.disconnected;
              error := None; connectedAt := None |}) 200)) /\
    (forall o, request = Resolved o -> truthy_opt o = false ->
       reply = json {| disconnect_success := false;
                       disconnect_error := Some "Server ID is required" |}
                 400 /\
       m' = m) /\
    (forall e, request = Rejected e ->
       reply = json {| disconnect_success := false;
                       disconnect_error :=
                         Some (message_or "Internal server error" e) |} 500 /\
       same_store m m').
Proof.
  unfold disconnect_POST. destruct request as [o|e].
  - destruct (truthy_opt o) eqn:T.
    + destruct o as [s|]; [|discriminate]. simpl in T.
      destruct (disconnect_spec w s m) as (m1 & E & Hc & _ & _ & Hn).
      do 2 eexists. split.
      { apply guarded_normal. unfold request_json. unfold bind at 1.
        unfold ret at 1. simpl. rewrite T. simpl. unfold or_else.
        rewrite T. unfold bind. rewrite E. reflexivity. }
      split.
      { intros s0 [= <-] _. split; [reflexivity|]. split; [exact Hc|].
        assert (G : JSMap.get s (clients m1) = None)
          by (rewrite Hc; apply get_delete_same).
        split; [intros (inst & G' & _); congruence|].
        split; [exact Hn|].
        rewrite (proj1 (@status_GET_spec s m1 T)). now rewrite G. }
      split; [intros o [= <-]; simpl; congruence|].
      intros e H. discriminate.
    + do 2 eexists. split.
      { apply guarded_normal. unfold request_json. unfold bind at 1.
        unfold ret at 1. rewrite T. reflexivity. }
      split; [intros s [= ->] Q; simpl in T; congruence|].
      split; [auto|]. intros e H. discriminate.
  - do 2 eexists. split.
    { eapply guarded_throw. reflexivity. }
    split; [intros s H; discriminate|]. split; [intros o H; discriminate|].
    intros e0 [= <-]. split; [reflexivity|]. repeat split.
Qed.

(** X23. For a manager that the operations produce, the status route
    answers 200 for every id that is not empty and never reports
    [connecting] or [error]: the state is [connected], with its time and
    without error text, when the map has an entry of the id, and
    [disconnected] otherwise. The map is not changed and no server is
    contacted. *)
Theorem status_route_reports_two_states (s : string) (m : Manager) :
  reachable m -> truthy s = true ->
  exists st,
    fst (status_GET (Resolved s) m) = Normal (json (Listed st) 200) /\
    serverId st = s /\
    ((has_connected m s /\ status st = ConnectionStatus.connected /\
      exists t, connectedAt st = Some t) \/
     (~ has_connected m s /\ status st = ConnectionStatus.disconnected /\
      error st = None /\ connectedAt st = None)) /\
    clients (snd (status_GET (Resolved s) m)) = clients m /\
    new_effects m (snd (status_GET (Resolved s) m)) = [].
Proof.
  intros R T. pose proof (reachable_ok R) as Ok.
  destruct (@status_GET_spec s m T) as (A & B & C).
  eexists. split; [exact A|]. split; [|split; [|split; [exact B|exact C]]].
  - destruct (JSMap.get s (clients m)) as [inst|] eqn:G; [|reflexivity].
    now apply (Ok s inst G).
  - destruct (JSMap.get s (clients m)) as [inst|] eqn:G.
    + destruct (Ok s inst G) as (_ & St & Ht & _). left.
      split; [exists inst; split; assumption|]. auto.
    + right. split; [intros (inst & G' & _); congruence|]. auto.
Qed.

Lemma status_route_reports_two_states_witness :
  exists st,
    fst (status_GET (Resolved "a") Sample.manager_a) =
      Normal (json (Listed st) 200) /\
    serverId st = "a".
Proof.
  destruct (@status_route_reports_two_states "a" Sample.manager_a)
    as (st & A & B & _).
  - unfold Sample.manager_a. apply reachable_connect. exact reachable_new.
  - reflexivity.
  - exists st. split; [exact A|exact B].
Defined.

Lemma request_not_connected {A : Type} (s : string) (m : Manager)
  (k : Client -> M Manager A) :
  ~ has_connected m s ->
  (client_ <- getClient s ;;
   match client_ with
   | None => throw (not_connected s)
   | Some c => k c
   end) m = (Throw (not_connected s), m).
Proof.
  intro N. unfold bind. now rewrite (getClient_not_connected N).
Qed.

Lemma with_serverId_throw {A : Type} (label s : string)
  (answer : string -> M Manager A) (m m' : Manager) (e : JsThrown) :
  truthy s = true -> answer s m = (Throw e, m') ->
  with_serverId label (Resolved s) answer m =
    (Normal (json (ListingError (message_or "Internal server error" e)) 500),
     logged label m').
Proof.
  intros T E. unfold with_serverId. eapply guarded_throw.
  unfold request_json. unfold bind at 1. unfold ret at 1. rewrite T. simpl.
  unfold bind. now rewrite E.
Qed.

Lemma with_serverId_normal {A : Type} (label s : string)
  (answer : string -> M Manager A) (m m' : Manager) (a : A) :
  truthy s = true -> answer s m = (Normal a, m') ->
  with_serverId label (Resolved s) answer m =
    (Normal (json (Listed a) 200), m').
Proof.
  intros T E. unfold with_serverId. eapply guarded_normal.
  unfold request_json. unfold bind at 1. unfold ret at 1. rewrite T. simpl.
  unfold bind. now rewrite E.
Qed.

Lemma or_else_truthy (s : string) : truthy s = true -> or_else s "" = s.
Proof. unfold or_else. now intros ->. Qed.

(** X24. For a server without connected instance, each of the six routes
    that ask a server (the lists of tools, prompts and resources, the
    execution of a tool, the prompt and the resource) answers 500 with
    the message that the server is not connected; it logs the error and
    does nothing else: no request is sent and the manager is as it
    was. *)
Theorem routes_refuse_unconnected_server (w : World) (m : Manager)
  (s toolName promptName uri_ : string) (args_ : option Json)
  (promptArgs : option (list (string * string))) :
  truthy s = true -> truthy toolName = true -> truthy promptName = true ->
  truthy uri_ = true -> ~ has_connected m s ->
  refuses ListingError "MCP list tools error:" s
    (tools_GET w (Resolved s)) m /\
  refuses ListingError "MCP list prompts error:" s
    (prompts_GET w (Resolved s)) m /\
  refuses ListingError "MCP list resources error:" s
    (resources_GET w (Resolved s)) m /\
  refuses execute_failure "MCP execute tool error:" s
    (tool_POST w (Resolved
       {| tool_request_serverId := Some s;
          tool_request_toolName := Some toolName;
          tool_request_arguments := args_ |})) m /\
  refuses execute_failure "MCP get prompt error:" s
    (prompt_POST w (Resolved
       {| prompt_request_serverId := Some s;
          prompt_request_promptName := Some promptName;
          prompt_request_arguments := promptArgs |})) m /\
  refuses execute_failure "MCP read resource error:" s
    (resource_POST w (Resolved
       {| resource_request_serverId := Some s;
          resource_request_uri := Some uri_ |})) m.
Proof.
  intros Ts Tt Tp Tu N. unfold refuses.
  split; [|split; [|split; [|split; [|split]]]].
  - unfold tools_GET. apply (@with_serverId_throw _ _ _ _ m m (not_connected s)); [exact Ts|].
    unfold listTools. now apply request_not_connected.
  - unfold prompts_GET. apply (@with_serverId_throw _ _ _ _ m m (not_connected s)); [exact Ts|].
    unfold listPrompts. now apply request_not_connected.
  - unfold resources_GET. apply (@with_serverId_throw _ _ _ _ m m (not_connected s)); [exact Ts|].
    unfold listResources. now apply request_not_connected.
  - unfold tool_POST.
    apply (@guarded_throw _ _ _ _ m m (not_connected s)).
    unfold request_json. unfold bind at 1. unfold ret at 1. simpl.
    rewrite Ts, Tt. simpl. rewrite !or_else_truthy by assumption.
    unfold bind at 1. now rewrite callTool_not_connected.
  - unfold prompt_POST.
    apply (@guarded_throw _ _ _ _ m m (not_connected s)).
    unfold request_json. unfold bind at 1. unfold ret at 1. simpl.
    rewrite Ts, Tp. simpl. rewrite !or_else_truthy by assumption.
    unfold bind at 1. unfold getPrompt.
    now rewrite request_not_connected.
  - unfold resource_POST.
    apply (@guarded_throw _ _ _ _ m m (not_connected s)).
    unfold request_json. unfold bind at 1. unfold ret at 1. simpl.
    rewrite Ts, Tu. simpl. rewrite !or_else_truthy by assumption.
    unfold bind at 1. unfold readResource.
    now rewrite request_not_connected.
Qed.

Lemma routes_refuse_unconnected_server_witness :
  tools_GET Sample.quiet (Resolved "b") Sample.manager_a =
    (Normal (json (ListingError "Server b is not connected") 500),
     logged "MCP list tools error:" Sample.manager_a).
Proof.
  apply (@routes_refuse_unconnected_server Sample.quiet Sample.manager_a
           "b" "echo" "greet" "file:///x" None None
           eq_refl eq_refl eq_refl eq_refl).
  intros (inst & G & _). vm_compute in G. discriminate.
Defined.




(** ** The chat route before the stream *)






Lemma message_parts_nonempty (msg : ChatMessage) : message_parts msg <> [].
Proof.
  unfold message_parts. cbv zeta.
  destruct ((if truthy (message_content msg)
             then [TextPart (message_content msg)] else []) ++
            match message_images msg with
            | Some imgs => inline_parts imgs
            | None => []
            end)%list; simpl; discriminate.
Qed.

(** The collection of the tools ends, keeps the store, and gives names
    that the map resolves. *)
Lemma collectTools_spec (w : World) (m : Manager) :
  exists acc m',
    collectTools w m = (Normal acc, m') /\ same_store m m' /\
    names_sound acc.
Proof.
  destruct (collectTools_sound w m) as (acc & m' & E & N).
  exists acc, m'. split; [exact E|]. split; [|exact N].
  revert E. unfold collectTools. unfold bind at 1.
  unfold getConnectedServerIds, gets.
  set (ids_ := map fst _).
  assert (F0 : from_connected m (@nil ToolEntry, @JSMap.empty ServerInfo)).
  { split; simpl; [intros entry []|intros key info G; discriminate]. }
  destruct (@collect_servers_spec w ids_ ([], JSMap.empty) m F0)
    as (acc1 & m1 & E1 & SS & _).
  rewrite E1. now intros [= _ <-].
Qed.

Lemma last_in {A : Type} (l : list A) (d : A) : In (last (d :: l) d) (d :: l).
Proof.
  revert d. induction l as [|x l IH]; intro d; [now left|].
  right. change (last (d :: x :: l) d) with (last (x :: l) d).
  assert (Q : forall d', last (x :: l) d' = last (x :: l) x).
  { clear. revert x. induction l as [|y l IH]; intros x d'; [reflexivity|].
    change (last (x :: y :: l) d') with (last (y :: l) d').
    change (last (x :: y :: l) x) with (last (y :: l) x).
    now rewrite (IH y d'), (IH y x). }
  rewrite Q. apply IH.
Qed.

Lemma removelast_length {A : Type} (l : list A) (d : A) :
  S (List.length (removelast (d :: l))) = List.length (d :: l).
Proof.
  revert d. induction l as [|x l IH]; intro d; [reflexivity|].
  change (removelast (d :: x :: l)) with (d :: removelast (x :: l)).
  change (List.length (d :: removelast (x :: l)))
    with (S (List.length (removelast (x :: l)))).
  rewrite (IH x). reflexivity.
Qed.

(** The first part of [POST] on messages that are there, with the key. *)
Lemma POST_prelude_accepted (w : World) (apiKey : option string)
  (body : ChatRequestBody) (first : ChatMessage) (rest : list ChatMessage)
  (m : Manager) :
  body_messages body = Some (first :: rest) ->
  truthy_opt apiKey = true ->
  exists allTools tm m',
    collectTools w m = (Normal (allTools, tm), m') /\
    same_store m m' /\ names_sound (allTools, tm) /\
    POST_prelude w apiKey (Resolved body) m =
      (Normal
         (if String.eqb (role (last (first :: rest) first)) "user"
          then Streaming
                 (map (fun entry => convertMCPToolToGemini (entry_tool entry))
                    allTools)
                 (map history_entry (removelast (first :: rest)))
                 {| toolServerMap := tm;
                    lastMessage := last (first :: rest) first;
                    lastMessageParts :=
                      message_parts (last (first :: rest) first);
                    sessionId := body_sessionId body;
                    messageId := body_messageId body |}
          else Refused 400 "Last message must be from user"),
       m').
Proof.
  intros B K.
  destruct (collectTools_spec w m) as ([allTools tm] & m' & E & SS & N).
  exists allTools, tm, m'. split; [exact E|]. split; [exact SS|].
  split; [exact N|].
  unfold POST_prelude, try_catch, request_json. unfold bind at 1.
  unfold ret at 1. rewrite B, K. cbn [negb]. cbv zeta.
  unfold bind at 1. rewrite E. cbn [fst snd].
  destruct (String.eqb (role (last (first :: rest) first)) "user");
    reflexivity.
Qed.

(** X27. When the first part of [POST] goes on to the stream, the request
    had at least one message and the last one is from the user; the
    history has one entry for each message before the last, each with
    the role [user] or [model] and with at least one part; the parts of
    the last message are not empty; session and message id are those of
    the body. Every function declared to the model has a description
    that is not empty, a schema of type [object], and a name that the
    map of the tools resolves. The map of the manager is as it was. *)
Theorem chat_history_is_well_formed (w : World) (apiKey : option string)
  (body : ChatRequestBody) (m m' : Manager)
  (functionDeclarations : list FunctionDeclaration) (history : list Content)
  (ctx : StreamContext) :
  POST_prelude w apiKey (Resolved body) m =
    (Normal (Streaming functionDeclarations history ctx), m') ->
  exists messages,
    body_messages body = Some messages /\
    In (lastMessage ctx) messages /\
    role (lastMessage ctx) = "user" /\
    List.length messages = S (List.length history) /\
    Forall (fun c =>
              (content_role c = "user" \/ content_role c = "model") /\
              content_parts c <> []) history /\
    lastMessageParts ctx <> [] /\
    sessionId ctx = body_sessionId body /\
    messageId ctx = body_messageId body /\
    (forall d, In d functionDeclarations ->
       truthy (declaration_description d) = true /\
       Json_field "type" (parametersJsonSchema d) = Some (JStr "object") /\
       JSMap.get (declaration_name d) (toolServerMap ctx) <> None) /\
    same_store m m'.
Proof.
  intro E.
  destruct (body_messages body) as [[|first rest]|] eqn:B.
  - exfalso. revert E. unfold POST_prelude, try_catch, request_json.
    unfold bind at 1. unfold ret at 1. rewrite B. discriminate.
  - destruct (truthy_opt apiKey) eqn:K.
    + destruct (@POST_prelude_accepted w apiKey body first rest m B K)
        as (allTools & tm & m1 & _ & SS & [_ Ne] & P).
      rewrite P in E.
      destruct (String.eqb (role (last (first :: rest) first)) "user")
        eqn:R; [|discriminate].
      injection E as <- <- <- <-.
      exists (first :: rest). split; [reflexivity|]. cbn [lastMessage].
      split; [apply last_in|]. split; [now apply String.eqb_eq|].
      split; [rewrite length_map; symmetry; apply removelast_length|].
      split.
      { apply Forall_forall. intros c I. apply in_map_iff in I.
        destruct I as (msg & <- & _). simpl. split.
        - destruct (String.eqb (role msg) "user"); auto.
        - apply message_parts_nonempty. }
      cbn [lastMessageParts sessionId messageId toolServerMap].
      split; [apply message_parts_nonempty|]. split; [reflexivity|].
      split; [reflexivity|]. split; [|exact SS].
      intros d I. apply in_map_iff in I. destruct I as (entry & <- & I).
      split; [|split].
      * unfold convertMCPToolToGemini. cbn [declaration_description].
        now apply or_else_opt_truthy.
      * unfold convertMCPToolToGemini. cbn [parametersJsonSchema].
        destruct (inputSchema (entry_tool entry)) as [schema|];
          [destruct (Json_truthy schema)|]; reflexivity.
      * destruct (Ne entry I) as (toolName & _ & G). exact G.
    + exfalso. revert E. unfold POST_prelude, try_catch, request_json.
      unfold bind at 1. unfold ret at 1. rewrite B, K. discriminate.
  - exfalso. revert E. unfold POST_prelude, try_catch, request_json.
    unfold bind at 1. unfold ret at 1. rewrite B. discriminate.
Qed.

Lemma chat_history_is_well_formed_witness :
  let earlier :=
    {| role := "assistant"; message_content := "hi";
       message_images := None |} in
  let latest :=
    {| role := "user"; message_content := "hello";
       message_images := None |} in
  let body :=
    {| body_messages := Some [earlier; latest]; body_sessionId := None;
       body_messageId := None |} in
  exists messages,
    body_messages body = Some messages /\ List.length messages = 2.
Proof.
  intros earlier latest body.
  assert (E : POST_prelude Sample.quiet (Some "key") (Resolved body)
                Sample.manager_a =
              (Normal (Streaming []
                 [{| content_role := "model";
                     content_parts := [TextPart "hi"] |}]
                 {| toolServerMap := []; lastMessage := latest;
                    lastMessageParts := [TextPart "hello"];
                    sessionId := None; messageId := None |}),
               snd (collectTools Sample.quiet Sample.manager_a)))
    by (vm_compute; reflexivity).
  destruct (@chat_history_is_well_formed _ _ _ _ _ _ _ _ E)
    as (messages & A & _ & _ & B & _).
  exists messages. split; [exact A|exact B].
Defined.

Lemma POST_unfold (fuel : nat) (cw : ChatWorld) (apiKey : option string)
  (request : Outcome ChatRequestBody) (m m1 : Manager) (p : Prelude) :
  POST_prelude (world cw) apiKey request m = (Normal p, m1) ->
  POST fuel cw apiKey request m =
    match p with
    | Refused status_ error_ => (Normal (Some (JsonError status_ error_)), m1)
    | Streaming _ _ ctx =>
        (Normal match fst (start fuel cw ctx (new_turn m1)) with
                | Diverge => None
                | _ => Some (EventStream
                               (queue (snd (start fuel cw ctx (new_turn m1))))
                               (closed (snd (start fuel cw ctx (new_turn m1)))))
                end,
         manager (snd (start fuel cw ctx (new_turn m1))))
    end.
Proof.
  intro E. unfold POST. unfold bind. rewrite E.
  destruct p as [st er|ds hs ctx]; [reflexivity|].
  destruct (start fuel cw ctx (new_turn m1)) as [c t]. reflexivity.
Qed.

(** X28. The chat route never throws and leaves the map of the manager
    as it was. It refuses in this order: with 400 when the
    messages are missing or empty, with 500 when the key of the model is
    not configured, both before any server is asked; with 400 when the
    last message is not from the user, after the connected servers have
    been asked for their tools; a body that cannot be read gets 500 with
    the message of the failure. Otherwise the answer is an event stream
    that is closed and holds frames of tool calls followed either by the
    text, if there is one, and [done], or by one [error]. *)
Theorem chat_route_answers (fuel : nat) (cw : ChatWorld)
  (apiKey : option string) (request : Outcome ChatRequestBody) (m : Manager) :
  exists reply m',
    POST fuel cw apiKey request m = (Normal reply, m') /\
    same_store m m' /\
    (forall body, request = Resolved body ->
       body_messages body = None \/ body_messages body = Some [] ->
       reply = Some (JsonError 400 "Messages array is required") /\ m' = m) /\
    (forall body first rest, request = Resolved body ->
       body_messages body = Some (first :: rest) ->
       truthy_opt apiKey = false ->
       reply = Some (JsonError 500 "GEMINI_API_KEY is not configured") /\
       m' = m) /\
    (forall body first rest, request = Resolved body ->
       body_messages body = Some (first :: rest) ->
       truthy_opt apiKey = true ->
       role (last (first :: rest) first) <> "user" ->
       reply = Some (JsonError 400 "Last message must be from user") /\
       m' = snd (collectTools (world cw) m)) /\
    (forall e, request = Rejected e ->
       reply = Some (JsonError 500 (message_or "Internal server error" e))) /\
    (forall frames closed_, reply = Some (EventStream frames closed_) ->
       closed_ = true /\
       exists fs, tool_frames fs /\
         ((exists text,
             frames = (fs ++ text_frames text ++ [done_frame])%list) \/
          (exists e,
             frames =
               (fs ++ [error_frame (message_or "Internal server error" e)])
               %list))) /\
    (reply = None ->
     exists ctx,
       fst (start fuel cw ctx (new_turn (snd (collectTools (world cw) m)))) =
         Diverge).
Proof.
  assert (Hrefused : forall st er m1,
    POST_prelude (world cw) apiKey request m = (Normal (Refused st er), m1) ->
    same_store m m1 ->
    exists reply m',
      POST fuel cw apiKey request m = (Normal reply, m') /\
      same_store m m' /\ reply = Some (JsonError st er) /\ m' = m1).
  { intros st er m1 E SS. rewrite (@POST_unfold fuel cw apiKey request m m1 _ E).
    do 2 eexists. split; [reflexivity|]. auto. }
  destruct request as [body|e].
  - destruct (body_messages body) as [[|first rest]|] eqn:B.
    + destruct (Hrefused 400 "Messages array is required" m)
        as (reply & m' & E & SS & -> & ->).
      { unfold POST_prelude, try_catch, request_json. unfold bind at 1.
        unfold ret at 1. now rewrite B. }
      { apply same_store_refl. }
      exists (Some (JsonError 400 "Messages array is required")), m.
      split; [exact E|]. split; [exact SS|].
      split; [auto|]. split; [intros b f r [= <-]; congruence|].
      split; [intros b f r [= <-]; congruence|].
      split; [intros e0 H; discriminate|]. split; [intros fr c H; discriminate|intro H; discriminate].
    + destruct (truthy_opt apiKey) eqn:K.
      * destruct (@POST_prelude_accepted (world cw) apiKey body first rest
                    m B K) as (allTools & tm & m1 & Ec & SS & _ & P).
        destruct (String.eqb (role (last (first :: rest) first)) "user")
          eqn:R.
        -- rewrite (@POST_unfold fuel cw apiKey (Resolved body) m m1 _ P).
           set (ctx := {| toolServerMap := tm;
                          lastMessage := last (first :: rest) first;
                          lastMessageParts :=
                            message_parts (last (first :: rest) first);
                          sessionId := body_sessionId body;
                          messageId := body_messageId body |}).
           pose proof (@keeps_start fuel cw ctx (new_turn m1)) as KS.
           destruct (@start_spec fuel cw ctx (new_turn m1) eq_refl)
             as (r & t' & fs & Es & F & H).
           rewrite Es in *. cbn [fst snd] in *.
           do 2 eexists. split; [reflexivity|].
           split; [eapply same_store_trans; [exact SS|exact KS]|].
           split; [intros b [= <-] [Q|Q]; congruence|].
           split; [intros b f r0 [= <-]; congruence|].
           split.
           { intros b f r0 [= <-] B' _ N. rewrite B in B'.
             injection B' as <- <-. apply String.eqb_eq in R.
             contradiction. }
           split; [intros e0 H0; discriminate|].
           split.
           { intros frames closed_ Q.
             destruct r as [[]|e|]; [|contradiction|discriminate].
             injection Q as <- <-. destruct H as [C H].
             split; [exact C|]. exists fs. split; [exact F|].
             destruct H as [(text & Q)|(e & _ & Q)]; rewrite Q; simpl; eauto. }
           intro Q. exists ctx. rewrite Ec. cbn [snd]. rewrite Es.
           destruct r as [[]|e|]; [discriminate|contradiction|reflexivity].
        -- destruct (Hrefused 400 "Last message must be from user" m1 P SS)
             as (reply & m' & E & SS' & -> & ->).
           do 2 eexists. split; [exact E|]. split; [exact SS'|].
           split; [intros b [= <-] [Q|Q]; congruence|].
           split; [intros b f r0 [= <-]; congruence|].
           split.
           { intros b f r0 [= <-] _ _ _. split; [reflexivity|].
             now rewrite Ec. }
           split; [intros e0 H0; discriminate|].
           split; [intros fr c H; discriminate|intro H; discriminate].
      * destruct (Hrefused 500 "GEMINI_API_KEY is not configured" m)
          as (reply & m' & E & SS & -> & ->).
        { unfold POST_prelude, try_catch, request_json. unfold bind at 1.
          unfold ret at 1. now rewrite B, K. }
        { apply same_store_refl. }
        do 2 eexists. split; [exact E|]. split; [exact SS|].
        split; [intros b [= <-] [Q|Q]; congruence|].
        split; [auto|].
        split; [intros b f r0 [= <-]; congruence|].
        split; [intros e0 H0; discriminate|].
        split; [intros fr c H; discriminate|intro H; discriminate].
    + destruct (Hrefused 400 "Messages array is required" m)
        as (reply & m' & E & SS & -> & ->).
      { unfold POST_prelude, try_catch, request_json. unfold bind at 1.
        unfold ret at 1. now rewrite B. }
      { apply same_store_refl. }
      do 2 eexists. split; [exact E|]. split; [exact SS|].
      split; [auto|]. split; [intros b f r [= <-]; congruence|].
      split; [intros b f r [= <-]; congruence|].
      split; [intros e0 H; discriminate|]. split; [intros fr c H; discriminate|intro H; discriminate].
  - destruct (Hrefused 500 (message_or "Internal server error" e)
                (logged "Chat API error:" m))
      as (reply & m' & E & SS & -> & ->).
    { reflexivity. }
    { repeat split. }
    do 2 eexists. split; [exact E|]. split; [exact SS|].
    split; [intros b H; discriminate|].
    split; [intros b f r H; discriminate|].
    split; [intros b f r H; discriminate|].
    split; [intros e0 [= <-]; reflexivity|].
    split; [intros fr c H; discriminate|intro H; discriminate].
Qed.

(** ** The image store *)

Ltac unstore :=
  unfold store_await, store_emit, store_ask, bind, ret, throw, modify,
    try_catch in *.

(** X29. [uploadAndSaveImage] never throws. It asks for the upload of
    the cleaned data under [sessionId/messageId/filename]; only when the
    upload has gone through does it ask for the insert of the metadata,
    with the size computed from the cleaned data; and it returns the
    public url of that path with the row exactly when both have gone
    through. In every other case it returns nothing and logs; when the
    insert fails, the uploaded file is not removed. *)
Theorem upload_is_all_or_nothing (sb : Supabase)
  (base64Data sessionId_ messageId_ : string) (options : UploadOptions)
  (st : Store) :
  let mimeType := or_else_opt (option_mimeType options) "image/png" in
  let filename :=
    or_else_opt (option_filename options)
      ("image_" ++ string_of_nat (supabase_Date_now sb (store_tick st)) ++
       "." ++ extension mimeType) in
  let storagePath := sessionId_ ++ "/" ++ messageId_ ++ "/" ++ filename in
  let sizeBytes :=
    ceil_three_quarters (String.length (base64Clean base64Data)) in
  let upload := StoreUpload storagePath (base64Clean base64Data) mimeType in
  let insert :=
    StoreInsert messageId_ storagePath (option_filename options) mimeType
      sizeBytes in
  let uploaded :=
    storage_upload sb (S (store_tick st)) storagePath
      (base64Clean base64Data) mimeType in
  let inserted :=
    images_insert sb (S (S (store_tick st))) messageId_ storagePath
      (option_filename options) mimeType sizeBytes in
  let run :=
    uploadAndSaveImage_impl sb base64Data sessionId_ messageId_ options st in
  exists result,
    fst run = Normal result /\
    match result with
    | Some (publicUrl, metadata) =>
        uploaded = Resolved None /\
        inserted = Resolved (inr metadata) /\
        publicUrl = storage_getPublicUrl sb storagePath /\
        store_events (snd run) = (store_events st ++ [upload; insert])%list
    | None =>
        exists labels,
          labels <> [] /\
          ((uploaded <> Resolved None /\
            store_events (snd run) =
              (store_events st ++ upload :: map StoreConsoleError labels)
              %list) \/
           (uploaded = Resolved None /\
            (forall metadata, inserted <> Resolved (inr metadata)) /\
            store_events (snd run) =
              (store_events st ++
               upload :: insert :: map StoreConsoleError labels)%list))
    end.
Proof.
  intros mimeType filename storagePath sizeBytes upload insert uploaded
    inserted run.
  assert (T : truthy storagePath = true).
  { unfold storagePath. destruct sessionId_; reflexivity. }
  assert (TM : or_else_opt (Some mimeType) "image/png" = mimeType).
  { unfold mimeType. simpl. unfold or_else.
    destruct (option_mimeType options) as [s|]; simpl; [|reflexivity].
    unfold or_else. destruct (truthy s) eqn:E; [now rewrite E|reflexivity]. }
  subst run uploaded inserted. unfold uploadAndSaveImage_impl, uploadImageToStorage,
    saveImageMetadata. cbv zeta. fold mimeType. rewrite TM.
  unstore. cbn [fst snd store_tick store_events].
  fold filename. fold storagePath. fold sizeBytes.
  clearbody sizeBytes storagePath.
  destruct (storage_upload sb (S (store_tick st)) storagePath
              (base64Clean base64Data) mimeType) as [[message|]|e] eqn:U;
    cbn.
  - exists None. split; [reflexivity|].
    exists ["Storage upload error:"; "Upload failed:"].
    split; [discriminate|]. left. split; [discriminate|].
    rewrite <- !app_assoc. reflexivity.
  - rewrite T. cbn. unfold or_else. rewrite T.
    destruct (images_insert sb (S (S (store_tick st))) messageId_
                storagePath (option_filename options) mimeType sizeBytes)
      as [[err|row]|e] eqn:I; cbn.
    + exists None. split; [reflexivity|].
      exists ["Save image metadata error:"; "Failed to save image metadata"].
      split; [discriminate|]. right. split; [reflexivity|].
      split; [discriminate|]. rewrite <- !app_assoc. reflexivity.
    + exists (Some (storage_getPublicUrl sb storagePath, row)).
      split.
      * destruct (storage_getPublicUrl sb storagePath); reflexivity.
      * repeat split. rewrite <- !app_assoc. reflexivity.
    + exists None. split; [reflexivity|].
      exists ["Save image metadata error:"; "Failed to save image metadata"].
      split; [discriminate|]. right. split; [reflexivity|].
      split; [discriminate|]. rewrite <- !app_assoc. reflexivity.
  - exists None. split; [reflexivity|].
    exists ["Upload image error:"; "Upload failed:"].
    split; [discriminate|]. left. split; [discriminate|].
    rewrite <- !app_assoc. reflexivity.
Qed.

(** X30. [getMessageImages] and [deleteMessageImages] never throw. The
    first returns the rows that the selection gives, and nothing when
    the selection fails. The second asks for exactly one removal, of the
    storage paths of those rows in their order, when there is at least
    one row, and for none otherwise; a removal that fails is only
    logged. *)
Theorem deleteMessageImages_removes_listed_paths (sb : Supabase)
  (messageId_ : string) (st : Store) :
  let selected := images_select sb (store_tick st) messageId_ in
  let rows :=
    match selected with
    | Resolved (inr rows) => rows
    | _ => []
    end in
  let run := deleteMessageImages sb messageId_ st in
  fst (getMessageImages sb messageId_ st) = Normal rows /\
  fst run = Normal tt /\
  exists labels,
    store_events (snd run) =
      (store_events st ++
       StoreSelect messageId_ ::
       match rows with
       | [] => []
       | _ :: _ => [StoreRemove (map metadata_storagePath rows)]
       end ++ map StoreConsoleError labels)%list /\
    (labels = [] <->
     (exists found, selected = Resolved (inr found)) /\
     (rows = [] \/
      storage_remove sb (S (store_tick st))
        (map metadata_storagePath rows) = Resolved None)).
Proof.
  intros selected rows run. subst run rows selected.
  unfold deleteMessageImages, getMessageImages. unstore.
  cbn [fst snd store_tick store_events].
  destruct (images_select sb (store_tick st) messageId_)
    as [[err|[|row found]]|e] eqn:Q; cbn [fst snd store_tick store_events].
  - split; [reflexivity|]. split; [reflexivity|].
    exists ["Get message images error:"]. split.
    + cbn; rewrite <- ?app_assoc; reflexivity.
    + split; [discriminate|]. intros [(f & H) _]. discriminate.
  - split; [reflexivity|]. split; [reflexivity|].
    exists []. split.
    + cbn; rewrite <- ?app_assoc; reflexivity.
    + split; [|reflexivity]. intros _. split; [eauto|now left].
  - split; [reflexivity|].
    destruct (storage_remove sb (S (store_tick st))
                (map metadata_storagePath (row :: found)))
      as [[msg|]|e] eqn:R; cbn [fst snd store_tick store_events].
    + split; [reflexivity|].
      exists ["Delete storage files error:"]. split.
      * cbn; rewrite <- ?app_assoc; reflexivity.
      * split; [discriminate|]. intros [_ [H|H]]; discriminate.
    + split; [reflexivity|]. exists []. split.
      * cbn; rewrite <- ?app_assoc; reflexivity.
      * split; [|reflexivity]. intros _. split; [eauto|now right].
    + split; [reflexivity|].
      exists ["Delete message images error:"]. split.
      * cbn; rewrite <- ?app_assoc; reflexivity.
      * split; [discriminate|]. intros [_ [H|H]]; discriminate.
  - split; [reflexivity|]. split; [reflexivity|].
    exists ["Get message images error:"]. split.
    + cbn; rewrite <- ?app_assoc; reflexivity.
    + split; [discriminate|]. intros [(f & H) _]. discriminate.
Qed.
